(** * korner-billing-service: payment and wallet transaction engine

    A shallow embedding of the billing engine (status mapper, fee
    calculator, wallet ledger, transaction records, payment / wallet /
    subscription services and the renewal scheduler) together with the
    theorems that settle the specification's claims about it.

    Conventions of the embedding:
    - a JavaScript [number] that carries money is a rational [Q]; decimal
      columns are exact, and [Math.round] is [floor (x + 1/2)];
    - a table is a list of rows in insertion order, except [balances],
      whose primary key (user_id, currency_id) makes it a finite map;
    - an [async] function that touches the database is a state
      transformer that may throw; a write that was committed before the
      throw stays committed;
    - a query that reaches the database succeeds: storage failures, the
      cache and the log sinks are left out;
    - the gateway, the main service, HMAC-SHA512 and JSON/base64 decoding
      are collaborators outside the repository and are fields of an
      environment record. *)

From Stdlib Require Import Ascii String QArith Qround Qminmax Lqa.
From stdpp Require Import base option list gmap strings sorting pretty.

Local Open Scope string_scope.
Local Open Scope list_scope.

(* ===================================================================== *)
(** ** Enumerations of the transaction table (models/payment.model.ts)     *)
(* ===================================================================== *)

Inductive TxType := deposit | withdraw | transfer | subscription.
Inductive TxSource := wallet | card.
Inductive TxStatus := pending | completed | failed | canceled.

#[global] Instance TxType_eq_dec : EqDecision TxType.
Proof. solve_decision. Defined.
#[global] Instance TxSource_eq_dec : EqDecision TxSource.
Proof. solve_decision. Defined.
#[global] Instance TxStatus_eq_dec : EqDecision TxStatus.
Proof. solve_decision. Defined.

(** Terminal statuses of the record life cycle. *)
Definition terminal (s : TxStatus) : bool :=
  match s with pending => false | _ => true end.

(* ===================================================================== *)
(** ** utils/statusMapper.ts                                               *)
(* ===================================================================== *)

Module StatusMapper.

(** [String.prototype.toLowerCase] on the bytes of the string: the
    letters A-Z are folded, every other byte is kept (no non-ASCII code
    point lowers to a letter used by the vocabulary below). *)
Definition lower_ascii (c : ascii) : ascii :=
  let n := Ascii.nat_of_ascii c in
  if (65 <=? n)%nat && (n <=? 90)%nat then Ascii.ascii_of_nat (n + 32) else c.

Fixpoint toLowerCase (s : string) : string :=
  match s with
  | EmptyString => EmptyString
  | String c r => String (lower_ascii c) (toLowerCase r)
  end.

Definition completed_words : list string :=
  ["success"; "completed"; "paid"; "approved"; "withdraw"].
Definition failed_words : list string :=
  ["failed"; "error"; "declined"; "rejected"].
Definition canceled_words : list string :=
  ["cancelled"; "canceled"; "cancel"].
Definition pending_words : list string :=
  ["pending"; "processing"; "waiting"; "created"; "in_progress"; "initiated"].

(** [case w1: case w2: ... return r] of the switch: strict equality with
    one of the labels. *)
Definition is_case (labels : list string) (s : string) : bool :=
  existsb (String.eqb s) labels.

(** The switch of [mapPaymentStatus] on an already lower-cased value. *)
Definition switch_status (s : string) : TxStatus :=
  if is_case completed_words s then completed
  else if is_case failed_words s then failed
  else if is_case canceled_words s then canceled
  else pending.

(** [mapPaymentStatus(paymentStatus)]; [None] is [undefined] / [null],
    for which [paymentStatus?.toLowerCase()] is [undefined] and the
    switch falls to [default]. *)
Definition mapPaymentStatus (paymentStatus : option string) : TxStatus :=
  match paymentStatus with
  | None => pending
  | Some s => switch_status (toLowerCase s)
  end.

(** The vocabulary the switch names, with the status of each word. *)
Definition gateway_vocabulary : list (string * TxStatus) :=
  map (fun w => (w, completed)) completed_words ++
  map (fun w => (w, failed)) failed_words ++
  map (fun w => (w, canceled)) canceled_words ++
  map (fun w => (w, pending)) pending_words.

End StatusMapper.

(* ===================================================================== *)
(** ** Money                                                               *)
(* ===================================================================== *)

Section Money.
Local Open Scope Q_scope.

(** [a < b] on numbers, as a boolean. *)
Definition Qlt_bool (a b : Q) : bool := negb (Qle_bool b a).

(** [Math.round(x * 100) / 100]: [Math.round] rounds to the nearest
    integer, a tie going up. *)
Definition round2 (x : Q) : Q := inject_Z (Qfloor (x * 100 + (1 # 2))) / 100.

(** Truthiness of an optional number: [null], [undefined] and [0] are
    falsy. *)
Definition truthy_num (o : option Q) : bool :=
  match o with
  | Some x => negb (Qeq_bool x 0)
  | None => false
  end.

Definition num_or_zero (o : option Q) : Q := default 0 o.

End Money.

(* ===================================================================== *)
(** ** models/fee.model.ts: rows and the calculator                        *)
(* ===================================================================== *)

Section Fees.
Local Open Scope Q_scope.

Record PlatformFee := mkPlatformFee {
  fee_id : nat;
  fee_currency_id : nat;
  fee_percentage : Q;
  min_fee_amount : option Q;
  max_fee_amount : option Q;
  is_active : bool
}.

Record FeeCalculationResult := mkFeeResult {
  originalAmount : Q;
  feeAmount : Q;
  finalAmount : Q;
  feePercentage : Q
}.

(** [db("platform_fees").where({currency_id, is_active: true}).first()]. *)
Definition getActiveFeeForCurrency (fees : list PlatformFee) (currencyId : nat)
  : option PlatformFee :=
  find (fun f => (fee_currency_id f =? currencyId)%nat && is_active f) fees.

(** The body of [calculateFee] once the rule lookup has answered. *)
Definition calculateFeeWith (fee : option PlatformFee) (amount : Q)
  : FeeCalculationResult :=
  match fee with
  | None =>
      {| originalAmount := amount; feeAmount := 0;
         finalAmount := amount; feePercentage := 0 |}
  | Some fee =>
      let feeAmount0 := (amount * fee_percentage fee) / 100 in
      let feeAmount1 :=
        if truthy_num (min_fee_amount fee)
           && Qlt_bool feeAmount0 (num_or_zero (min_fee_amount fee))
        then num_or_zero (min_fee_amount fee) else feeAmount0 in
      let feeAmount2 :=
        if truthy_num (max_fee_amount fee)
           && Qlt_bool (num_or_zero (max_fee_amount fee)) feeAmount1
        then num_or_zero (max_fee_amount fee) else feeAmount1 in
      let feeAmount3 := round2 feeAmount2 in
      let finalAmount := round2 (amount - feeAmount3) in
      {| originalAmount := amount; feeAmount := feeAmount3;
         finalAmount := finalAmount; feePercentage := fee_percentage fee |}
  end.

Definition calculateFee (fees : list PlatformFee) (amount : Q) (currencyId : nat)
  : FeeCalculationResult :=
  calculateFeeWith (getActiveFeeForCurrency fees currencyId) amount.

End Fees.

(** The calculator as section 4.2 of the specification words it: the
    percentage fee, clamped to the bounds that are configured, then
    rounded half-up to two decimals. *)
Module FeeSpec.
Local Open Scope Q_scope.





End FeeSpec.

(** The fee services store a bound of [0] as [null]
    ([min_fee_amount || null]), so a stored bound is never zero. *)
Definition bound_stored (o : option Q) : Prop :=
  match o with Some x => ~ (x == 0)%Q | None => True end.

(* ===================================================================== *)
(** ** Rows of the tables                                                  *)
(* ===================================================================== *)

(** Decoded gateway payloads (utils/payment.ts). A field the JSON does
    not carry is [None]. *)
Record DecodedPaymentData := mkPaymentData {
  pd_order_id : option string;
  pd_payment_status : option string;
  pd_operation_status : option string
}.

Record PayerInfo := mkPayerInfo { pan_masked : option string }.

Record DecodedCallbackData := mkCallbackData {
  cb_payment_id : string;            (* String(decodedData.payment_id) *)
  cb_order_id : option string;
  cb_operation_status : option string;
  cb_recurrent_token : option string;
  cb_amount : option Q;
  cb_payment_date : option string;
  cb_payer_info : option PayerInfo
}.

Inductive TxData :=
  | PaymentData (d : DecodedPaymentData)
  | CallbackData (d : DecodedCallbackData).

(** A row of [transactions]. *)
Record Transaction := mkTransaction {
  tx_id : nat;
  tx_user_id : nat;
  tx_currency_id : nat;
  tx_amount : Q;
  tx_type : TxType;
  tx_source : TxSource;
  tx_user_subscription_id : option nat;
  tx_bar_id : option string;
  tx_status : option TxStatus;
  tx_order_id : option string;
  tx_payment_id : option string;
  tx_transaction_data : option TxData;
  tx_subscription_plan_id : option nat;
  tx_subscription_price_id : option nat
}.

(** One property of a [Partial<CreateTransactionParams>] object literal;
    a value of [None] is a property that is [undefined]. *)
Inductive TxField :=
  | UserId (v : option nat)
  | CurrencyId (v : option nat)
  | Amount (v : option Q)
  | Type_ (v : option TxType)
  | Source (v : option TxSource)
  | UserSubscriptionId (v : option nat)
  | BarId (v : option string)
  | Status (v : option TxStatus)
  | OrderId (v : option string)
  | PaymentId (v : option string)
  | TransactionData (v : option TxData)
  | SubscriptionPlanId (v : option nat)
  | SubscriptionPriceId (v : option nat).

Inductive Period := daily | monthly | yearly.

Record SubscriptionPlan := mkPlan {
  plan_id : nat;
  plan_period : option Period    (* [None]: a period the code does not know *)
}.

Record PlanPrice := mkPlanPrice {
  price_id : nat;
  price_plan_id : nat;
  price_currency_id : nat;
  price : Q
}.

Record UserSubscription := mkSubscription {
  sub_id : nat;
  sub_user_id : nat;
  sub_plan_id : nat;
  is_auto_renewal : bool;
  payment_method : TxSource;
  masked_pan : option string;
  expired_at : nat
}.

Record PaymentToken := mkToken {
  token_id : nat;
  token_user_id : nat;
  token : option string;
  token_expired_at : option string;
  token_amount : option Q;
  token_pan_masked : option string;
  token_created_at : nat
}.

(** The two charge endpoints of the gateway: [/payment/create] and
    [/payment/recurrent]. *)
Inductive GatewayOp := ChargeCreate | ChargeRecurrent.

(** Ghost record of the effects an operation had, oldest first. It is
    not a table of the service: it lets a theorem speak about the order
    of a record's creation, of balance writes and of gateway requests. *)
Inductive Effect :=
  | TxCreated (id : nat) (st : option TxStatus)
  | TxUpdated (id : nat) (fields : list TxField)
  | BalanceWritten (userId currencyId : nat)
  | SubscriptionCreated (id : nat)
  | AutoRenewalDisabled (id : nat)
  | GatewayRequest (op : GatewayOp).

(** The database (and the ghost journal). *)
Record World := mkWorld {
  currencies : list nat;
  users : list nat;
  subscription_plans : list SubscriptionPlan;
  subscription_plans_prices : list PlanPrice;
  balances : gmap (nat * nat) Q;
  transactions : list Transaction;
  user_subscriptions : list UserSubscription;
  payment_tokens : list PaymentToken;
  platform_fees : list PlatformFee;
  next_id : nat;                    (* the serial sequences *)
  journal : list Effect
}.

Definition set_balances (f : gmap (nat * nat) Q → gmap (nat * nat) Q) (w : World) : World :=
  mkWorld (currencies w) (users w) (subscription_plans w) (subscription_plans_prices w)
    (f (balances w)) (transactions w) (user_subscriptions w) (payment_tokens w)
    (platform_fees w) (next_id w) (journal w).

Definition set_transactions (f : list Transaction → list Transaction) (w : World) : World :=
  mkWorld (currencies w) (users w) (subscription_plans w) (subscription_plans_prices w)
    (balances w) (f (transactions w)) (user_subscriptions w) (payment_tokens w)
    (platform_fees w) (next_id w) (journal w).

Definition set_user_subscriptions (f : list UserSubscription → list UserSubscription)
  (w : World) : World :=
  mkWorld (currencies w) (users w) (subscription_plans w) (subscription_plans_prices w)
    (balances w) (transactions w) (f (user_subscriptions w)) (payment_tokens w)
    (platform_fees w) (next_id w) (journal w).

Definition set_payment_tokens (f : list PaymentToken → list PaymentToken) (w : World) : World :=
  mkWorld (currencies w) (users w) (subscription_plans w) (subscription_plans_prices w)
    (balances w) (transactions w) (user_subscriptions w) (f (payment_tokens w))
    (platform_fees w) (next_id w) (journal w).

Definition set_platform_fees (f : list PlatformFee → list PlatformFee) (w : World) : World :=
  mkWorld (currencies w) (users w) (subscription_plans w) (subscription_plans_prices w)
    (balances w) (transactions w) (user_subscriptions w) (payment_tokens w)
    (f (platform_fees w)) (next_id w) (journal w).

Definition bump_id (w : World) : World :=
  mkWorld (currencies w) (users w) (subscription_plans w) (subscription_plans_prices w)
    (balances w) (transactions w) (user_subscriptions w) (payment_tokens w)
    (platform_fees w) (S (next_id w)) (journal w).

Definition record_effect (e : Effect) (w : World) : World :=
  mkWorld (currencies w) (users w) (subscription_plans w) (subscription_plans_prices w)
    (balances w) (transactions w) (user_subscriptions w) (payment_tokens w)
    (platform_fees w) (next_id w) (journal w ++ [e]).

(* ===================================================================== *)
(** ** Computations: database state, exceptions                            *)
(* ===================================================================== *)

(** A thrown [Error]; [statusCode] is the property the services attach
    with [Object.assign]. *)
Record Exn := mkExn { statusCode : option nat; message : string }.

Inductive Outcome (A : Type) :=
  | Return (a : A)
  | Throw (e : Exn).
Arguments Return {A} a.
Arguments Throw {A} e.

Definition M (A : Type) : Type := World → Outcome A * World.

Definition ret {A} (a : A) : M A := λ w, (Return a, w).

Definition bind {A B} (c : M A) (k : A → M B) : M B :=
  λ w, match c w with
       | (Return a, w') => k a w'
       | (Throw e, w') => (Throw e, w')
       end.

Definition throw {A} (code : option nat) (msg : string) : M A :=
  λ w, (Throw (mkExn code msg), w).

(** [try { c } catch (error) { h error }]: what [c] wrote stays. *)
Definition try_catch {A} (c : M A) (h : Exn → M A) : M A :=
  λ w, match c w with
       | (Return a, w') => (Return a, w')
       | (Throw e, w') => h e w'
       end.

(** [db.transaction(async (trx) => c)]: a throw rolls the writes back. *)
Definition transaction {A} (c : M A) : M A :=
  λ w, match c w with
       | (Return a, w') => (Return a, w')
       | (Throw e, _) => (Throw e, w)
       end.

Definition gets {A} (f : World → A) : M A := λ w, (Return (f w), w).
Definition modify (f : World → World) : M unit := λ w, (Return tt, f w).
Definition log (e : Effect) : M unit := modify (record_effect e).

(** [const id = nextval(seq)]. *)
Definition fresh_id : M nat := λ w, (Return (next_id w), bump_id w).

Declare Scope m_scope.
Delimit Scope m_scope with M.
Notation "x <- c ;; k" := (bind c (λ x, k))
  (at level 100, c at next level, right associativity) : m_scope.
Notation "c ;;; k" := (bind c (λ _, k))
  (at level 100, right associativity) : m_scope.
Local Open Scope m_scope.

(** [for (const x of l) { await f(x) }]. *)
Fixpoint for_each {A} (l : list A) (f : A → M unit) : M unit :=
  match l with
  | [] => ret tt
  | x :: r => f x ;;; for_each r f
  end.

(** Truthiness of an optional string and of an optional id. *)
Definition truthy_str (o : option string) : bool :=
  match o with Some s => negb (String.eqb s "") | None => false end.

Definition truthy_id (o : option nat) : bool :=
  match o with Some n => negb (n =? 0)%nat | None => false end.

(* ===================================================================== *)
(** ** models/wallet.model.ts                                              *)
(* ===================================================================== *)

(** [getUserBalanceByCurrency]: the balance row joined with its currency. *)
Definition getUserBalanceByCurrency (userId currencyId : nat) : M (option Q) :=
  gets (λ w, if bool_decide (currencyId ∈ currencies w)
             then balances w !! (userId, currencyId) else None).

(** [createUserWallet]: one zero row per currency,
    [onConflict(...).ignore()]. *)
Definition createUserWallet (userId : nat) : M unit :=
  cs <- gets currencies ;;
  for_each cs (λ currencyId,
    existing <- gets (λ w, balances w !! (userId, currencyId)) ;;
    match existing with
    | Some _ => ret tt
    | None =>
        modify (set_balances (insert (userId, currencyId) 0%Q)) ;;;
        log (BalanceWritten userId currencyId)
    end).

Definition depositUserWallet (userId currencyId : nat) (amount : Q) : M unit :=
  transaction (
    existingBalance <- gets (λ w, balances w !! (userId, currencyId)) ;;
    match existingBalance with
    | Some current =>
        modify (set_balances (insert (userId, currencyId) (current + amount)%Q)) ;;;
        log (BalanceWritten userId currencyId)
    | None =>
        modify (set_balances (insert (userId, currencyId) amount)) ;;;
        log (BalanceWritten userId currencyId)
    end).

Record BalanceCheck := mkBalanceCheck {
  hasEnoughBalance : bool;
  currentBalance : Q
}.

Definition checkUserBalance (userId currencyId : nat) (requiredAmount : Q)
  : M BalanceCheck :=
  balance <- getUserBalanceByCurrency userId currencyId ;;
  match balance with
  | None => ret (mkBalanceCheck false 0%Q)
  | Some b => ret (mkBalanceCheck (Qle_bool requiredAmount b) b)
  end.

(** [{ success, transactionId?, error? }]. *)
Inductive DeductResult :=
  | Deducted (transactionId : nat)
  | UserBalanceNotFound
  | InsufficientBalance (current required : Q).

Definition deduct_success (r : DeductResult) : bool :=
  match r with Deducted _ => true | _ => false end.

(** The transaction body shared by [deductUserWallet] and
    [deductUserWalletForSubscription]; they differ in the ledger row.
    (The [catch] around it answers a storage failure.) *)
Definition deductWith (userId currencyId : nat) (amount : Q)
  (row : nat → Transaction) : M DeductResult :=
  transaction (
    balance <- gets (λ w, balances w !! (userId, currencyId)) ;;
    match balance with
    | None => ret UserBalanceNotFound
    | Some currentBalance =>
        if Qlt_bool currentBalance amount
        then ret (InsufficientBalance currentBalance amount)
        else
          modify (set_balances (insert (userId, currencyId) (currentBalance - amount)%Q)) ;;;
          log (BalanceWritten userId currencyId) ;;;
          id <- fresh_id ;;
          modify (set_transactions (λ l, l ++ [row id])) ;;;
          log (TxCreated id (Some completed)) ;;;
          ret (Deducted id)
    end).

Definition deductUserWallet (userId currencyId : nat) (amount : Q)
  (barId : option string) : M DeductResult :=
  deductWith userId currencyId amount (λ id,
    {| tx_id := id; tx_user_id := userId; tx_currency_id := currencyId;
       tx_amount := amount; tx_type := withdraw; tx_source := wallet;
       tx_user_subscription_id := None;
       tx_bar_id := if truthy_str barId then barId else None;
       tx_status := Some completed; tx_order_id := None; tx_payment_id := None;
       tx_transaction_data := None; tx_subscription_plan_id := None;
       tx_subscription_price_id := None |}).

Definition deductUserWalletForSubscription (userId currencyId : nat) (amount : Q)
  (userSubscriptionId : nat) : M DeductResult :=
  deductWith userId currencyId amount (λ id,
    {| tx_id := id; tx_user_id := userId; tx_currency_id := currencyId;
       tx_amount := amount; tx_type := subscription; tx_source := wallet;
       tx_user_subscription_id := Some userSubscriptionId;
       tx_bar_id := None;
       tx_status := Some completed; tx_order_id := None; tx_payment_id := None;
       tx_transaction_data := None; tx_subscription_plan_id := None;
       tx_subscription_price_id := None |}).

(* ===================================================================== *)
(** ** models/payment.model.ts                                             *)
(* ===================================================================== *)

(** The column a property of the object literal writes; an [undefined]
    property writes nothing. *)
Definition apply_field (f : TxField) (t : Transaction) : Transaction :=
  {| tx_id := tx_id t;
     tx_user_id := match f with UserId (Some v) => v | _ => tx_user_id t end;
     tx_currency_id := match f with CurrencyId (Some v) => v | _ => tx_currency_id t end;
     tx_amount := match f with Amount (Some v) => v | _ => tx_amount t end;
     tx_type := match f with Type_ (Some v) => v | _ => tx_type t end;
     tx_source := match f with Source (Some v) => v | _ => tx_source t end;
     tx_user_subscription_id :=
       match f with UserSubscriptionId (Some v) => Some v | _ => tx_user_subscription_id t end;
     tx_bar_id := match f with BarId (Some v) => Some v | _ => tx_bar_id t end;
     tx_status := match f with Status (Some v) => Some v | _ => tx_status t end;
     tx_order_id := match f with OrderId (Some v) => Some v | _ => tx_order_id t end;
     tx_payment_id := match f with PaymentId (Some v) => Some v | _ => tx_payment_id t end;
     tx_transaction_data :=
       match f with TransactionData (Some v) => Some v | _ => tx_transaction_data t end;
     tx_subscription_plan_id :=
       match f with SubscriptionPlanId (Some v) => Some v | _ => tx_subscription_plan_id t end;
     tx_subscription_price_id :=
       match f with SubscriptionPriceId (Some v) => Some v | _ => tx_subscription_price_id t end
  |}.

Definition apply_fields (fs : list TxField) (t : Transaction) : Transaction :=
  foldl (λ t f, apply_field f t) t fs.

(** [createTransaction]: the five required columns and the optional
    properties of the literal. *)
Definition createTransaction (userId currencyId : nat) (amount : Q)
  (type : TxType) (source : TxSource) (optional : list TxField) : M nat :=
  id <- fresh_id ;;
  let row := apply_fields optional
    {| tx_id := id; tx_user_id := userId; tx_currency_id := currencyId;
       tx_amount := amount; tx_type := type; tx_source := source;
       tx_user_subscription_id := None; tx_bar_id := None; tx_status := None;
       tx_order_id := None; tx_payment_id := None; tx_transaction_data := None;
       tx_subscription_plan_id := None; tx_subscription_price_id := None |} in
  modify (set_transactions (λ l, l ++ [row])) ;;;
  log (TxCreated id (tx_status row)) ;;;
  ret id.

(** [updateTransaction]: [db("transactions").where({ id }).update(...)]. *)
Definition updateTransaction (id : nat) (params : list TxField) : M unit :=
  modify (set_transactions
            (map (λ t, if (tx_id t =? id)%nat then apply_fields params t else t))) ;;;
  log (TxUpdated id params).

Definition createPaymentTransaction := createTransaction.
Definition updatePaymentTransaction := updateTransaction.

Definition getTransactionByOrderId (orderId : string) : M (option Transaction) :=
  gets (λ w, find (λ t, bool_decide (tx_order_id t = Some orderId)) (transactions w)).

Definition hasUserPurchasedBar (userId : nat) (barId : string) : M bool :=
  gets (λ w, existsb (λ t,
    (tx_user_id t =? userId)%nat
    && bool_decide (tx_bar_id t = Some barId)
    && bool_decide (tx_status t = Some completed)
    && negb (bool_decide (tx_type t = subscription))) (transactions w)).

(* ===================================================================== *)
(** ** models/token.model.ts                                               *)
(* ===================================================================== *)

Record Clock := mkClock {
  now : nat;
  plus_period : nat → Period → nat;       (* NOW() + INTERVAL '1 day' ... *)
  plus_24_hours : nat → nat;
  minus_months : nat → nat → nat          (* NOW() - INTERVAL 'k months' *)
}.

Definition createToken (clk : Clock) (userId : nat) (tok : option string)
  (expired : option string) (amount : option Q) (pan : option string)
  : M PaymentToken :=
  id <- fresh_id ;;
  let row := {| token_id := id; token_user_id := userId; token := tok;
                token_expired_at := expired; token_amount := amount;
                token_pan_masked := pan; token_created_at := now clk |} in
  modify (set_payment_tokens (λ l, l ++ [row])) ;;;
  ret row.

(** [db("payment_tokens").where({ id: tokenId, user_id: userId }).first()]. *)
Definition getPaymentTokenById (tokenId userId : nat) : M (option PaymentToken) :=
  gets (λ w, find (λ t, (token_id t =? tokenId)%nat && (token_user_id t =? userId)%nat)
                  (payment_tokens w)).

(* ===================================================================== *)
(** ** models/fee.model.ts: the rule table                                 *)
(* ===================================================================== *)

Definition calculateFeeM (amount : Q) (currencyId : nat) : M FeeCalculationResult :=
  gets (λ w, calculateFee (platform_fees w) amount currencyId).

Definition deactivate (f : PlatformFee) : PlatformFee :=
  mkPlatformFee (fee_id f) (fee_currency_id f) (fee_percentage f)
    (min_fee_amount f) (max_fee_amount f) false.

(** [createPlatformFee]: deactivate the active rule of the currency,
    insert the new active rule, in one transaction. *)
Definition createPlatformFee (currency_id : nat) (percentage : Q)
  (min_fee max_fee : option Q) : M PlatformFee :=
  transaction (
    modify (set_platform_fees
      (map (λ f, if (fee_currency_id f =? currency_id)%nat && is_active f
                 then deactivate f else f))) ;;;
    id <- fresh_id ;;
    let newFee := mkPlatformFee id currency_id percentage min_fee max_fee true in
    modify (set_platform_fees (λ l, l ++ [newFee])) ;;;
    ret newFee).

(** The [updateData] literal of [updatePlatformFee]: an outer [None] is
    an [undefined] property, left out of the update; for the bounds the
    inner option is the nullable column. *)
Record FeeUpdate := mkFeeUpdate {
  upd_fee_percentage : option Q;
  upd_min_fee_amount : option (option Q);
  upd_max_fee_amount : option (option Q);
  upd_is_active : option bool
}.

Definition apply_fee_update (u : FeeUpdate) (f : PlatformFee) : PlatformFee :=
  mkPlatformFee (fee_id f) (fee_currency_id f)
    (default (fee_percentage f) (upd_fee_percentage u))
    (default (min_fee_amount f) (upd_min_fee_amount u))
    (default (max_fee_amount f) (upd_max_fee_amount u))
    (default (is_active f) (upd_is_active u)).

(** [updatePlatformFee]: [where({ id: feeId }).update(...).returning("*")],
    the first returned row or [null]. *)
Definition updatePlatformFee (feeId : nat) (updateData : FeeUpdate)
  : M (option PlatformFee) :=
  modify (set_platform_fees
    (map (λ f, if (fee_id f =? feeId)%nat then apply_fee_update updateData f else f))) ;;;
  gets (λ w, find (λ f, (fee_id f =? feeId)%nat) (platform_fees w)).

(* ===================================================================== *)
(** ** models/subscription.model.ts                                        *)
(* ===================================================================== *)

Definition find_plan (w : World) (planId : nat) : option SubscriptionPlan :=
  find (λ p, (plan_id p =? planId)%nat) (subscription_plans w).

(** [createSubscription]: checks the plan and the user, then inserts the
    row with [expired_at = NOW() + INTERVAL period]. *)
Definition createSubscription (clk : Clock) (userId subscriptionPlanId : nat)
  (isAutoRenewal : bool) (paymentMethod : TxSource) (maskedPan : option string)
  : M UserSubscription :=
  transaction (
    subscriptionPlan <- gets (λ w, find_plan w subscriptionPlanId) ;;
    match subscriptionPlan with
    | None => throw None "Subscription plan not found"
    | Some plan =>
        user <- gets (λ w, bool_decide (userId ∈ users w)) ;;
        if negb user then throw None "User not found"
        else
          match plan_period plan with
          | None => throw None "Unknown subscription plan period"
          | Some period =>
              id <- fresh_id ;;
              let newSubscription :=
                {| sub_id := id; sub_user_id := userId;
                   sub_plan_id := subscriptionPlanId;
                   is_auto_renewal := isAutoRenewal;
                   payment_method := paymentMethod; masked_pan := maskedPan;
                   expired_at := plus_period clk (now clk) period |} in
              modify (set_user_subscriptions (λ l, l ++ [newSubscription])) ;;;
              log (SubscriptionCreated id) ;;;
              ret newSubscription
          end
    end).

(** [getSubscriptionInfoByTransactionId]: the transaction joined with its
    plan, its price and the price's currency; only [plan_id] is read by
    the callers. *)
Definition getSubscriptionInfoByTransactionId (transactionId : nat) : M (option nat) :=
  gets (λ w,
    t ← find (λ t, (tx_id t =? transactionId)%nat) (transactions w);
    planId ← tx_subscription_plan_id t;
    priceId ← tx_subscription_price_id t;
    plan ← find_plan w planId;
    pr ← find (λ p, (price_id p =? priceId)%nat) (subscription_plans_prices w);
    if bool_decide (price_currency_id pr ∈ currencies w) then Some (plan_id plan) else None).

(** [getActiveSubscriptionInfo(userId).hasActiveSubscription]. *)
Definition hasActiveSubscription (clk : Clock) (userId : nat) : M bool :=
  gets (λ w, existsb (λ s,
    (sub_user_id s =? userId)%nat
    && (now clk <? expired_at s)%nat
    && bool_decide (is_Some (find_plan w (sub_plan_id s)))) (user_subscriptions w)).

(* ===================================================================== *)
(** ** Collaborators outside the repository                                *)
(* ===================================================================== *)

(** [SubscriptionConfig], read from [process.env]; an unset variable is
    [None]. *)
Record SubscriptionConfig := mkConfig {
  secretKey : option string;
  apiKey : option string;
  apiUrl : option string;
  kornerApiUrl : option string;
  kornerUrl : option string;
  merchantId : option string;
  serviceId : option string
}.

(** [PaymentApiResponse] as it arrives: any property may be missing. *)
Record PaymentApiResponse := mkResponse {
  resp_data : option string;
  resp_payment_id : option string;
  resp_sign : option string;
  resp_success : option bool
}.

(** An axios call: a rejected promise or the response body. *)
Inductive HttpResult :=
  | HttpFailed
  | HttpOk (r : PaymentApiResponse).

Record BarData := mkBar {
  bar_profile_id : string;
  is_monetized : bool;
  monetized_details : option (option Q * option string)   (* price, currencyCode *)
}.

Record ProfileData := mkProfile { profile_user_id : nat }.

(** The decoded object of a charge request; it is serialised to JSON,
    base64-encoded and signed before it is sent. *)
Record ChargeRequest := mkCharge {
  charge_op : GatewayOp;
  charge_amount : Q;
  charge_token : option string;          (* recurrent charges *)
  charge_transaction_id : option nat     (* hosted checkout: in the redirect URLs *)
}.

Record Env := mkEnv {
  paymentConfig : SubscriptionConfig;
  clock : Clock;
  (** [createHmac("sha512", key).update(data).digest("hex")] *)
  hmac_sha512_hex : string → string → string;
  (** [JSON.parse(Buffer.from(data, "base64").toString("utf-8"))];
      [None] when it throws *)
  decodePaymentData : string → option DecodedPaymentData;
  decodeCallbackData : string → option DecodedCallbackData;
  (** utils/mainServiceClient.ts *)
  getBarById : string → option BarData;
  getProfileById : string → option ProfileData;
  getUserIdByProfileId : string → option nat;
  (** the gateway *)
  sendRequest : ChargeRequest → HttpResult
}.

(* ===================================================================== *)
(** ** utils/payment.ts                                                    *)
(* ===================================================================== *)

(** [verifyResponseSignature(data, sign, secretKey)]. With no key at all
    [createHmac] itself throws. *)
Definition verifyResponseSignature (env : Env) (data sign : string)
  (key : option string) : M unit :=
  match key with
  | None => throw None "The key argument must be provided"
  | Some k =>
      let calculatedSign := hmac_sha512_hex env k data in
      if negb (String.eqb calculatedSign sign)
      then throw None "Invalid response signature"
      else ret tt
  end.

(** [sendPaymentCreateRequest] / [sendPaymentRecurrentRequest]: the
    request leaves the process, then the promise settles. *)
Definition send (env : Env) (req : ChargeRequest) : M PaymentApiResponse :=
  log (GatewayRequest (charge_op req)) ;;;
  match sendRequest env req with
  | HttpFailed => throw None "Request failed"
  | HttpOk r => ret r
  end.

(** The destructuring and the check that follow every charge request:
    [typeof success === "undefined" || !data || !payment_id || !sign]. *)
Record CheckedResponse := mkChecked {
  r_data : string;
  r_payment_id : string;
  r_sign : string;
  r_success : bool
}.

Definition required_fields (r : PaymentApiResponse) : M CheckedResponse :=
  match resp_success r, resp_data r, resp_payment_id r, resp_sign r with
  | Some success, Some data, Some payment_id, Some sign =>
      if String.eqb data "" || String.eqb payment_id "" || String.eqb sign ""
      then throw None "Invalid API response: missing required fields"
      else ret (mkChecked data payment_id sign success)
  | _, _, _, _ => throw None "Invalid API response: missing required fields"
  end.

(** [JSON.parse(...)] outside a [try]: a syntax error propagates. *)
Definition parsePaymentData (env : Env) (data : string) : M DecodedPaymentData :=
  match decodePaymentData env data with
  | Some d => ret d
  | None => throw None "Unexpected token in JSON"
  end.

Definition is_str (o : option string) (s : string) : bool :=
  bool_decide (o = Some s).

(** [clearUserTransactionsCache]: touches the cache only and swallows its
    own errors. *)
Definition clearUserTransactionsCache (userId : nat) : M unit := ret tt.

(* ===================================================================== *)
(** ** modules/payment/payment.service.ts                                  *)
(* ===================================================================== *)

Inductive PaymentType := PTWallet | PTToken | PTCard | PTOther.

(** [a === b] on payment types. *)
Definition same_type (a b : PaymentType) : bool :=
  match a, b with
  | PTWallet, PTWallet | PTToken, PTToken | PTCard, PTCard | PTOther, PTOther => true
  | _, _ => false
  end.

Module PaymentService.

Record CreatePaymentBody := mkBody {
  email : option string;
  payment_type : option PaymentType;   (* [None]: missing or empty *)
  currency_id : option nat;
  body_token_id : option nat;
  bar_id : option string
}.

Inductive PaymentResult :=
  | PaidByWallet (transaction_id : option nat) (amount_deducted remaining_balance : Q)
  | PaidByToken (isPaymentSuccessful : bool) (payment_id : string)
  | PaidByCard (isPaymentSuccessful : bool) (payment_id : string).

(** The owner-credit block, written out three times in the service: the
    fee on the price, the net amount to the owner's wallet, a completed
    deposit record; any error inside is caught and logged. *)
Definition creditOwnerOf (env : Env) (profileId : string) (amount : Q)
  (currencyId : nat) (source : TxSource) (optional : list TxField) : M unit :=
  match getProfileById env profileId with
  | Some barOwnerProfile =>
      feeCalculation <- calculateFeeM amount currencyId ;;
      let ownerAmount := finalAmount feeCalculation in
      depositUserWallet (profile_user_id barOwnerProfile) currencyId ownerAmount ;;;
      _ <- createPaymentTransaction (profile_user_id barOwnerProfile) currencyId
             ownerAmount deposit source optional ;;
      clearUserTransactionsCache (profile_user_id barOwnerProfile)
  | None => ret tt
  end.

Definition swallow (c : M unit) : M unit := try_catch c (λ _, ret tt).

Definition config_ok_token (c : SubscriptionConfig) : bool :=
  truthy_str (secretKey c) && truthy_str (apiKey c) && truthy_str (apiUrl c).

Definition config_ok_card (c : SubscriptionConfig) : bool :=
  config_ok_token c && truthy_str (kornerUrl c) && truthy_str (merchantId c)
  && truthy_str (serviceId c).

(** [isPaymentSuccessful] of the token paths. *)
Definition token_payment_successful (success : bool) (d : DecodedPaymentData) : bool :=
  success && (is_str (pd_payment_status d) "success"
              || is_str (pd_payment_status d) "withdraw"
              || is_str (pd_operation_status d) "success").

Definition walletCase (env : Env) (userId : nat) (bar : BarData) (barId : string)
  (finalAmount : Q) (finalCurrencyId : nat) : M PaymentResult :=
  balanceCheck <- checkUserBalance userId finalCurrencyId finalAmount ;;
  if negb (hasEnoughBalance balanceCheck)
  then throw (Some 400) "Insufficient balance"
  else
    deductionResult <- deductUserWallet userId finalCurrencyId finalAmount (Some barId) ;;
    match deductionResult with
    | Deducted transactionId =>
        swallow (creditOwnerOf env (bar_profile_id bar) finalAmount finalCurrencyId
                   wallet [Status (Some completed); BarId (Some barId)]) ;;;
        clearUserTransactionsCache userId ;;;
        ret (PaidByWallet (Some transactionId) finalAmount
               (currentBalance balanceCheck - finalAmount)%Q)
    | _ => throw None "Failed to deduct balance"
    end.

Definition tokenCase (env : Env) (userId : nat) (bar : BarData) (barId : string)
  (finalAmount : Q) (finalCurrencyId : nat) (tokenId : option nat)
  (transactionId : option nat) : M PaymentResult :=
  match transactionId with
  | None => throw None "Failed to create transaction"
  | Some transactionId =>
      paymentToken <- getPaymentTokenById (default 0%nat tokenId) userId ;;
      match paymentToken with
      | None => throw (Some 404) "Payment token not found or doesn't belong to user"
      | Some paymentToken =>
          if negb (config_ok_token (paymentConfig env))
          then throw None "Missing required environment variables"
          else
            responseToken <- send env (mkCharge ChargeRecurrent finalAmount
                                         (token paymentToken) None) ;;
            checked <- required_fields responseToken ;;
            let dataToken := r_data checked in
            let paymentIdToken := r_payment_id checked in
            let signToken := r_sign checked in
            let successToken := r_success checked in
            verifyResponseSignature env dataToken signToken
              (secretKey (paymentConfig env)) ;;;
            decodedDataToken <- parsePaymentData env dataToken ;;
            let isPaymentSuccessful :=
              token_payment_successful successToken decodedDataToken in
            updatePaymentTransaction transactionId
              [OrderId (pd_order_id decodedDataToken);
               PaymentId (Some paymentIdToken);
               Status (Some (if isPaymentSuccessful then completed
                             else StatusMapper.mapPaymentStatus
                                    (pd_payment_status decodedDataToken)));
               TransactionData (Some (PaymentData decodedDataToken))] ;;;
            (if isPaymentSuccessful
             then
               swallow (creditOwnerOf env (bar_profile_id bar) finalAmount
                          finalCurrencyId card
                          [Status (Some completed); BarId (Some barId);
                           OrderId (pd_order_id decodedDataToken);
                           PaymentId (Some paymentIdToken)]) ;;;
               clearUserTransactionsCache userId
             else ret tt) ;;;
            ret (PaidByToken isPaymentSuccessful paymentIdToken)
      end
  end.

Definition cardCase (env : Env) (finalAmount : Q) (transactionId : option nat)
  : M PaymentResult :=
  match transactionId with
  | None => throw None "Failed to create transaction"
  | Some transactionId =>
      if negb (config_ok_card (paymentConfig env))
      then throw None "Missing required environment variables"
      else
        response <- send env (mkCharge ChargeCreate finalAmount None
                                (Some transactionId)) ;;
        checked <- required_fields response ;;
        let data := r_data checked in
        let payment_id := r_payment_id checked in
        let sign := r_sign checked in
        let success := r_success checked in
        verifyResponseSignature env data sign (secretKey (paymentConfig env)) ;;;
        decodedData <- parsePaymentData env data ;;
        updatePaymentTransaction transactionId
          [OrderId (pd_order_id decodedData);
           PaymentId (Some payment_id);
           Status (Some (StatusMapper.mapPaymentStatus (pd_payment_status decodedData)));
           TransactionData (Some (PaymentData decodedData))] ;;;
        ret (PaidByCard success payment_id)
  end.

Definition createPayment (env : Env) (userId : nat) (body : CreatePaymentBody)
  : M PaymentResult :=
  match payment_type body, truthy_str (email body), bar_id body with
  | Some paymentType, true, Some barId =>
    if String.eqb barId "" then
      throw (Some 400) "Missing required fields: payment_type, email, bar_id"
    else
    match getBarById env barId with
    | None => throw (Some 404) "Bar not found"
    | Some bar =>
      if negb (is_monetized bar)
      then throw (Some 400) "Bar is not monetized and cannot be purchased"
      else
        ownerActive <-
          (if truthy_id (getUserIdByProfileId env (bar_profile_id bar))
           then hasActiveSubscription (clock env)
                  (default 0%nat (getUserIdByProfileId env (bar_profile_id bar)))
           else ret false) ;;
        if negb ownerActive
        then throw (Some 403)
               "This content is temporarily unavailable for purchase. Please contact the owner."
        else
          match monetized_details bar with
          | Some (Some finalAmount, currencyCode) =>
            if Qeq_bool finalAmount 0 || negb (truthy_str currencyCode)
            then throw (Some 400) "Bar monetization details are incomplete"
            else
              let finalCurrencyId := default 1%nat (currency_id body) in
              alreadyPurchased <- hasUserPurchasedBar userId barId ;;
              if alreadyPurchased
              then throw (Some 400) "You have already purchased this bar"
              else
                if same_type paymentType PTToken
                   && negb (truthy_id (body_token_id body))
                then throw (Some 400) "token_id is required when payment_type is 'token'"
                else
                  transactionId <-
                    (if same_type paymentType PTWallet then ret None
                     else
                       id <- createPaymentTransaction userId finalCurrencyId finalAmount
                               withdraw card
                               [Status (Some pending); BarId (Some barId)] ;;
                       ret (Some id)) ;;
                  match paymentType with
                  | PTWallet =>
                      walletCase env userId bar barId finalAmount finalCurrencyId
                  | PTToken =>
                      tokenCase env userId bar barId finalAmount finalCurrencyId
                        (body_token_id body) transactionId
                  | PTCard => cardCase env finalAmount transactionId
                  | PTOther =>
                      throw (Some 400)
                        "Invalid payment_type. Must be 'wallet', 'token', or 'card'"
                  end
          | _ => throw (Some 400) "Bar monetization details are incomplete"
          end
    end
  | _, _, _ => throw (Some 400) "Missing required fields: payment_type, email, bar_id"
  end.

(** The order id of a callback, looked up in [transactions]; knex
    rejects an [undefined] binding. *)
Definition transactionOfCallback (d : DecodedCallbackData) : M Transaction :=
  match cb_order_id d with
  | None => throw None "Undefined binding(s) detected when compiling FIRST query"
  | Some orderId =>
      transaction <- getTransactionByOrderId orderId ;;
      match transaction with
      | None => throw (Some 404) "Transaction not found"
      | Some t => ret t
      end
  end.

Definition callback (env : Env) (data sign : string) : M Transaction :=
  match decodeCallbackData env data with
  | None => throw (Some 400) "Invalid data format"
  | Some decodedData =>
    verifyResponseSignature env data sign (secretKey (paymentConfig env)) ;;;
    transaction <- transactionOfCallback decodedData ;;
    (if is_str (cb_operation_status decodedData) "success" then
       match cb_payer_info decodedData with
       | None => throw None "Cannot read properties of undefined (reading 'pan_masked')"
       | Some payer =>
         _ <- createToken (clock env) (tx_user_id transaction)
                (cb_recurrent_token decodedData) (cb_payment_date decodedData)
                (cb_amount decodedData) (pan_masked payer) ;;
         updatePaymentTransaction (tx_id transaction)
           [OrderId (cb_order_id decodedData);
            PaymentId (Some (cb_payment_id decodedData));
            Status (Some completed);
            TransactionData (Some (CallbackData decodedData))] ;;;
         (match tx_bar_id transaction with
          | Some barId =>
            if negb (String.eqb barId "")
               && negb (bool_decide (tx_status transaction = Some completed))
            then
              swallow (
                match getBarById env barId with
                | Some bar =>
                    creditOwnerOf env (bar_profile_id bar) (tx_amount transaction)
                      (tx_currency_id transaction) card
                      [Status (Some completed); BarId (Some barId);
                       OrderId (cb_order_id decodedData);
                       PaymentId (Some (cb_payment_id decodedData))]
                | None => ret tt
                end)
            else ret tt
          | None => ret tt
          end) ;;;
         clearUserTransactionsCache (tx_user_id transaction)
       end
     else
       updatePaymentTransaction (tx_id transaction)
         [OrderId (cb_order_id decodedData);
          PaymentId (Some (cb_payment_id decodedData));
          Status (Some failed);
          TransactionData (Some (CallbackData decodedData))]) ;;;
    ret transaction
  end.

End PaymentService.

(* ===================================================================== *)
(** ** modules/wallet/wallet.service.ts                                    *)
(* ===================================================================== *)

Module WalletService.

Record TopUpBody := mkTopUp {
  amount : option Q;
  email : option string;
  paymentType : option PaymentType;     (* only [PTToken] and [PTCard] are served *)
  currencyId : option nat;
  tokenId : option nat
}.

Inductive TopUpResult :=
  | TokenTopUp (isPaymentSuccessful : bool) (payment_id : string)
  | CardTopUp (success : bool) (payment_id : string).

Definition config_ok (c : SubscriptionConfig) : bool :=
  truthy_str (secretKey c) && truthy_str (apiKey c) && truthy_str (apiUrl c)
  && truthy_str (kornerApiUrl c) && truthy_str (kornerUrl c)
  && truthy_str (merchantId c) && truthy_str (serviceId c).

(** The [if (paymentType === "token")] block of [topUp]. *)
Definition tokenBranch (env : Env) (userId currencyId : nat) (amount : Q)
  (tokenId : option nat) (transactionId : nat) : M TopUpResult :=
  paymentToken <- getPaymentTokenById (default 0%nat tokenId) userId ;;
  match paymentToken with
  | None => throw (Some 404) "Payment token not found or doesn't belong to user"
  | Some paymentToken =>
      responseToken <- send env (mkCharge ChargeRecurrent amount
                                   (token paymentToken) None) ;;
      checked <- required_fields responseToken ;;
      let dataToken := r_data checked in
      let paymentIdToken := r_payment_id checked in
      let signToken := r_sign checked in
      let successToken := r_success checked in
      verifyResponseSignature env dataToken signToken
        (secretKey (paymentConfig env)) ;;;
      decodedDataToken <- parsePaymentData env dataToken ;;
      let isPaymentSuccessful :=
        PaymentService.token_payment_successful successToken decodedDataToken in
      (if isPaymentSuccessful
       then PaymentService.swallow (
              depositUserWallet userId currencyId amount ;;;
              clearUserTransactionsCache userId)
       else ret tt) ;;;
      updatePaymentTransaction transactionId
        [OrderId (pd_order_id decodedDataToken);
         PaymentId (Some paymentIdToken);
         Status (Some (if isPaymentSuccessful then completed
                       else StatusMapper.mapPaymentStatus
                              (pd_payment_status decodedDataToken)));
         TransactionData (Some (PaymentData decodedDataToken))] ;;;
      ret (TokenTopUp isPaymentSuccessful paymentIdToken)
  end.

(** The [if (paymentType === "card")] block of [topUp]. *)
Definition cardBranch (env : Env) (amount : Q) (transactionId : nat) : M TopUpResult :=
  response <- send env (mkCharge ChargeCreate amount None (Some transactionId)) ;;
  checked <- required_fields response ;;
  let data := r_data checked in
  let payment_id := r_payment_id checked in
  let sign := r_sign checked in
  let success := r_success checked in
  verifyResponseSignature env data sign (secretKey (paymentConfig env)) ;;;
  decodedData <- parsePaymentData env data ;;
  updatePaymentTransaction transactionId
    [OrderId (pd_order_id decodedData);
     PaymentId (Some payment_id);
     Status (Some (StatusMapper.mapPaymentStatus (pd_payment_status decodedData)));
     TransactionData (Some (PaymentData decodedData))] ;;;
  ret (CardTopUp success payment_id).

Definition topUp (env : Env) (userId : nat) (body : TopUpBody) : M TopUpResult :=
  match paymentType body, truthy_num (amount body), truthy_str (email body) with
  | Some paymentType, true, true =>
    let amount := num_or_zero (amount body) in
    let currencyId := default 1%nat (currencyId body) in
    if same_type paymentType PTToken && negb (truthy_id (tokenId body))
    then throw (Some 400) "tokenId is required when paymentType is 'token'"
    else if negb (config_ok (paymentConfig env))
    then throw None "Missing required environment variables"
    else
      transactionId <- createPaymentTransaction userId currencyId amount deposit card
                         [Status (Some pending)] ;;
      match paymentType with
      | PTToken => tokenBranch env userId currencyId amount (tokenId body) transactionId
      | PTCard => cardBranch env amount transactionId
      | _ => throw (Some 400) "Invalid paymentType. Must be 'token' or 'card'"
      end
  | _, _, _ => throw (Some 400) "Missing required fields: paymentType, amount, email"
  end.

(** [decodedData.order_id?.startsWith("recurrent_")]. *)
Definition isRecurrentPayment (d : DecodedCallbackData) : bool :=
  match cb_order_id d with
  | Some o => String.prefix "recurrent_" o
  | None => false
  end.

Definition callback (env : Env) (data sign : string) : M Transaction :=
  match decodeCallbackData env data with
  | None => throw (Some 400) "Invalid data format"
  | Some decodedData =>
    verifyResponseSignature env data sign (secretKey (paymentConfig env)) ;;;
    transaction <- PaymentService.transactionOfCallback decodedData ;;
    (if is_str (cb_operation_status decodedData) "success"
        && bool_decide (tx_type transaction = deposit)
        && negb (isRecurrentPayment decodedData)
     then
       (if truthy_str (cb_recurrent_token decodedData)
        then PaymentService.swallow (
               _ <- createToken (clock env) (tx_user_id transaction)
                      (cb_recurrent_token decodedData) (cb_payment_date decodedData)
                      (cb_amount decodedData)
                      (payer ← cb_payer_info decodedData; pan_masked payer) ;;
               ret tt)
        else ret tt) ;;;
       PaymentService.swallow (
         depositUserWallet (tx_user_id transaction) (tx_currency_id transaction)
           (tx_amount transaction) ;;;
         clearUserTransactionsCache (tx_user_id transaction))
     else ret tt) ;;;
    updatePaymentTransaction (tx_id transaction)
      [OrderId (cb_order_id decodedData);
       PaymentId (tx_payment_id transaction);
       Status (Some (if is_str (cb_operation_status decodedData) "success"
                     then completed else failed));
       TransactionData (Some (CallbackData decodedData))] ;;;
    ret transaction
  end.

End WalletService.

(* ===================================================================== *)
(** ** modules/subscription/subscription.service.ts: the callback          *)
(* ===================================================================== *)

Module SubscriptionService.

Definition callback (env : Env) (data sign : string) : M Transaction :=
  match decodeCallbackData env data with
  | None => throw (Some 400) "Invalid data format"
  | Some decodedData =>
    verifyResponseSignature env data sign (secretKey (paymentConfig env)) ;;;
    transaction <- PaymentService.transactionOfCallback decodedData ;;
    (if is_str (cb_operation_status decodedData) "success" then
       match cb_payer_info decodedData with
       | None => throw None "Cannot read properties of undefined (reading 'pan_masked')"
       | Some payer =>
         _ <- createToken (clock env) (tx_user_id transaction)
                (cb_recurrent_token decodedData) (cb_payment_date decodedData)
                (cb_amount decodedData) (pan_masked payer) ;;
         subscriptionInfo <- getSubscriptionInfoByTransactionId (tx_id transaction) ;;
         (match subscriptionInfo with
          | Some planId =>
              PaymentService.swallow (
                _ <- createSubscription (clock env) (tx_user_id transaction) planId
                       true card (pan_masked payer) ;;
                ret tt)
          | None => ret tt
          end) ;;;
         updatePaymentTransaction (tx_id transaction)
           [OrderId (cb_order_id decodedData);
            PaymentId (Some (cb_payment_id decodedData));
            Status (Some completed);
            TransactionData (Some (CallbackData decodedData))]
       end
     else ret tt) ;;;
    ret transaction
  end.

End SubscriptionService.

(* ===================================================================== *)
(** ** services/subscriptionRenewal.service.ts                             *)
(* ===================================================================== *)

Module SubscriptionRenewalService.

(** A row of the join of [getExpiringSubscriptions]; the price columns
    come from a left join and may be [null]. *)
Record ExpiringSubscription := mkExpiring {
  subscription_id : nat;
  user_id : nat;
  subscription_plan_id : nat;
  es_payment_method : TxSource;
  es_masked_pan : option string;
  es_price_id : option nat;
  es_currency_id : option nat;
  es_price : option Q
}.

Definition expiring_rows (clk : Clock) (w : World) : list ExpiringSubscription :=
  us ← user_subscriptions w;
  if is_auto_renewal us && (now clk <? expired_at us)%nat
     && (expired_at us <=? plus_24_hours clk (now clk))%nat
  then
    sp ← filter (λ p, plan_id p = sub_plan_id us) (subscription_plans w);
    let base pid cid pr :=
      mkExpiring (sub_id us) (sub_user_id us) (sub_plan_id us) (payment_method us)
        (masked_pan us) pid cid pr in
    match filter (λ p, price_plan_id p = plan_id sp) (subscription_plans_prices w) with
    | [] => [base None None None]
    | prices =>
        (λ spp, base (Some (price_id spp)) (Some (price_currency_id spp))
                  (Some (price spp))) <$> prices
    end
  else [].

Definition getExpiringSubscriptions (env : Env) : M (list ExpiringSubscription) :=
  gets (expiring_rows (clock env)).

(** [.orderBy("created_at", "desc").first()]. *)
Definition newest (l : list PaymentToken) : option PaymentToken :=
  foldl (λ best t,
    match best with
    | Some b => if (token_created_at b <? token_created_at t)%nat then Some t else Some b
    | None => Some t
    end) None l.

Definition tokenForCard (userId : nat) (pan : option string) : M (option PaymentToken) :=
  gets (λ w, newest (filter (λ t, token_user_id t = userId ∧ token_pan_masked t = pan)
                            (payment_tokens w))).

(** [createPaymentRecurrentRequestBody] signs with the secret key;
    [createHmac] throws when there is none. *)
Definition signedWith (c : SubscriptionConfig) : M unit :=
  match secretKey c with
  | None => throw None "The key argument must be provided"
  | Some _ => ret tt
  end.

Definition renewCard (env : Env) (candidate : ExpiringSubscription) : M bool :=
  paymentToken <- tokenForCard (user_id candidate) (es_masked_pan candidate) ;;
  match paymentToken with
  | None => ret false
  | Some paymentToken =>
    match es_price candidate with
    | Some amount =>
      if negb (truthy_id (es_price_id candidate))
         || negb (truthy_id (es_currency_id candidate))
      then ret false
      else
        transactionId <- createPaymentTransaction (user_id candidate)
                           (default 0%nat (es_currency_id candidate)) amount
                           subscription card
                           [Status (Some pending);
                            SubscriptionPlanId (Some (subscription_plan_id candidate));
                            SubscriptionPriceId (es_price_id candidate)] ;;
        signedWith (paymentConfig env) ;;;
        response <- send env (mkCharge ChargeRecurrent amount (token paymentToken) None) ;;
        checked <- required_fields response ;;
        let responseData := r_data checked in
        let paymentId := r_payment_id checked in
        let sign := r_sign checked in
        let success := r_success checked in
        verifyResponseSignature env responseData sign (secretKey (paymentConfig env)) ;;;
        decodedData <- parsePaymentData env responseData ;;
        updatePaymentTransaction transactionId
          [OrderId (pd_order_id decodedData);
           PaymentId (Some paymentId);
           Status (Some (StatusMapper.mapPaymentStatus (pd_payment_status decodedData)));
           TransactionData (Some (PaymentData decodedData))] ;;;
        if success && (is_str (pd_payment_status decodedData) "success"
                       || is_str (pd_payment_status decodedData) "withdraw")
        then
          newSubscription <- createSubscription (clock env) (user_id candidate)
                               (subscription_plan_id candidate) true card
                               (es_masked_pan candidate) ;;
          updatePaymentTransaction transactionId
            [UserSubscriptionId (Some (sub_id newSubscription));
             Status (Some completed)] ;;;
          ret true
        else ret false
    | None => ret false
    end
  end.

Definition renewSubscription (env : Env) (candidate : ExpiringSubscription) : M bool :=
  try_catch
    (match es_payment_method candidate with
     | wallet => ret false
     | card => renewCard env candidate
     end)
    (λ _, ret false).

Definition disable (s : UserSubscription) : UserSubscription :=
  mkSubscription (sub_id s) (sub_user_id s) (sub_plan_id s) false
    (payment_method s) (masked_pan s) (expired_at s).

Definition disableAutoRenewal (subscriptionId : nat) : M unit :=
  modify (set_user_subscriptions
            (map (λ s, if (sub_id s =? subscriptionId)%nat then disable s else s))) ;;;
  log (AutoRenewalDisabled subscriptionId).

Definition cleanupExpiredSubscriptions (env : Env) (monthsToKeep : nat) : M unit :=
  modify (set_user_subscriptions
            (filter (λ s, ¬ (expired_at s < minus_months (clock env) (now (clock env))
                                              monthsToKeep)%nat))).

(** The [for ... of] loop of [processRenewals] with its two counters. *)
Fixpoint renewalLoop (env : Env) (l : list ExpiringSubscription)
  (successCount failureCount : nat) : M (nat * nat) :=
  match l with
  | [] => ret (successCount, failureCount)
  | candidate :: rest =>
      renewed <- renewSubscription env candidate ;;
      if renewed
      then renewalLoop env rest (S successCount) failureCount
      else
        disableAutoRenewal (subscription_id candidate) ;;;
        renewalLoop env rest successCount (S failureCount)
  end.

(** [processRenewals]; the value is the pair of counts it reports, or
    [None] when it reports that there is nothing to renew. *)
Definition processRenewals (env : Env) : M (option (nat * nat)) :=
  try_catch (
    expiringSubscriptions <- getExpiringSubscriptions env ;;
    report <-
      (match expiringSubscriptions with
       | [] => ret None
       | _ => counts <- renewalLoop env expiringSubscriptions 0 0 ;; ret (Some counts)
       end) ;;
    cleanupExpiredSubscriptions env 12 ;;;
    ret report)
    (λ _, ret None).

End SubscriptionRenewalService.

(* ===================================================================== *)
(** ** Predicates of the statements                                        *)
(* ===================================================================== *)

(** Every balance row is at least zero. *)
Definition nonnegative (w : World) : Prop :=
  ∀ k v, balances w !! k = Some v → (0 <= v)%Q.

(** The ledger row a successful debit appends. *)
Definition ledger_row (t : Transaction) (id userId currencyId : nat) (amount : Q) : Prop :=
  tx_id t = id ∧ tx_user_id t = userId ∧ tx_currency_id t = currencyId
  ∧ tx_amount t = amount ∧ tx_source t = wallet ∧ tx_status t = Some completed.

(** The contract of a debit [op] on the account (userId, currencyId):
    no balance row, or a balance below the amount, is a failure that
    leaves the world as it was; otherwise the balance row is decremented
    and one ledger row is appended, and nothing else is written. *)
Definition debit_contract (op : M DeductResult) (userId currencyId : nat)
  (amount : Q) : Prop :=
  ∀ w,
    match balances w !! (userId, currencyId) with
    | None => op w = (Return UserBalanceNotFound, w)
    | Some current =>
        ((current < amount)%Q →
           op w = (Return (InsufficientBalance current amount), w))
        ∧ ((amount <= current)%Q →
           ∃ w' t,
             op w = (Return (Deducted (next_id w)), w')
             ∧ balances w' = <[(userId, currencyId) := (current - amount)%Q]> (balances w)
             ∧ transactions w' = transactions w ++ [t]
             ∧ ledger_row t (next_id w) userId currencyId amount
             ∧ user_subscriptions w' = user_subscriptions w
             ∧ payment_tokens w' = payment_tokens w
             ∧ platform_fees w' = platform_fees w)
    end.

(** The successes of a run of debits against one account, as the
    specification counts them: a call succeeds when its amount, added to
    the amounts already withdrawn, does not exceed the starting balance. *)
Fixpoint within_balance (B spent : Q) (amounts : list Q) : list bool :=
  match amounts with
  | [] => []
  | a :: rest =>
      if Qle_bool (spent + a) B
      then true :: within_balance B (spent + a)%Q rest
      else false :: within_balance B spent rest
  end.

(** The amount withdrawn by the successful calls. *)
Fixpoint withdrawn (amounts : list Q) (ok : list bool) : Q :=
  match amounts, ok with
  | a :: rest, true :: ok' => (a + withdrawn rest ok')%Q
  | _ :: rest, false :: ok' => withdrawn rest ok'
  | _, _ => 0%Q
  end.

(** A sequence of [deductUserWallet] calls on one account, one after the
    other, with the success of each. *)
Fixpoint debits (userId currencyId : nat) (amounts : list Q) : M (list bool) :=
  match amounts with
  | [] => ret []
  | a :: rest =>
      r <- deductUserWallet userId currencyId a None ;;
      rs <- debits userId currencyId rest ;;
      ret (deduct_success r :: rs)
  end.

(** At most one active rule per currency. *)
Definition active_rules (fees : list PlatformFee) (currencyId : nat) : list PlatformFee :=
  filter (λ f, fee_currency_id f = currencyId ∧ is_active f = true) fees.

Definition one_active_rule (fees : list PlatformFee) : Prop :=
  ∀ currencyId, (length (active_rules fees currencyId) ≤ 1)%nat.

(** The effects an operation added to the journal of [w]. *)
Definition new_effects (w w' : World) : list Effect :=
  drop (length (journal w)) (journal w').

Definition is_gateway_request (e : Effect) : bool :=
  match e with GatewayRequest _ => true | _ => false end.

Definition is_balance_write (e : Effect) : bool :=
  match e with BalanceWritten _ _ => true | _ => false end.

(** The world once the pending record of an attempt has been created,
    and nothing else. *)
Definition with_pending_record (w : World) (userId currencyId : nat) (amount : Q)
  (type : TxType) (optional : list TxField) : World :=
  snd (createPaymentTransaction userId currencyId amount type card
         (Status (Some pending) :: optional) w).

Definition no_status (optional : list TxField) : Prop :=
  Forall (λ f, match f with Status _ => False | _ => True end) optional.

Definition token_not_found : Exn :=
  mkExn (Some 404) "Payment token not found or doesn't belong to user".


(** The token [tokenId] is a payment token of [userId]. *)
Definition owns_token (w : World) (userId tokenId : nat) : Prop :=
  ∃ t, t ∈ payment_tokens w ∧ token_id t = tokenId ∧ token_user_id t = userId.

(** What an attempt that stopped before its charge left behind: no
    balance write, no gateway request, and at most the pending record. *)
Definition stopped_before_charge (w w' : World) : Prop :=
  balances w' = balances w
  ∧ Forall (λ e, is_gateway_request e = false) (new_effects w w')
  ∧ (transactions w' = transactions w
     ∨ ∃ t, transactions w' = transactions w ++ [t] ∧ tx_status t = Some pending).

(** A relation between the world before and after a computation that
    every write of the services respects. *)
Class Frame (R : World → World → Prop) : Prop := {
  frame_refl : ∀ w, R w w;
  frame_trans : ∀ a b c, R a b → R b c → R a c;
  frame_balances : ∀ f w, R w (set_balances f w);
  frame_transactions : ∀ f w, R w (set_transactions f w);
  frame_payment_tokens : ∀ f w, R w (set_payment_tokens f w);
  frame_bump_id : ∀ w, R w (bump_id w);
  frame_effect : ∀ e w, R w (record_effect e w);
  frame_new_subscription : ∀ s w,
    sub_id s = next_id w →
    R w (record_effect (SubscriptionCreated (sub_id s))
           (set_user_subscriptions (λ l, l ++ [s]) (bump_id w)));
  frame_disable : ∀ id w,
    R w (set_user_subscriptions
           (map (λ s, if (sub_id s =? id)%nat
                      then SubscriptionRenewalService.disable s else s)) w);
  frame_cleanup : ∀ (P : UserSubscription → Prop) `{∀ s, Decision (P s)} w,
    R w (set_user_subscriptions (filter P) w)
}.

Definition respects (R : World → World → Prop) {A} (c : M A) : Prop :=
  ∀ w, R w (snd (c w)).

(** The journal only grows. *)
Definition journal_extends (w w' : World) : Prop :=
  ∃ rest, journal w' = journal w ++ rest.

(** The first thing an attempt did was to create its record, pending. *)
Definition pending_first (w w' : World) : Prop :=
  ∃ rest, new_effects w w' = TxCreated (next_id w) (Some pending) :: rest.

(** Every subscription row got its id from the sequence. *)
Definition subscriptions_numbered (w : World) : Prop :=
  ∀ s, s ∈ user_subscriptions w → sub_id s < next_id w.

(** Auto-renewal is off on (every row of) the subscription [id]. *)
Definition renewal_off (id : nat) (w : World) : Prop :=
  ∀ s, s ∈ user_subscriptions w → sub_id s = id → is_auto_renewal s = false.

(** What later writes keep of a subscription [id] that already exists. *)
Definition keeps_renewal_off (id : nat) (w w' : World) : Prop :=
  subscriptions_numbered w → id < next_id w →
  subscriptions_numbered w' ∧ id < next_id w'
  ∧ (renewal_off id w → renewal_off id w').

(** The world in which the renewal loop over [l] reaches position [i]. *)
Definition world_before (env : Env) (l : list SubscriptionRenewalService.ExpiringSubscription)
  (w : World) (i : nat) : World :=
  snd (SubscriptionRenewalService.renewalLoop env (take i l) 0 0 w).

(** Whether the attempt at position [i] of the loop renewed its
    subscription. *)
Definition renewed (env : Env) (l : list SubscriptionRenewalService.ExpiringSubscription)
  (w : World) (i : nat) : bool :=
  match l !! i with
  | Some candidate =>
      match fst (SubscriptionRenewalService.renewSubscription env candidate
                   (world_before env l w i)) with
      | Return b => b
      | Throw _ => false
      end
  | None => false
  end.

Definition count_renewed (env : Env)
  (l : list SubscriptionRenewalService.ExpiringSubscription) (w : World) : nat :=
  length (filter (λ i, renewed env l w i = true) (seq 0 (length l))).

Definition count_failed (env : Env)
  (l : list SubscriptionRenewalService.ExpiringSubscription) (w : World) : nat :=
  length (filter (λ i, renewed env l w i = false) (seq 0 (length l))).

(** The world after one turn of the renewal loop on [candidate]. *)
Definition after_attempt (env : Env)
  (candidate : SubscriptionRenewalService.ExpiringSubscription) (w : World) : World :=
  match SubscriptionRenewalService.renewSubscription env candidate w with
  | (Return false, w1) =>
      snd (SubscriptionRenewalService.disableAutoRenewal
             (SubscriptionRenewalService.subscription_id candidate) w1)
  | (_, w1) => w1
  end.

(** The counts of a loop that started from [s] and [f]. *)
Definition add_counts (s f : nat) (o : Outcome (nat * nat)) : Outcome (nat * nat) :=
  match o with
  | Return (a, b) => Return (s + a, f + b)
  | Throw e => Throw e
  end.

(** The gateway accepted the recurrent charge of a renewal: the card has
    a token, the plan has a price, and the response is a verified
    success. *)
Definition charge_accepted (env : Env)
  (c : SubscriptionRenewalService.ExpiringSubscription) (w : World) : Prop :=
  SubscriptionRenewalService.es_payment_method c = card
  ∧ ∃ tok amount r data sign key d,
      fst (SubscriptionRenewalService.tokenForCard
             (SubscriptionRenewalService.user_id c)
             (SubscriptionRenewalService.es_masked_pan c) w) = Return (Some tok)
      ∧ SubscriptionRenewalService.es_price c = Some amount
      ∧ truthy_id (SubscriptionRenewalService.es_price_id c) = true
      ∧ truthy_id (SubscriptionRenewalService.es_currency_id c) = true
      ∧ sendRequest env (mkCharge ChargeRecurrent amount (token tok) None) = HttpOk r
      ∧ resp_success r = Some true
      ∧ resp_data r = Some data ∧ resp_sign r = Some sign
      ∧ secretKey (paymentConfig env) = Some key
      ∧ hmac_sha512_hex env key data = sign
      ∧ decodePaymentData env data = Some d
      ∧ (pd_payment_status d = Some "success" ∨ pd_payment_status d = Some "withdraw").








(* ===================================================================== *)
(** ** Scenarios                                                           *)
(* ===================================================================== *)

Module Scenario.

Definition clock0 : Clock :=
  {| now := 100;                       (* in days *)
     plus_period := λ t p, match p with
                           | daily => t + 1 | monthly => t + 30 | yearly => t + 365
                           end;
     plus_24_hours := λ t, t + 1;
     minus_months := λ t k, t - 30 * k |}.

Definition config0 : SubscriptionConfig :=
  {| secretKey := Some "secret"; apiKey := Some "key"; apiUrl := Some "https://gw";
     kornerApiUrl := Some "https://api"; kornerUrl := Some "https://korner";
     merchantId := Some "m"; serviceId := Some "s" |}.

(** A stand-in for the digest: the services only compare two digests
    for equality. *)
Definition digest (key data : string) : string := key +:+ "/" +:+ data.

Definition callbackOf (orderId status : string) : DecodedCallbackData :=
  {| cb_payment_id := "77"; cb_order_id := Some orderId;
     cb_operation_status := Some status; cb_recurrent_token := Some "tok-1";
     cb_amount := Some 100%Q; cb_payment_date := None;
     cb_payer_info := Some (mkPayerInfo (Some "4400-xx-1234")) |}.

Definition paymentOf (status : string) : DecodedPaymentData :=
  {| pd_order_id := Some "recurrent_1"; pd_payment_status := Some status;
     pd_operation_status := None |}.

(** Bar "7" costs [price] and belongs to profile "p7" of user 2; the
    gateway answers every charge with [answer]. *)
Definition env0 (price : Q) (answer : HttpResult) : Env :=
  {| paymentConfig := config0;
     clock := clock0;
     hmac_sha512_hex := digest;
     decodePaymentData := λ data,
       if String.eqb data "paid" then Some (paymentOf "success")
       else if String.eqb data "refused" then Some (paymentOf "declined")
       else None;
     decodeCallbackData := λ data,
       if String.eqb data "topup-ok" then Some (callbackOf "pay_1" "success")
       else if String.eqb data "plan-ok" then Some (callbackOf "pay_2" "success")
       else if String.eqb data "bar-ok" then Some (callbackOf "pay_3" "success")
       else None;
     getBarById := λ id,
       if String.eqb id "7"
       then Some (mkBar "p7" true (Some (Some price, Some "KZT"))) else None;
     getProfileById := λ id, if String.eqb id "p7" then Some (mkProfile 2) else None;
     getUserIdByProfileId := λ id, if String.eqb id "p7" then Some 2 else None;
     sendRequest := λ _, answer |}.

Definition signed (data : string) : PaymentApiResponse :=
  mkResponse (Some data) (Some "pid-1") (Some (digest "secret" data)) (Some true).


Definition tx0 (id userId : nat) (amount : Q) (type : TxType) (barId : option string)
  (orderId : option string) (plan : option nat) : Transaction :=
  {| tx_id := id; tx_user_id := userId; tx_currency_id := 1; tx_amount := amount;
     tx_type := type; tx_source := card; tx_user_subscription_id := None;
     tx_bar_id := barId; tx_status := Some pending; tx_order_id := orderId;
     tx_payment_id := Some "pid-1"; tx_transaction_data := None;
     tx_subscription_plan_id := plan; tx_subscription_price_id := plan |}.

(** Users 1 (buyer, balance 1000) and 2 (owner, balance 0, subscribed);
    one currency; plan 1 with price 1; the fee rules are given. *)
Definition world0 (fees : list PlatformFee) (txs : list Transaction)
  (tokens : list PaymentToken) : World :=
  {| currencies := [1];
     users := [1; 2];
     subscription_plans := [mkPlan 1 (Some monthly)];
     subscription_plans_prices := [mkPlanPrice 1 1 1 300%Q];
     balances := {[ (1, 1) := 1000%Q; (2, 1) := 0%Q ]};
     transactions := txs;
     user_subscriptions := [mkSubscription 1 2 1 true card (Some "4400-xx-1234") 101];
     payment_tokens := tokens;
     platform_fees := fees;
     next_id := 10;
     journal := [] |}.

(** The rule of the specification's scenario: 5 %, at least 10, at most 200. *)
Definition fees0 : list PlatformFee :=
  [mkPlatformFee 1 1 5%Q (Some 10%Q) (Some 200%Q) true].

Definition token0 : PaymentToken :=
  mkToken 5 1 (Some "tok-1") None None (Some "4400-xx-1234") 90.

Definition walletPurchase : PaymentService.CreatePaymentBody :=
  PaymentService.mkBody (Some "a@b.c") (Some PTWallet) None None (Some "7").

Definition tokenPurchase (tokenId : nat) : PaymentService.CreatePaymentBody :=
  PaymentService.mkBody (Some "a@b.c") (Some PTToken) None (Some tokenId) (Some "7").

Definition cardPurchase : PaymentService.CreatePaymentBody :=
  PaymentService.mkBody (Some "a@b.c") (Some PTCard) None None (Some "7").

Definition balanceOf (w : World) (userId : nat) : Q :=
  default 0%Q (balances w !! (userId, 1)).


(** Three subscriptions that expire within a day: user 2 pays by a card
    that has no token, user 1 by a card with [token0], user 1 again from
    the wallet. *)
Definition renewalWorld : World :=
  set_user_subscriptions
    (λ _, [mkSubscription 1 2 1 true card (Some "4400-xx-1234") 101;
           mkSubscription 2 1 1 true card (Some "4400-xx-1234") 101;
           mkSubscription 3 1 1 true wallet None 101])
    (world0 [] [] [token0]).

End Scenario.

(* ===================================================================== *)
(** * The rest of the models, the services and their callers               *)
(* ===================================================================== *)

(* ===================================================================== *)
(** ** models/fee.model.ts and modules/fee/fee.service.ts                  *)
(* ===================================================================== *)

(** [orderBy("currency_id", "asc")]. *)
Definition by_currency (a b : PlatformFee) : Prop :=
  (fee_currency_id a ≤ fee_currency_id b)%nat.

#[global] Instance by_currency_dec : RelDecision by_currency :=
  λ a b, decide (fee_currency_id a ≤ fee_currency_id b)%nat.

(** [getAllActiveFees]: the active rules, by currency. *)
Definition getAllActiveFees (fees : list PlatformFee) : list PlatformFee :=
  merge_sort by_currency (filter (λ f, is_active f = true) fees).

Module FeeService.

(** [x || null] on an optional number. *)
Definition or_null (o : option Q) : option Q :=
  if truthy_num o then o else None.

(** The object the service answers with; a bound is reported through
    [fee.min_fee_amount ? parseFloat(...) : null]. *)
Record FeeView := mkFeeView {
  view_id : nat;
  view_currency_id : nat;
  view_fee_percentage : Q;
  view_min_fee_amount : option Q;
  view_max_fee_amount : option Q;
  view_is_active : bool
}.

Definition view (f : PlatformFee) : FeeView :=
  mkFeeView (fee_id f) (fee_currency_id f) (fee_percentage f)
    (or_null (min_fee_amount f)) (or_null (max_fee_amount f)) (is_active f).

(** [feeService.create]: a bound that is missing, [null] or [0] is
    stored as [null]. *)
Definition create (currency_id : nat) (fee_percentage : Q)
  (min_fee_amount max_fee_amount : option Q) : M FeeView :=
  newFee <- createPlatformFee currency_id fee_percentage
              (or_null min_fee_amount) (or_null max_fee_amount) ;;
  ret (view newFee).

(** The body of an update: an outer [None] is a property that is
    [undefined]; for a bound the inner [None] is [null]. *)
Record UpdateBody := mkUpdateBody {
  body_fee_percentage : option Q;
  body_min_fee_amount : option (option Q);
  body_max_fee_amount : option (option Q);
  body_is_active : option bool
}.

(** [feeService.update]:
    [min_fee_amount === undefined ? undefined : min_fee_amount || null]. *)
Definition update (feeId : nat) (body : UpdateBody) : M (option FeeView) :=
  updatedFee <- updatePlatformFee feeId
                  (mkFeeUpdate (body_fee_percentage body)
                     (or_null <$> body_min_fee_amount body)
                     (or_null <$> body_max_fee_amount body)
                     (body_is_active body)) ;;
  ret (view <$> updatedFee).

End FeeService.

(** Every stored rule has bounds that are [null] or not zero. *)
Definition bounds_stored (w : World) : Prop :=
  ∀ f, f ∈ platform_fees w →
       bound_stored (min_fee_amount f) ∧ bound_stored (max_fee_amount f).


(* ===================================================================== *)
(** ** models/wallet.model.ts: the listing of balances                     *)
(* ===================================================================== *)

(** A row of [getUserBalances] (the currency code is a column of
    [currencies], which the model keeps as ids). *)
Record UserBalance := mkUserBalance {
  ub_userId : nat;
  ub_currencyId : nat;
  ub_balance : Q
}.

(** [getUserBalances]: the balance rows of the user joined with their
    currency. *)
Definition getUserBalances (userId : nat) : M (list UserBalance) :=
  gets (λ w, c ← currencies w;
             match balances w !! (userId, c) with
             | Some b => [mkUserBalance userId c b]
             | None => []
             end).

(* ===================================================================== *)
(** ** models/token.model.ts: the cards of a user                          *)
(* ===================================================================== *)

(** The columns [getUserPaymentTokens] selects: the token itself is not
    among them. *)
Record Card := mkCard {
  card_id : nat;
  card_pan_masked : option string;
  card_amount : option Q;
  card_expired_at : option string;
  card_created_at : nat
}.

Definition card_of (t : PaymentToken) : Card :=
  mkCard (token_id t) (token_pan_masked t) (token_amount t)
    (token_expired_at t) (token_created_at t).

(** [orderBy("created_at", "desc")]. *)
Definition newer_first (a b : Card) : Prop :=
  (card_created_at b ≤ card_created_at a)%nat.

#[global] Instance newer_first_dec : RelDecision newer_first :=
  λ a b, decide (card_created_at b ≤ card_created_at a)%nat.

Definition getUserPaymentTokens (userId : nat) : M (list Card) :=
  gets (λ w, merge_sort newer_first
               (card_of <$> filter (λ t, token_user_id t = userId) (payment_tokens w))).

(** Every payment token got its id from the sequence. *)
Definition tokens_numbered (w : World) : Prop :=
  ∀ t, t ∈ payment_tokens w → (token_id t < next_id w)%nat.

(* ===================================================================== *)
(** ** utils/mainServiceClient.ts                                          *)
(* ===================================================================== *)

(** [ensureProtocol]: [/^https?:\/\//.test(url)]. *)
Definition has_protocol (url : string) : bool :=
  String.prefix "http://" url || String.prefix "https://" url.

Definition ensureProtocol (url : string) : string :=
  if negb (has_protocol url) then "http://" +:+ url else url.

(* ===================================================================== *)
(** ** Statements about purchases                                          *)
(* ===================================================================== *)

(** What [createPayment] has checked when it reaches the switch on the
    payment type: the body is complete, the bar exists and is monetized
    with a price, its owner has an active subscription, and the user has
    not bought the bar yet. *)
Definition purchase_admitted (env : Env) (userId : nat)
  (body : PaymentService.CreatePaymentBody) (w : World)
  (paymentType : PaymentType) (barId : string) (bar : BarData) (price : Q) : Prop :=
  PaymentService.payment_type body = Some paymentType
  ∧ truthy_str (PaymentService.email body) = true
  ∧ PaymentService.bar_id body = Some barId
  ∧ barId ≠ ""
  ∧ getBarById env barId = Some bar
  ∧ is_monetized bar = true
  ∧ (∃ ownerId, getUserIdByProfileId env (bar_profile_id bar) = Some ownerId
                ∧ ownerId ≠ 0
                ∧ fst (hasActiveSubscription (clock env) ownerId w) = Return true)
  ∧ (∃ code, monetized_details bar = Some (Some price, code)
             ∧ truthy_str code = true)
  ∧ Qeq_bool price 0 = false
  ∧ fst (hasUserPurchasedBar userId barId w) = Return false
  ∧ (paymentType = PTToken →
     truthy_id (PaymentService.body_token_id body) = true).

(** The switch of [createPayment], with the pending record that precedes
    it for every payment type but the wallet. *)
Definition purchase_switch (env : Env) (userId : nat)
  (body : PaymentService.CreatePaymentBody)
  (paymentType : PaymentType) (barId : string) (bar : BarData) (price : Q)
  : M PaymentService.PaymentResult :=
  let currencyId := default 1 (PaymentService.currency_id body) in
  transactionId <-
    (if same_type paymentType PTWallet then ret None
     else
       id <- createPaymentTransaction userId currencyId price withdraw card
               [Status (Some pending); BarId (Some barId)] ;;
       ret (Some id)) ;;
  match paymentType with
  | PTWallet => PaymentService.walletCase env userId bar barId price currencyId
  | PTToken =>
      PaymentService.tokenCase env userId bar barId price currencyId
        (PaymentService.body_token_id body) transactionId
  | PTCard => PaymentService.cardCase env price transactionId
  | PTOther =>
      throw (Some 400) "Invalid payment_type. Must be 'wallet', 'token', or 'card'"
  end.

(* ===================================================================== *)
(** ** Statements about charges and their callbacks                        *)
(* ===================================================================== *)

(** The gateway answers the request [req] with a complete response whose
    signature is the HMAC of its data under the configured key and whose
    data decodes to [d]. *)
Definition verified_answer (env : Env) (req : ChargeRequest)
  (data payment_id : string) (success : bool) (d : DecodedPaymentData) : Prop :=
  ∃ key,
    secretKey (paymentConfig env) = Some key
    ∧ sendRequest env req
      = HttpOk (mkResponse (Some data) (Some payment_id)
                  (Some (hmac_sha512_hex env key data)) (Some success))
    ∧ data ≠ "" ∧ payment_id ≠ "" ∧ hmac_sha512_hex env key data ≠ ""
    ∧ decodePaymentData env data = Some d.

(** A callback whose data decodes to [d] and whose signature verifies. *)
Definition verified_callback (env : Env) (data sign : string)
  (d : DecodedCallbackData) : Prop :=
  decodeCallbackData env data = Some d
  ∧ ∃ key, secretKey (paymentConfig env) = Some key
           ∧ hmac_sha512_hex env key data = sign.

(** Every transaction record got its id from the sequence. *)
Definition transactions_numbered (w : World) : Prop :=
  ∀ t, t ∈ transactions w → (tx_id t < next_id w)%nat.

(** No record carries the order id yet. *)
Definition order_unused (w : World) (orderId : string) : Prop :=
  ∀ t, t ∈ transactions w → tx_order_id t ≠ Some orderId.

(** A complete top-up request to be paid on the hosted checkout, with
    the gateway configured. *)
Definition top_up_by_card (env : Env) (body : WalletService.TopUpBody) (amount : Q)
  : Prop :=
  WalletService.paymentType body = Some PTCard
  ∧ WalletService.amount body = Some amount
  ∧ truthy_num (Some amount) = true
  ∧ truthy_str (WalletService.email body) = true
  ∧ WalletService.config_ok (paymentConfig env) = true.

(** A complete top-up request to be charged to the saved card
    [tokenId], with the gateway configured. *)
Definition top_up_by_token (env : Env) (body : WalletService.TopUpBody) (amount : Q)
  (tokenId : nat) : Prop :=
  WalletService.paymentType body = Some PTToken
  ∧ WalletService.amount body = Some amount
  ∧ truthy_num (Some amount) = true
  ∧ truthy_str (WalletService.email body) = true
  ∧ WalletService.tokenId body = Some tokenId
  ∧ tokenId ≠ 0%nat
  ∧ WalletService.config_ok (paymentConfig env) = true.

(* ===================================================================== *)
(** ** models/subscription.model.ts: the other queries                     *)
(* ===================================================================== *)

(** [getSubscriptionPlanPrice]: the price row joined with its plan and
    its currency. *)
Definition getSubscriptionPlanPrice (planId priceId : nat) : M (option PlanPrice) :=
  gets (λ w,
    plan ← find_plan w planId;
    pr ← find (λ p, (price_plan_id p =? plan_id plan)%nat && (price_id p =? priceId)%nat)
              (subscription_plans_prices w);
    if bool_decide (price_currency_id pr ∈ currencies w) then Some pr else None).

(** The row [.where("user_id", userId).where("expired_at", ">", now).first()]
    answers. *)
Definition activeSubscriptionOf (clk : Clock) (userId : nat) (w : World)
  : option UserSubscription :=
  find (λ s, (sub_user_id s =? userId)%nat && (now clk <? expired_at s)%nat)
       (user_subscriptions w).

(** [cancelSubscription]: auto-renewal is switched off on the active
    subscription; the expiry is left as it is. (The row also gets a
    [cancelled_at] timestamp, a column the model does not carry.) *)
Definition cancelSubscription (clk : Clock) (userId : nat) : M bool :=
  transaction (
    activeSubscription <- gets (activeSubscriptionOf clk userId) ;;
    match activeSubscription with
    | None => throw None ("No active subscription found for user " +:+ pretty userId)
    | Some s =>
        updatedRows <- gets (λ w, length (filter (λ x, sub_id x = sub_id s)
                                                 (user_subscriptions w))) ;;
        modify (set_user_subscriptions
                  (map (λ x, if (sub_id x =? sub_id s)%nat
                             then SubscriptionRenewalService.disable x else x))) ;;;
        log (AutoRenewalDisabled (sub_id s)) ;;;
        ret (0 <? updatedRows)%nat
    end).

(** [deleteSubscription]: [deletedRows > 0]. *)
Definition deleteSubscription (subscriptionId : nat) : M bool :=
  deletedRows <- gets (λ w, length (filter (λ s, sub_id s = subscriptionId)
                                           (user_subscriptions w))) ;;
  modify (set_user_subscriptions (filter (λ s, sub_id s ≠ subscriptionId))) ;;;
  ret (0 <? deletedRows)%nat.

(** [ActiveSubscriptionInfo] (without the plan's name and the
    cancellation timestamp). *)
Record ActiveSubscriptionInfo := mkInfo {
  info_hasActiveSubscription : bool;
  info_planId : option nat;
  info_period : option Period;
  info_expiresAt : option nat;
  info_isAutoRenewal : option bool;
  info_paymentMethod : option TxSource;
  info_maskedPan : option string
}.

(** [getActiveSubscriptionInfo]: the first unexpired subscription of the
    user, joined with its plan. *)
Definition getActiveSubscriptionInfo (clk : Clock) (userId : nat)
  : M ActiveSubscriptionInfo :=
  gets (λ w,
    match find (λ s, (sub_user_id s =? userId)%nat && (now clk <? expired_at s)%nat
                     && bool_decide (is_Some (find_plan w (sub_plan_id s))))
               (user_subscriptions w) with
    | None => mkInfo false None None None None None None
    | Some s =>
        mkInfo true (Some (sub_plan_id s))
          (plan ← find_plan w (sub_plan_id s); plan_period plan)
          (Some (expired_at s)) (Some (is_auto_renewal s))
          (Some (payment_method s)) (masked_pan s)
    end).

(* ===================================================================== *)
(** ** modules/subscription/subscription.service.ts: the other methods     *)
(* ===================================================================== *)

(** The methods of [subscriptionService] besides its callback (which is
    [SubscriptionService.callback]). Error messages are given without
    the amounts they interpolate. *)
Module subscriptionService.

Record CreateSubscriptionBody := mkBody {
  email : option string;
  payment_type : option PaymentType;
  plan_id : option nat;
  price_id : option nat;
  token_id : option nat
}.

Inductive SubscriptionResult :=
  | PaidByWallet (subscription_id : nat) (transaction_id : option nat)
      (amount_deducted remaining_balance : Q)
  | PaidByToken (isPaymentSuccessful : bool) (payment_id : string)
      (subscription_id : option nat)
  | PaidByCard (isPaymentSuccessful : bool) (payment_id : string).

Definition walletCase (env : Env) (userId planId : nat) (planPrice : PlanPrice)
  (transactionId : nat) : M SubscriptionResult :=
  let amount := price planPrice in
  balanceCheck <- checkUserBalance userId (price_currency_id planPrice) amount ;;
  if negb (hasEnoughBalance balanceCheck)
  then throw (Some 400) "Insufficient balance"
  else
    subscription <- createSubscription (clock env) userId planId true wallet None ;;
    deductionResult <- deductUserWalletForSubscription userId
                         (price_currency_id planPrice) amount (sub_id subscription) ;;
    match deductionResult with
    | Deducted deducted =>
        updatePaymentTransaction transactionId
          [UserSubscriptionId (Some (sub_id subscription));
           Status (Some completed)] ;;;
        ret (PaidByWallet (sub_id subscription) (Some deducted) amount
               (currentBalance balanceCheck - amount)%Q)
    | _ =>
        _ <- deleteSubscription (sub_id subscription) ;;
        throw None "Failed to deduct balance"
    end.

Definition tokenCase (env : Env) (userId planId : nat) (planPrice : PlanPrice)
  (tokenId : option nat) (transactionId : nat) : M SubscriptionResult :=
  let amount := price planPrice in
  paymentToken <- getPaymentTokenById (default 0%nat tokenId) userId ;;
  match paymentToken with
  | None => throw (Some 404) "Payment token not found or doesn't belong to user"
  | Some paymentToken =>
      if negb (PaymentService.config_ok_token (paymentConfig env))
      then throw None "Missing required environment variables"
      else
        responseToken <- send env (mkCharge ChargeRecurrent amount
                                     (token paymentToken) None) ;;
        checked <- required_fields responseToken ;;
        let dataToken := r_data checked in
        let paymentIdToken := r_payment_id checked in
        let signToken := r_sign checked in
        let successToken := r_success checked in
        verifyResponseSignature env dataToken signToken
          (secretKey (paymentConfig env)) ;;;
        decodedDataToken <- parsePaymentData env dataToken ;;
        let isPaymentSuccessful :=
          PaymentService.token_payment_successful successToken decodedDataToken in
        if isPaymentSuccessful
        then
          subscription <- createSubscription (clock env) userId planId true card
                            (token_pan_masked paymentToken) ;;
          updatePaymentTransaction transactionId
            [OrderId (pd_order_id decodedDataToken);
             PaymentId (Some paymentIdToken);
             Status (Some completed);
             TransactionData (Some (PaymentData decodedDataToken));
             UserSubscriptionId (Some (sub_id subscription))] ;;;
          ret (PaidByToken true paymentIdToken (Some (sub_id subscription)))
        else
          updatePaymentTransaction transactionId
            [OrderId (pd_order_id decodedDataToken);
             PaymentId (Some paymentIdToken);
             Status (Some (StatusMapper.mapPaymentStatus
                             (pd_payment_status decodedDataToken)));
             TransactionData (Some (PaymentData decodedDataToken))] ;;;
          ret (PaidByToken false paymentIdToken None)
  end.

Definition cardCase (env : Env) (planPrice : PlanPrice) (transactionId : nat)
  : M SubscriptionResult :=
  let amount := price planPrice in
  if negb (WalletService.config_ok (paymentConfig env))
  then throw None "Missing required environment variables"
  else
    response <- send env (mkCharge ChargeCreate amount None (Some transactionId)) ;;
    checked <- required_fields response ;;
    let data := r_data checked in
    let payment_id := r_payment_id checked in
    let sign := r_sign checked in
    let success := r_success checked in
    verifyResponseSignature env data sign (secretKey (paymentConfig env)) ;;;
    decodedData <- parsePaymentData env data ;;
    updatePaymentTransaction transactionId
      [OrderId (pd_order_id decodedData);
       PaymentId (Some payment_id);
       Status (Some (StatusMapper.mapPaymentStatus (pd_payment_status decodedData)));
       TransactionData (Some (PaymentData decodedData))] ;;;
    ret (PaidByCard success payment_id).

(** [subscriptionService.create]. *)
Definition create (env : Env) (userId : nat) (body : CreateSubscriptionBody)
  : M SubscriptionResult :=
  match payment_type body, truthy_id (plan_id body), truthy_id (price_id body) with
  | Some paymentType, true, true =>
    let planId := default 0%nat (plan_id body) in
    let priceId := default 0%nat (price_id body) in
    if same_type paymentType PTToken && negb (truthy_id (token_id body))
    then throw (Some 400) "token_id is required when payment_type is 'token'"
    else
      planPrice <- getSubscriptionPlanPrice planId priceId ;;
      match planPrice with
      | None => throw (Some 404) "Subscription plan or price not found"
      | Some planPrice =>
          transactionId <- createPaymentTransaction userId (price_currency_id planPrice)
                             (price planPrice) subscription
                             (if same_type paymentType PTWallet then wallet else card)
                             [Status (Some pending);
                              SubscriptionPlanId (Some planId);
                              SubscriptionPriceId (Some priceId)] ;;
          match paymentType with
          | PTWallet => walletCase env userId planId planPrice transactionId
          | PTToken => tokenCase env userId planId planPrice (token_id body) transactionId
          | PTCard => cardCase env planPrice transactionId
          | PTOther =>
              throw (Some 400)
                "Invalid payment_type. Must be 'wallet', 'token', or 'card'"
          end
      end
  | _, _, _ => throw (Some 400) "Missing required fields: payment_type, plan_id, price_id"
  end.

(** What [cancel] answers: the plan and the expiry of the subscription
    (the service formats the expiry as a date of the locale). *)
Record Cancelled := mkCancelled {
  cancelled_plan_id : option nat;
  cancelled_expires_at : nat
}.

(** [subscriptionService.cancel]. *)
Definition cancel (env : Env) (userId : nat) : M Cancelled :=
  activeSubscriptionInfo <- getActiveSubscriptionInfo (clock env) userId ;;
  match info_hasActiveSubscription activeSubscriptionInfo,
        info_expiresAt activeSubscriptionInfo with
  | true, Some expiresAt =>
      isCancelled <- cancelSubscription (clock env) userId ;;
      if negb isCancelled then throw None "Failed to cancel subscription"
      else
        _ <- getActiveSubscriptionInfo (clock env) userId ;;
        ret (mkCancelled (info_planId activeSubscriptionInfo) expiresAt)
  | _, _ => throw (Some 404) "No active subscription found"
  end.



End subscriptionService.

(** A complete request for the plan [planId] at its price [priceId], to
    be paid from the wallet. *)
Definition plan_from_wallet (body : subscriptionService.CreateSubscriptionBody)
  (planId priceId : nat) : Prop :=
  subscriptionService.payment_type body = Some PTWallet
  ∧ subscriptionService.plan_id body = Some planId ∧ planId ≠ 0%nat
  ∧ subscriptionService.price_id body = Some priceId ∧ priceId ≠ 0%nat.

(* ===================================================================== *)
(** ** Statements about the renewal run                                    *)
(* ===================================================================== *)

(** What a renewal run keeps of the subscriptions that have not expired:
    each is still there, with its user, its plan and its expiry. *)
Definition keeps_unexpired (clk : Clock) (w w' : World) : Prop :=
  subscription_plans w' = subscription_plans w
  ∧ ∀ s, s ∈ user_subscriptions w → (now clk < expired_at s)%nat →
         ∃ s', s' ∈ user_subscriptions w'
               ∧ sub_id s' = sub_id s
               ∧ sub_user_id s' = sub_user_id s
               ∧ sub_plan_id s' = sub_plan_id s
               ∧ expired_at s' = expired_at s.

(* ===================================================================== *)
(** ** Scenarios of the hosted checkout                                    *)
(* ===================================================================== *)

Module Checkout.

(** The gateway's answer to a charge that the payer still has to
    confirm on the hosted page. *)
Definition created (orderId : string) : DecodedPaymentData :=
  {| pd_order_id := Some orderId; pd_payment_status := Some "pending";
     pd_operation_status := None |}.

(** The environment of [Scenario.env0] with a gateway that answers every
    charge with the order [orderId], not yet paid, and whose callback
    data "declined" reports that the order was declined. *)
Definition env1 (price : Q) (orderId : string) : Env :=
  let e := Scenario.env0 price (HttpOk (Scenario.signed "created")) in
  {| paymentConfig := paymentConfig e;
     clock := clock e;
     hmac_sha512_hex := hmac_sha512_hex e;
     decodePaymentData := λ data,
       if String.eqb data "created" then Some (created orderId) else None;
     decodeCallbackData := λ data,
       if String.eqb data "declined"
       then Some (Scenario.callbackOf orderId "declined")
       else decodeCallbackData e data;
     getBarById := getBarById e;
     getProfileById := getProfileById e;
     getUserIdByProfileId := getUserIdByProfileId e;
     sendRequest := sendRequest e |}.

Definition cardTopUp : WalletService.TopUpBody :=
  WalletService.mkTopUp (Some 100%Q) (Some "a@b.c") (Some PTCard) None None.

Definition tokenTopUp (tokenId : nat) : WalletService.TopUpBody :=
  WalletService.mkTopUp (Some 100%Q) (Some "a@b.c") (Some PTToken) None (Some tokenId).

Definition walletPlan : subscriptionService.CreateSubscriptionBody :=
  subscriptionService.mkBody (Some "a@b.c") (Some PTWallet) (Some 1) (Some 1) None.

End Checkout.

(* ===================================================================== *)
(** * Theorems                                                             *)
(* ===================================================================== *)

(** ** Running the computations symbolically *)

(** Case analysis on a scrutinee that contains no further [match]. *)
Ltac destruct_scrutinee :=
  match goal with
  | |- context [match ?x with _ => _ end] =>
      lazymatch x with
      | context [match _ with _ => _ end] => fail
      | _ => destruct x eqn:?
      end
  end.

Ltac unfold_m :=
  unfold bind, ret, throw, gets, modify, log, fresh_id, try_catch, transaction in *.

Ltac run_cbn :=
  cbn -[Nat.ltb Nat.leb PaymentService.walletCase PaymentService.tokenCase
        PaymentService.cardCase WalletService.tokenBranch WalletService.cardBranch].

(** Runs a computation down to the calls of the case functions. *)
Ltac run_all := unfold_m; run_cbn; repeat (destruct_scrutinee; run_cbn).

Lemma bind_gets {A B} (f : World → A) (k : A → M B) (w : World) :
  bind (gets f) k w = k (f w) w.
Proof. reflexivity. Qed.

Lemma bind_ret {A B} (a : A) (k : A → M B) (w : World) :
  bind (ret a) k w = k a w.
Proof. reflexivity. Qed.


Lemma bind_step {A B} (c : M A) (k : A → M B) (w : World) (a : A) (w1 : World) :
  c w = (Return a, w1) → bind c k w = k a w1.
Proof. unfold bind. by intros ->. Qed.

Lemma bind_fail {A B} (c : M A) (k : A → M B) (w : World) (e : Exn) (w1 : World) :
  c w = (Throw e, w1) → bind c k w = (Throw e, w1).
Proof. unfold bind. by intros ->. Qed.

(** ** Writes that respect a frame *)

Section FrameRules.
Context (R : World → World → Prop) `{!Frame R}.

Lemma respects_ret {A} (a : A) : respects R (ret a).
Proof. intros w. apply frame_refl. Qed.

Lemma respects_throw {A} (code : option nat) (msg : string) :
  respects R (@throw A code msg).
Proof. intros w. apply frame_refl. Qed.

Lemma respects_gets {A} (f : World → A) : respects R (gets f).
Proof. intros w. apply frame_refl. Qed.

Lemma respects_log (e : Effect) : respects R (log e).
Proof. intros w. apply frame_effect. Qed.

Lemma respects_fresh_id : respects R fresh_id.
Proof. intros w. apply frame_bump_id. Qed.

Lemma respects_bind {A B} (c : M A) (k : A → M B) :
  respects R c → (∀ a, respects R (k a)) → respects R (bind c k).
Proof.
  intros Hc Hk w. unfold bind. specialize (Hc w).
  destruct (c w) as [[a | e] w1]; cbn in *; [| done].
  eapply frame_trans; [exact Hc | apply Hk].
Qed.

Lemma respects_try_catch {A} (c : M A) (h : Exn → M A) :
  respects R c → (∀ e, respects R (h e)) → respects R (try_catch c h).
Proof.
  intros Hc Hh w. unfold try_catch. specialize (Hc w).
  destruct (c w) as [[a | e] w1]; cbn in *; [done |].
  eapply frame_trans; [exact Hc | apply Hh].
Qed.

Lemma respects_transaction {A} (c : M A) :
  respects R c → respects R (transaction c).
Proof.
  intros Hc w. unfold transaction. specialize (Hc w).
  destruct (c w) as [[a | e] w1]; cbn in *; [done | apply frame_refl].
Qed.

Lemma respects_set_balances f : respects R (modify (set_balances f)).
Proof. intros w. apply frame_balances. Qed.

Lemma respects_set_transactions f : respects R (modify (set_transactions f)).
Proof. intros w. apply frame_transactions. Qed.

Lemma respects_set_payment_tokens f : respects R (modify (set_payment_tokens f)).
Proof. intros w. apply frame_payment_tokens. Qed.

(** One step of a proof that a computation respects the frame. *)
Ltac respect_step :=
  first
    [ apply respects_ret | apply respects_throw | apply respects_gets
    | apply respects_log | apply respects_fresh_id
    | apply respects_set_balances | apply respects_set_transactions
    | apply respects_set_payment_tokens
    | apply respects_transaction | apply respects_try_catch
    | apply respects_bind
    | match goal with
      | |- respects _ (match ?x with _ => _ end) => destruct x
      | |- ∀ _, _ => intros ?
      end
    | progress cbv zeta ].

Ltac respect := repeat respect_step.

Lemma respects_depositUserWallet u c a : respects R (depositUserWallet u c a).
Proof. unfold depositUserWallet. respect. Qed.

Lemma respects_deductWith u c a row : respects R (deductWith u c a row).
Proof. unfold deductWith. respect. Qed.

Lemma respects_checkUserBalance u c a : respects R (checkUserBalance u c a).
Proof. unfold checkUserBalance, getUserBalanceByCurrency. respect. Qed.

Lemma respects_createTransaction u c a ty src optional :
  respects R (createTransaction u c a ty src optional).
Proof. unfold createTransaction. respect. Qed.

Lemma respects_updateTransaction id params : respects R (updateTransaction id params).
Proof. unfold updateTransaction. respect. Qed.

Lemma respects_createToken clk u tok ex am pan :
  respects R (createToken clk u tok ex am pan).
Proof. unfold createToken. respect. Qed.

Lemma respects_createSubscription clk u p auto pm pan :
  respects R (createSubscription clk u p auto pm pan).
Proof.
  intros w. unfold createSubscription, transaction, bind, gets, throw.
  destruct (find_plan w p) as [plan |]; cbn; [| apply frame_refl].
  destruct (bool_decide (u ∈ users w)); cbn; [| apply frame_refl].
  destruct (plan_period plan); cbn; [| apply frame_refl].
  by apply (frame_new_subscription
              (mkSubscription (next_id w) u p auto pm pan _)).
Qed.

Lemma respects_send env req : respects R (send env req).
Proof. unfold send. respect. Qed.

Lemma respects_required_fields r : respects R (required_fields r).
Proof. unfold required_fields. respect. Qed.

Lemma respects_verify env data sign key :
  respects R (verifyResponseSignature env data sign key).
Proof. unfold verifyResponseSignature. respect. Qed.

Lemma respects_parse env data : respects R (parsePaymentData env data).
Proof. unfold parsePaymentData. respect. Qed.

(** The same step, knowing the operations of the models. *)
Ltac respect_ops :=
  repeat first
    [ apply respects_depositUserWallet | apply respects_deductWith
    | apply respects_checkUserBalance | apply respects_createTransaction
    | apply respects_updateTransaction | apply respects_createToken
    | apply respects_createSubscription | apply respects_send
    | apply respects_required_fields | apply respects_verify
    | apply respects_parse
    | respect_step ].

Lemma respects_creditOwnerOf env profileId a c src optional :
  respects R (PaymentService.creditOwnerOf env profileId a c src optional).
Proof.
  unfold PaymentService.creditOwnerOf, createPaymentTransaction, calculateFeeM,
    clearUserTransactionsCache.
  respect_ops.
Qed.

Lemma respects_walletCase env u bar barId a c :
  respects R (PaymentService.walletCase env u bar barId a c).
Proof.
  unfold PaymentService.walletCase, PaymentService.swallow, deductUserWallet,
    clearUserTransactionsCache.
  repeat first [apply respects_creditOwnerOf | respect_ops].
Qed.





Lemma respects_renewSubscription env candidate :
  respects R (SubscriptionRenewalService.renewSubscription env candidate).
Proof.
  unfold SubscriptionRenewalService.renewSubscription,
    SubscriptionRenewalService.renewCard, SubscriptionRenewalService.tokenForCard,
    SubscriptionRenewalService.signedWith, createPaymentTransaction,
    updatePaymentTransaction.
  respect_ops.
Qed.

Lemma respects_disableAutoRenewal id :
  respects R (SubscriptionRenewalService.disableAutoRenewal id).
Proof.
  unfold SubscriptionRenewalService.disableAutoRenewal.
  apply respects_bind; [| intros; apply respects_log].
  intros w. apply frame_disable.
Qed.

Lemma respects_renewalLoop env l s f :
  respects R (SubscriptionRenewalService.renewalLoop env l s f).
Proof.
  revert s f. induction l as [| c l IH]; intros s f; cbn.
  - apply respects_ret.
  - apply respects_bind; [apply respects_renewSubscription |].
    intros [|]; [apply IH |].
    apply respects_bind; [apply respects_disableAutoRenewal | intros; apply IH].
Qed.

End FrameRules.

(** ** The status mapper *)

Section StatusMapperFacts.
Import StatusMapper.

Lemma is_case_elem (labels : list string) (s : string) :
  is_case labels s = true ↔ s ∈ labels.
Proof.
  unfold is_case. rewrite existsb_exists. split.
  - intros (x & Hin & Heq). apply String.eqb_eq in Heq. subst x.
    by apply list_elem_of_In.
  - intros Hin. exists s. split; [by apply list_elem_of_In | apply String.eqb_refl].
Qed.

Lemma switch_status_vocabulary (w : string) (r : TxStatus) :
  (w, r) ∈ gateway_vocabulary → switch_status w = r.
Proof.
  intros Hin. cbn in Hin.
  repeat (apply elem_of_cons in Hin as [[= -> ->] | Hin]; [reflexivity |]).
  by apply elem_of_nil in Hin.
Qed.

Lemma switch_status_completed (w : string) :
  switch_status w = completed ↔ w ∈ completed_words.
Proof.
  unfold switch_status. rewrite <- is_case_elem.
  destruct (is_case completed_words w); [done |].
  destruct (is_case failed_words w); [done |].
  destruct (is_case canceled_words w); done.
Qed.

Lemma switch_status_failed (w : string) :
  switch_status w = failed → w ∈ failed_words.
Proof.
  unfold switch_status. rewrite <- is_case_elem.
  destruct (is_case completed_words w); [done |].
  destruct (is_case failed_words w); [done |].
  destruct (is_case canceled_words w); done.
Qed.

Lemma switch_status_canceled (w : string) :
  switch_status w = canceled → w ∈ canceled_words.
Proof.
  unfold switch_status. rewrite <- is_case_elem.
  destruct (is_case completed_words w); [done |].
  destruct (is_case failed_words w); [done |].
  destruct (is_case canceled_words w); done.
Qed.

Lemma switch_status_unrecognized (w : string) :
  w ∉ (fst <$> gateway_vocabulary) → switch_status w = pending.
Proof.
  intros Hout. destruct (switch_status w) eqn:E; [done | | |]; exfalso; apply Hout.
  - apply switch_status_completed in E.
    apply list_elem_of_In. apply list_elem_of_In in E. cbn in *. tauto.
  - apply switch_status_failed in E.
    apply list_elem_of_In. apply list_elem_of_In in E. cbn in *. tauto.
  - apply switch_status_canceled in E.
    apply list_elem_of_In. apply list_elem_of_In in E. cbn in *. tauto.
Qed.

(** C8. [mapPaymentStatus] is a function into the four internal statuses
    that reads its argument through [toLowerCase] only: every word of the
    gateway vocabulary, in any letter case, has the status the table
    gives it; a string that is no word of the vocabulary (and a missing
    status) maps to [pending]; so [completed] and [failed] are produced
    only by the words listed for them. *)
Theorem mapPaymentStatus_total_case_insensitive :
  (∀ w r s, (w, r) ∈ gateway_vocabulary → toLowerCase s = w →
            mapPaymentStatus (Some s) = r)
  ∧ (∀ s, toLowerCase s ∉ (fst <$> gateway_vocabulary) →
          mapPaymentStatus (Some s) = pending)
  ∧ mapPaymentStatus None = pending
  ∧ (∀ s t, toLowerCase s = toLowerCase t →
            mapPaymentStatus (Some s) = mapPaymentStatus (Some t))
  ∧ (∀ o, mapPaymentStatus o = completed →
          ∃ s, o = Some s ∧ toLowerCase s ∈ completed_words)
  ∧ (∀ o, mapPaymentStatus o = failed →
          ∃ s, o = Some s ∧ toLowerCase s ∈ failed_words).
Proof.
  repeat split.
  - intros w r s Hin <-. by apply switch_status_vocabulary.
  - intros s Hout. by apply switch_status_unrecognized.
  - intros s t Heq. unfold mapPaymentStatus. by rewrite Heq.
  - intros [s |] H; [| done]. exists s. split; [done |].
    by apply switch_status_completed.
  - intros [s |] H; [| done]. exists s. split; [done |].
    by apply switch_status_failed.
Qed.

End StatusMapperFacts.

(** The documented words, in mixed case, and two strings outside the
    vocabulary. *)
Example mapPaymentStatus_samples :
  map StatusMapper.mapPaymentStatus
    [Some "success"; Some "APPROVED"; Some "Withdraw"; Some "paid"; Some "Failed";
     Some "declined"; Some "cancelled"; Some "pending"; Some "PROCESSING";
     Some "refunded"; Some ""; None]
  = [completed; completed; completed; completed; failed;
     failed; canceled; pending; pending;
     pending; pending; pending].
Proof. reflexivity. Qed.

(** ** The fee calculator *)

Section FeeFacts.
Local Open Scope Q_scope.

Lemma Qlt_bool_iff (a b : Q) : Qlt_bool a b = true ↔ a < b.
Proof.
  unfold Qlt_bool. rewrite negb_true_iff. split.
  - intros H. apply Qnot_le_lt. intros Hle. apply Qle_bool_iff in Hle. congruence.
  - intros H. destruct (Qle_bool b a) eqn:E; [| done].
    apply Qle_bool_iff in E. exfalso. by apply (Qlt_not_le a b).
Qed.

Lemma Qlt_bool_false (a b : Q) : Qlt_bool a b = false ↔ b <= a.
Proof.
  unfold Qlt_bool. rewrite negb_false_iff. apply Qle_bool_iff.
Qed.





End FeeFacts.


Example calculateFee_bounds :
  (feeAmount (calculateFee Scenario.fees0 50 1) == 10)%Q
  ∧ (feeAmount (calculateFee Scenario.fees0 10000 1) == 200)%Q
  ∧ (feeAmount (calculateFee Scenario.fees0 (1001 # 100) 1) == 10)%Q
  ∧ (feeAmount (calculateFee Scenario.fees0 (2501 # 10) 1) == 1251 # 100)%Q
  ∧ calculateFee Scenario.fees0 500 2 = mkFeeResult 500 0 500 0.
Proof. repeat split; by vm_compute. Qed.

(** ** The wallet ledger *)

Section WalletFacts.
Local Open Scope Q_scope.

Lemma deductWith_contract (userId currencyId : nat) (amount : Q)
  (row : nat → Transaction) :
  (∀ id, ledger_row (row id) id userId currencyId amount) →
  debit_contract (deductWith userId currencyId amount row) userId currencyId amount.
Proof.
  intros Hrow w. unfold deductWith, transaction, bind, gets.
  destruct (balances w !! (userId, currencyId)) as [current |] eqn:Hbal; [| done].
  split.
  - intros Hlt. apply Qlt_bool_iff in Hlt. by rewrite Hlt.
  - intros Hle. apply Qlt_bool_false in Hle. rewrite Hle. cbn.
    eexists _, _. repeat split; try reflexivity; apply Hrow.
Qed.

Lemma deductUserWallet_contract (userId currencyId : nat) (amount : Q)
  (barId : option string) :
  debit_contract (deductUserWallet userId currencyId amount barId)
    userId currencyId amount.
Proof. apply deductWith_contract. intros id. by repeat split. Qed.


Lemma nonnegative_insert (w : World) (k : nat * nat) (v : Q) :
  nonnegative w → 0 <= v → nonnegative (set_balances (insert k v) w).
Proof.
  intros Hw Hv k' v'. cbn. rewrite lookup_insert. case_decide.
  - intros [= <-]. done.
  - apply Hw.
Qed.

Lemma createUserWallet_nonnegative (userId : nat) (w : World) :
  nonnegative w → nonnegative (snd (createUserWallet userId w)).
Proof.
  unfold createUserWallet, bind, gets. cbn.
  generalize (currencies w). intros cs. revert w.
  induction cs as [| c cs IH]; intros w Hw; [done |].
  cbn. unfold bind, gets. cbn.
  destruct (balances w !! (userId, c)) eqn:E; cbn.
  - by apply IH.
  - apply IH. intros k v. cbn. apply (nonnegative_insert w (userId, c) 0 Hw).
    apply Qle_refl.
Qed.

Lemma depositUserWallet_nonnegative (userId currencyId : nat) (amount : Q) (w : World) :
  0 <= amount → nonnegative w →
  nonnegative (snd (depositUserWallet userId currencyId amount w)).
Proof.
  intros Ha Hw. unfold depositUserWallet, transaction, bind, gets. cbn.
  destruct (balances w !! (userId, currencyId)) as [current |] eqn:E; cbn.
  - intros k v. apply (nonnegative_insert w _ (current + amount) Hw).
    pose proof (Hw _ _ E). lra.
  - intros k v. by apply (nonnegative_insert w _ amount Hw).
Qed.

Lemma deductUserWallet_nonnegative (userId currencyId : nat) (amount : Q)
  (barId : option string) (w : World) :
  nonnegative w →
  nonnegative (snd (deductUserWallet userId currencyId amount barId w)).
Proof.
  intros Hw.
  pose proof (deductUserWallet_contract userId currencyId amount barId w) as H.
  destruct (balances w !! (userId, currencyId)) as [current |] eqn:E.
  - destruct H as [Hfail Hok]. destruct (Qlt_le_dec current amount) as [Hlt | Hle].
    + by rewrite (Hfail Hlt).
    + destruct (Hok Hle) as (w' & t & -> & Hb & _). cbn. intros k v. rewrite Hb.
      rewrite lookup_insert. case_decide; [| apply Hw].
      intros [= <-]. lra.
  - by rewrite H.
Qed.

(** The debits of a sequence that succeed are those that fit in what is
    left of the starting balance, and the account ends with the starting
    balance less the amounts withdrawn. *)
Lemma debits_from (userId currencyId : nat) (amounts : list Q) :
  ∀ (w : World) (B spent current : Q),
    balances w !! (userId, currencyId) = Some current →
    current == B - spent →
    ∃ w' v,
      debits userId currencyId amounts w
        = (Return (within_balance B spent amounts), w')
      ∧ balances w' !! (userId, currencyId) = Some v
      ∧ v == current - withdrawn amounts (within_balance B spent amounts)
      ∧ (0 <= current → 0 <= v).
Proof.
  induction amounts as [| a rest IH]; intros w B spent current Hbal Hcur.
  - exists w, current. cbn. repeat split; [done | lra | done].
  - cbn [debits within_balance]. unfold bind at 1.
    pose proof (deductUserWallet_contract userId currencyId a None w) as H.
    rewrite Hbal in H. destruct H as [Hfail Hok].
    destruct (Qle_bool (spent + a) B) eqn:Hfit.
    + apply Qle_bool_iff in Hfit.
      assert (Hle : a <= current) by lra.
      destruct (Hok Hle) as (w1 & t & -> & Hb & _).
      destruct (IH w1 B (spent + a) (current - a)) as (w' & v & Hrun & Hv & Heq & Hpos).
      { rewrite Hb. apply lookup_insert_eq. }
      { lra. }
      exists w', v. unfold bind. rewrite Hrun. cbn.
      repeat split; [done | lra |]. intros Hc. apply Hpos. lra.
    + assert (Hlt : current < a).
      { apply Qnot_le_lt. intros Hle. assert (Hx : spent + a <= B) by lra.
        apply Qle_bool_iff in Hx. congruence. }
      rewrite (Hfail Hlt).
      destruct (IH w B spent current Hbal Hcur) as (w' & v & Hrun & Hv & Heq & Hpos).
      exists w', v. unfold bind. rewrite Hrun. cbn. repeat split; done.
Qed.

Lemma debits_within_starting_balance (userId currencyId : nat) (amounts : list Q)
  (w : World) (B : Q) :
  balances w !! (userId, currencyId) = Some B →
  ∃ w' v,
    debits userId currencyId amounts w = (Return (within_balance B 0 amounts), w')
    ∧ balances w' !! (userId, currencyId) = Some v
    ∧ v == B - withdrawn amounts (within_balance B 0 amounts)
    ∧ (0 <= B → 0 <= v).
Proof.
  intros Hbal. apply (debits_from userId currencyId amounts w B 0 B Hbal). lra.
Qed.

End WalletFacts.


Example debits_scenario :
  let w := Scenario.world0 [] [] [] in
  fst (debits 1 1 [400; 700; 600; 1]%Q w) = Return [true; false; true; false]
  ∧ (Scenario.balanceOf (snd (debits 1 1 [400; 700; 600; 1]%Q w)) 1 == 0)%Q.
Proof. split; by vm_compute. Qed.

(** *** Scenario of section 8: balance 1000, rule 5 % / min 10 / max 200,
    bar priced 500, paid from the wallet. *)
Example wallet_purchase_scenario :
  let env := Scenario.env0 500 HttpFailed in
  let w := Scenario.world0 Scenario.fees0 [] [] in
  let r := PaymentService.createPayment env 1 Scenario.walletPurchase w in
  (Scenario.balanceOf (snd r) 1 == 500)%Q
  ∧ (Scenario.balanceOf (snd r) 2 == 475)%Q
  ∧ map tx_status (transactions (snd r)) = [Some completed; Some completed].
Proof. vm_compute. repeat split. Qed.

(** ** Token-funded attempts with a token that is not the user's *)

Section TokenFacts.

Lemma apply_fields_status (optional : list TxField) (t : Transaction) :
  no_status optional → tx_status (apply_fields optional t) = tx_status t.
Proof.
  unfold apply_fields. revert t.
  induction optional as [| f fs IH]; intros t Hno; [done |].
  inversion Hno as [| ? ? Hf Hfs]; subst. cbn. rewrite IH by done.
  by destruct f.
Qed.

Lemma apply_fields_id (optional : list TxField) (t : Transaction) :
  tx_id (apply_fields optional t) = tx_id t.
Proof.
  unfold apply_fields. revert t.
  induction optional as [| f fs IH]; intros t; [done |].
  cbn. by rewrite IH.
Qed.

Lemma with_pending_record_frame (w : World) (userId currencyId : nat) (amount : Q)
  (type : TxType) (optional : list TxField) :
  no_status optional →
  let w' := with_pending_record w userId currencyId amount type optional in
  balances w' = balances w
  ∧ user_subscriptions w' = user_subscriptions w
  ∧ payment_tokens w' = payment_tokens w
  ∧ platform_fees w' = platform_fees w
  ∧ (∃ t, transactions w' = transactions w ++ [t] ∧ tx_id t = next_id w
          ∧ tx_status t = Some pending)
  ∧ new_effects w w' = [TxCreated (next_id w) (Some pending)].
Proof.
  intros Hno. cbn. repeat split.
  - eexists. repeat split.
    + apply apply_fields_id.
    + change (foldl (λ t f, apply_field f t) ?t0 optional) with (apply_fields optional t0).
      by rewrite apply_fields_status.
  - unfold new_effects. cbn. rewrite drop_app_length.
    change (foldl (λ t f, apply_field f t) ?t0 optional) with (apply_fields optional t0).
    by rewrite apply_fields_status.
Qed.


Lemma new_effects_same (w : World) : new_effects w w = [].
Proof. unfold new_effects. by rewrite drop_all. Qed.

Lemma stopped_unchanged (w : World) : stopped_before_charge w w.
Proof.
  unfold stopped_before_charge. rewrite new_effects_same.
  split; [done |]. split; [constructor | by left].
Qed.

Lemma stopped_with_pending_record (w : World) (userId currencyId : nat) (amount : Q)
  (type : TxType) (optional : list TxField) :
  no_status optional →
  stopped_before_charge w (with_pending_record w userId currencyId amount type optional).
Proof.
  intros Hno.
  destruct (with_pending_record_frame w userId currencyId amount type optional Hno)
    as (Hb & _ & _ & _ & (t & Ht & _ & Hst) & Hj).
  unfold stopped_before_charge. rewrite Hj.
  split; [exact Hb |]. split; [by repeat constructor |].
  right. by exists t.
Qed.

Lemma token_lookup_none (w : World) (userId tokenId : nat) :
  ¬ owns_token w userId tokenId →
  find (λ t, (token_id t =? tokenId)%nat && (token_user_id t =? userId)%nat)
       (payment_tokens w) = None.
Proof.
  intros Hnot.
  destruct (find _ (payment_tokens w)) as [t |] eqn:E; [| done].
  apply find_some in E as [Hin Hb]. apply andb_true_iff in Hb as [H1 H2].
  apply Nat.eqb_eq in H1, H2. exfalso. apply Hnot. exists t.
  split; [by apply list_elem_of_In | done].
Qed.

(** C10. A token-funded purchase or top-up whose token id does not name
    a payment token of the requesting user fails: either on an earlier
    validation, with nothing written, or with the not-found error right
    after the pending record was created. In both cases no charge
    request was sent to the gateway, no balance was written, and the
    only record the attempt may have added is still pending. *)
Theorem unknown_token_fails_before_charge (env : Env) (userId : nat) :
  (∀ body w,
     PaymentService.payment_type body = Some PTToken →
     (∀ tokenId, PaymentService.body_token_id body = Some tokenId →
                 ¬ owns_token w userId tokenId) →
     let r := PaymentService.createPayment env userId body w in
     ∃ e, fst r = Throw e
          ∧ stopped_before_charge w (snd r)
          ∧ (snd r = w
             ∨ (e = token_not_found
                ∧ ∃ currencyId amount barId,
                    snd r = with_pending_record w userId currencyId amount withdraw
                              [BarId (Some barId)])))
  ∧ (∀ body w,
     WalletService.paymentType body = Some PTToken →
     (∀ tokenId, WalletService.tokenId body = Some tokenId →
                 ¬ owns_token w userId tokenId) →
     let r := WalletService.topUp env userId body w in
     ∃ e, fst r = Throw e
          ∧ stopped_before_charge w (snd r)
          ∧ (snd r = w
             ∨ (e = token_not_found
                ∧ ∃ currencyId amount,
                    snd r = with_pending_record w userId currencyId amount deposit []))).
Proof.
  split.
  - intros body w Hty Htok. cbn zeta.
    assert (Hfind : ∀ tokenId, PaymentService.body_token_id body = Some tokenId →
              find (λ t, (token_id t =? tokenId)%nat && (token_user_id t =? userId)%nat)
                   (payment_tokens w) = None).
    { intros tokenId H. apply token_lookup_none. by apply Htok. }
    unfold PaymentService.createPayment. rewrite Hty.
    destruct (PaymentService.body_token_id body) as [tokenId |] eqn:Htid;
      [specialize (Hfind tokenId eq_refl) | clear Hfind].
    + run_all; unfold PaymentService.tokenCase; run_all; try congruence.
      all: try (eexists; split; [reflexivity |];
                split; [apply stopped_unchanged | by left]).
      all: eexists; split; [reflexivity |]; split;
        [ apply (stopped_with_pending_record w userId _ _ withdraw [BarId (Some _)]);
          by repeat constructor
        | right; split; [reflexivity | by eexists _, _, _] ].
    + run_all.
      all: try (eexists; split; [reflexivity |];
                split; [apply stopped_unchanged | by left]).
  - intros body w Hty Htok. cbn zeta.
    assert (Hfind : ∀ tokenId, WalletService.tokenId body = Some tokenId →
              find (λ t, (token_id t =? tokenId)%nat && (token_user_id t =? userId)%nat)
                   (payment_tokens w) = None).
    { intros tokenId H. apply token_lookup_none. by apply Htok. }
    unfold WalletService.topUp. rewrite Hty.
    destruct (WalletService.tokenId body) as [tokenId |] eqn:Htid;
      [specialize (Hfind tokenId eq_refl) | clear Hfind].
    + run_all; unfold WalletService.tokenBranch; run_all; try congruence.
      all: try (eexists; split; [reflexivity |];
                split; [apply stopped_unchanged | by left]).
      all: eexists; split; [reflexivity |]; split;
        [ apply (stopped_with_pending_record w userId _ _ deposit []);
          by repeat constructor
        | right; split; [reflexivity | by eexists _, _] ].
    + run_all.
      all: try (eexists; split; [reflexivity |];
                split; [apply stopped_unchanged | by left]).
Qed.

End TokenFacts.
(** A purchase by token 99, which user 1 does not have: the attempt
    stops at the not-found error. *)
Lemma unknown_token_witness :
  let env := Scenario.env0 500 HttpFailed in
  let w := Scenario.world0 Scenario.fees0 [] [Scenario.token0] in
  let r := PaymentService.createPayment env 1 (Scenario.tokenPurchase 99) w in
  fst r = Throw token_not_found ∧ stopped_before_charge w (snd r).
Proof.
  cbv zeta.
  destruct (proj1 (unknown_token_fails_before_charge (Scenario.env0 500 HttpFailed) 1)
              (Scenario.tokenPurchase 99)
              (Scenario.world0 Scenario.fees0 [] [Scenario.token0]) eq_refl)
    as (e & He & Hstop & _).
  - intros tokenId [= <-] (t & Hin & Hid & _).
    apply list_elem_of_singleton in Hin. subst t. discriminate Hid.
  - split; [vm_compute; reflexivity | exact Hstop].
Defined.

(** ** The fee rules *)

Section FeeRuleFacts.

Lemma active_rules_app (l1 l2 : list PlatformFee) (c : nat) :
  active_rules (l1 ++ l2) c = active_rules l1 c ++ active_rules l2 c.
Proof. unfold active_rules. apply filter_app. Qed.

Lemma active_rules_deactivated (fees : list PlatformFee) (currency c : nat) :
  active_rules
    (map (λ f, if (fee_currency_id f =? currency)%nat && is_active f
               then deactivate f else f) fees) c
  = if decide (c = currency) then [] else active_rules fees c.
Proof.
  unfold active_rules. induction fees as [| f fees IH]; [by case_decide |].
  cbn [map]. rewrite !filter_cons, IH. clear IH.
  destruct (fee_currency_id f =? currency)%nat eqn:Ec; cbn [andb].
  - apply Nat.eqb_eq in Ec. destruct (is_active f) eqn:Ea; cbn.
    + repeat case_decide; try done; exfalso; intuition (subst; auto; congruence).
    + rewrite Ea. repeat case_decide; try done; exfalso; intuition (subst; auto; congruence).
  - apply Nat.eqb_neq in Ec.
    repeat case_decide; try done; exfalso; intuition (subst; auto; congruence).
Qed.

(** Creating a rule leaves exactly one active rule for its currency and
    touches no other currency. *)
Lemma createPlatformFee_active (currency : nat) (pct : Q) (lo hi : option Q)
  (w : World) (c : nat) :
  let r := createPlatformFee currency pct lo hi w in
  active_rules (platform_fees (snd r)) c
  = if decide (c = currency)
    then [mkPlatformFee (next_id w) currency pct lo hi true]
    else active_rules (platform_fees w) c.
Proof.
  cbn -[active_rules]. rewrite active_rules_app, active_rules_deactivated.
  unfold active_rules. rewrite filter_cons, filter_nil. cbn.
  repeat case_decide; rewrite ?app_nil_r; try done;
    exfalso; intuition (subst; auto; congruence).
Qed.

Lemma createPlatformFee_one_active (currency : nat) (pct : Q) (lo hi : option Q)
  (w : World) :
  one_active_rule (platform_fees w) →
  one_active_rule (platform_fees (snd (createPlatformFee currency pct lo hi w))).
Proof.
  intros Hone c. rewrite createPlatformFee_active.
  case_decide; [cbn; lia | apply Hone].
Qed.

(** An update that does not set [is_active] to [true] activates no rule. *)
Lemma updatePlatformFee_one_active (feeId : nat) (u : FeeUpdate) (w : World) :
  upd_is_active u ≠ Some true →
  one_active_rule (platform_fees w) →
  one_active_rule (platform_fees (snd (updatePlatformFee feeId u w))).
Proof.
  intros Hu Hone c. specialize (Hone c). cbn -[active_rules].
  etrans; [| exact Hone]. clear Hone. unfold active_rules.
  induction (platform_fees w) as [| f fees IH]; [done |].
  cbn [map]. rewrite !filter_cons.
  destruct (fee_id f =? feeId)%nat.
  - repeat case_decide; cbn; try lia.
    exfalso. destruct u as [p lo hi [[] |]]; cbn in *; intuition (subst; auto; congruence).
  - repeat case_decide; cbn; lia.
Qed.

(** C6. [updatePlatformFee] writes [is_active] as it is given: with rule
    1 inactive and rule 2 active for currency 1, the update
    [{ is_active: true }] of rule 1 leaves two active rules for the
    currency, although the table had at most one active rule per
    currency before. *)
Theorem updatePlatformFee_second_active_rule :
  let fees := [mkPlatformFee 1 1 5%Q None None false;
               mkPlatformFee 2 1 7%Q None None true] in
  let w := Scenario.world0 fees [] [] in
  let r := updatePlatformFee 1 (mkFeeUpdate None None None (Some true)) w in
  one_active_rule (platform_fees w)
  ∧ map fee_id (active_rules (platform_fees (snd r)) 1) = [1; 2]
  ∧ ¬ one_active_rule (platform_fees (snd r)).
Proof.
  cbv zeta. split; [| split].
  - intros c. cbn. repeat case_decide; cbn; lia.
  - reflexivity.
  - intros H. specialize (H 1). vm_compute in H. lia.
Qed.

End FeeRuleFacts.

(** ** Balances below zero *)

Lemma world0_nonnegative (fees : list PlatformFee) (txs : list Transaction)
  (tokens : list PaymentToken) :
  nonnegative (Scenario.world0 fees txs tokens).
Proof.
  intros k v. unfold Scenario.world0. cbn [balances]. intros Hkv.
  apply lookup_insert_Some in Hkv as [[_ <-] | [_ Hkv]]; [done |].
  by apply lookup_singleton_Some in Hkv as [_ <-].
Qed.

(** C3. The seller credit of a wallet purchase deposits
    [finalAmount = round2 (price - fee)] whatever its sign. With the
    rule 5 % / min 10 / max 200 and a bar priced 5, the fee is the
    minimum 10, the final amount is -5, and the owner's balance goes
    from 0 to -5, although every balance was nonnegative before. *)
Theorem seller_credit_below_zero :
  let env := Scenario.env0 5 HttpFailed in
  let w := Scenario.world0 Scenario.fees0 [] [] in
  let r := PaymentService.createPayment env 1 Scenario.walletPurchase w in
  nonnegative w
  ∧ (feeAmount (calculateFee Scenario.fees0 5 1) == 10)%Q
  ∧ (finalAmount (calculateFee Scenario.fees0 5 1) == -5)%Q
  ∧ (∃ id, fst r = Return (PaymentService.PaidByWallet (Some id) 5 (1000 - 5)))
  ∧ (Scenario.balanceOf (snd r) 1 == 995)%Q
  ∧ (Scenario.balanceOf (snd r) 2 == -5)%Q
  ∧ ¬ nonnegative (snd r).
Proof.
  cbv zeta. split; [apply world0_nonnegative |].
  split; [by vm_compute |]. split; [by vm_compute |].
  split; [by eexists; vm_compute |].
  split; [by vm_compute |]. split; [by vm_compute |].
  intros H.
  assert (Hv : ∃ v, balances (snd (PaymentService.createPayment
                        (Scenario.env0 5 HttpFailed) 1 Scenario.walletPurchase
                        (Scenario.world0 Scenario.fees0 [] []))) !! (2%nat, 1%nat) = Some v
                    ∧ (v < 0)%Q).
  { eexists. split; [vm_compute; reflexivity | by vm_compute]. }
  destruct Hv as (v & Hv & Hneg). specialize (H _ _ Hv).
  by apply (Qlt_not_le _ _ Hneg).
Qed.

(** ** Replayed callbacks *)

(** The guard of the payment callback: when the matched record is
    already completed, the callback writes no balance. *)
Lemma payment_callback_on_completed (env : Env) (data sign : string) (w : World)
  (d : DecodedCallbackData) (orderId : string) (t : Transaction) :
  decodeCallbackData env data = Some d →
  cb_order_id d = Some orderId →
  find (λ t, bool_decide (tx_order_id t = Some orderId)) (transactions w) = Some t →
  tx_status t = Some completed →
  balances (snd (PaymentService.callback env data sign w)) = balances w.
Proof.
  intros Hd Ho Ht Hst.
  unfold PaymentService.callback, PaymentService.transactionOfCallback,
    getTransactionByOrderId, verifyResponseSignature, createToken,
    updatePaymentTransaction, updateTransaction, clearUserTransactionsCache.
  rewrite Hd, Ho. unfold_m. cbn.
  assert (Hguard : bool_decide (tx_status t = Some completed) = true)
    by (by apply bool_decide_eq_true_2).
  repeat (destruct_scrutinee; cbn; rewrite ?Ht; cbn; rewrite ?Hguard; cbn); try done.
  all: exfalso;
    match goal with H : _ && false = true |- _ => by rewrite andb_false_r in H end.
Qed.

(** C1. The wallet callback does not look at the status of the matched
    record. A pending top-up of 100 for user 1 (balance 1000) whose
    success callback is applied twice is credited twice: the first
    application completes the record and leaves 1100, the second, on the
    record that is already completed, leaves 1200. The subscription
    callback likewise creates a subscription on each application. The
    payment callback, which tests [transaction.status !== "completed"],
    credits the bar owner once. *)
Theorem replayed_callback_credits_twice :
  let env := Scenario.env0 500 HttpFailed in
  let sign data := Scenario.digest "secret" data in
  (* a top-up through walletService.callback *)
  let w := Scenario.world0 [] [Scenario.tx0 1 1 100 deposit None (Some "pay_1") None] [] in
  let r1 := WalletService.callback env "topup-ok" (sign "topup-ok") w in
  let r2 := WalletService.callback env "topup-ok" (sign "topup-ok") (snd r1) in
  (* a plan purchase through subscriptionService.callback *)
  let ws := Scenario.world0 []
              [Scenario.tx0 2 1 300 subscription None (Some "pay_2") (Some 1)] [] in
  let s1 := SubscriptionService.callback env "plan-ok" (sign "plan-ok") ws in
  let s2 := SubscriptionService.callback env "plan-ok" (sign "plan-ok") (snd s1) in
  (* a bar purchase through paymentService.callback *)
  let wp := Scenario.world0 Scenario.fees0
              [Scenario.tx0 3 1 500 withdraw (Some "7") (Some "pay_3") None] [] in
  let p1 := PaymentService.callback env "bar-ok" (sign "bar-ok") wp in
  let p2 := PaymentService.callback env "bar-ok" (sign "bar-ok") (snd p1) in
  (map tx_status (transactions (snd r1)) = [Some completed]
   ∧ (Scenario.balanceOf (snd r1) 1 == 1100)%Q
   ∧ (∃ t st, fst r2 = Return t ∧ tx_status t = Some st ∧ terminal st = true)
   ∧ (Scenario.balanceOf (snd r2) 1 == 1200)%Q
   ∧ length (filter is_balance_write (new_effects w (snd r2))) = 2)
  ∧ (map tx_status (transactions (snd s1)) = [Some completed]
     ∧ length (filter (λ s, sub_user_id s = 1) (user_subscriptions (snd s1))) = 1
     ∧ length (filter (λ s, sub_user_id s = 1) (user_subscriptions (snd s2))) = 2)
  ∧ ((Scenario.balanceOf (snd p1) 2 == 475)%Q
     ∧ (Scenario.balanceOf (snd p2) 2 == 475)%Q).
Proof.
  cbv zeta. repeat split; try (by vm_compute).
  eexists _, completed. repeat split; by vm_compute.
Qed.

(** ** The pending record of an attempt *)

Section PendingFacts.

#[local] Instance journal_extends_frame : Frame journal_extends.
Proof.
  split; unfold journal_extends.
  - intros w. exists []. by rewrite app_nil_r.
  - intros a b c [r1 H1] [r2 H2]. exists (r1 ++ r2). by rewrite H2, H1, app_assoc.
  - intros f w. exists []. by rewrite app_nil_r.
  - intros f w. exists []. by rewrite app_nil_r.
  - intros f w. exists []. by rewrite app_nil_r.
  - intros w. exists []. by rewrite app_nil_r.
  - intros e w. by exists [e].
  - intros s w _. by eexists.
  - intros id w. exists []. by rewrite app_nil_r.
  - intros P HP w. exists []. by rewrite app_nil_r.
Qed.


Lemma new_effects_1 (w w' : World) (a : Effect) :
  journal w' = journal w ++ [a] → new_effects w w' = [a].
Proof. intros H. unfold new_effects. by rewrite H, drop_app_length. Qed.




End PendingFacts.

(** ** The renewal run *)

Section RenewalFacts.
Import SubscriptionRenewalService.

#[local] Instance keeps_renewal_off_frame (id : nat) : Frame (keeps_renewal_off id).
Proof.
  split; unfold keeps_renewal_off.
  - intros w Hn Hid. done.
  - intros a b c Hab Hbc Hn Hid. destruct (Hab Hn Hid) as (Hn' & Hid' & Hoff).
    destruct (Hbc Hn' Hid') as (Hn'' & Hid'' & Hoff'). repeat split; auto.
  - intros f w Hn Hid. done.
  - intros f w Hn Hid. done.
  - intros f w Hn Hid. done.
  - intros w Hn Hid. repeat split; [| cbn; lia | done].
    intros s Hs. specialize (Hn s Hs). cbn. lia.
  - intros e w Hn Hid. done.
  - intros s w Hs Hn Hid. repeat split.
    + intros s' Hs'. cbn in Hs'. apply elem_of_app in Hs' as [Hs' | Hs'].
      * specialize (Hn s' Hs'). cbn. lia.
      * apply list_elem_of_singleton in Hs'. subst s'. cbn. lia.
    + cbn. lia.
    + intros Hoff s' Hs' Heq. cbn in Hs'. apply elem_of_app in Hs' as [Hs' | Hs'].
      * by apply Hoff.
      * apply list_elem_of_singleton in Hs'. subst s'. lia.
  - intros i w Hn Hid. repeat split; [| done |].
    + intros s Hs. cbn in Hs. apply list_elem_of_fmap in Hs as (s0 & -> & Hs0).
      specialize (Hn s0 Hs0). by destruct (sub_id s0 =? i)%nat.
    + intros Hoff s Hs Heq. cbn in Hs. apply list_elem_of_fmap in Hs as (s0 & -> & Hs0).
      destruct (sub_id s0 =? i)%nat; [done | by apply Hoff].
  - intros P HP w Hn Hid. repeat split; [| done |].
    + intros s Hs. cbn in Hs. apply list_elem_of_filter in Hs as [_ Hs]. by apply Hn.
    + intros Hoff s Hs Heq. cbn in Hs. apply list_elem_of_filter in Hs as [_ Hs].
      by apply Hoff.
Qed.

Lemma renewSubscription_returns (env : Env) (candidate : ExpiringSubscription)
  (w : World) :
  ∃ b, fst (renewSubscription env candidate w) = Return b.
Proof.
  unfold renewSubscription, try_catch.
  destruct (match es_payment_method candidate with
            | wallet => ret false
            | card => renewCard env candidate
            end w) as [[b | e] w1]; cbn; eauto.
Qed.

Lemma disableAutoRenewal_off (id : nat) (w : World) :
  renewal_off id (snd (disableAutoRenewal id w)).
Proof.
  intros s Hs Heq. cbn in Hs. apply list_elem_of_fmap in Hs as (s0 & -> & Hs0).
  destruct (sub_id s0 =? id)%nat eqn:E; [done |].
  apply Nat.eqb_neq in E. done.
Qed.

(** The counters do not steer the loop. *)
Lemma renewalLoop_counters (env : Env) (l : list ExpiringSubscription) :
  ∀ s f w,
    renewalLoop env l s f w
    = (add_counts s f (fst (renewalLoop env l 0 0 w)), snd (renewalLoop env l 0 0 w)).
Proof.
  induction l as [| c l IH]; intros s f w.
  - cbn. by rewrite !Nat.add_0_r.
  - cbn [renewalLoop]. unfold bind.
    destruct (renewSubscription env c w) as [[[|] | e] w1]; [| | done].
    + rewrite (IH (S s) f w1), (IH 1 0 w1).
      destruct (renewalLoop env l 0 0 w1) as [[[a b] | e] w2]; cbn; [| done].
      do 2 f_equal. f_equal; lia.
    + destruct (disableAutoRenewal (subscription_id c) w1) as [[[] | e] w2] eqn:E;
        [| done].
      rewrite (IH s (S f) w2), (IH 0 1 w2).
      destruct (renewalLoop env l 0 0 w2) as [[[a b] | e] w3]; cbn; [| done].
      do 2 f_equal. f_equal; lia.
Qed.

Lemma renewalLoop_cons (env : Env) (c : ExpiringSubscription)
  (l : list ExpiringSubscription) (s f : nat) (w : World) :
  ∃ b, fst (renewSubscription env c w) = Return b
       ∧ renewalLoop env (c :: l) s f w
         = renewalLoop env l (if b then S s else s) (if b then f else S f)
             (after_attempt env c w).
Proof.
  destruct (renewSubscription_returns env c w) as [b Hb]. exists b. split; [done |].
  cbn [renewalLoop]. unfold bind, after_attempt.
  destruct (renewSubscription env c w) as [[b' | e] w1]; cbn in Hb; [| done].
  injection Hb as ->. by destruct b.
Qed.

Lemma world_before_cons (env : Env) (c : ExpiringSubscription)
  (l : list ExpiringSubscription) (w : World) (i : nat) :
  world_before env (c :: l) w (S i) = world_before env l (after_attempt env c w) i.
Proof.
  unfold world_before. cbn [take].
  destruct (renewalLoop_cons env c (take i l) 0 0 w) as (b & _ & ->).
  by rewrite renewalLoop_counters.
Qed.

Lemma renewed_cons (env : Env) (c : ExpiringSubscription)
  (l : list ExpiringSubscription) (w : World) (i : nat) :
  renewed env (c :: l) w (S i) = renewed env l (after_attempt env c w) i.
Proof. unfold renewed. cbn [lookup list_lookup]. by rewrite world_before_cons. Qed.

Lemma filter_seq_shift (P : nat → Prop) `{!∀ i, Decision (P i)} (n : nat) :
  ∀ k, length (filter P (seq (S k) n)) = length (filter (λ i, P (S i)) (seq k n)).
Proof.
  induction n as [| n IH]; intros k; [done |].
  cbn [seq]. rewrite !filter_cons. repeat case_decide; cbn; rewrite IH; done.
Qed.

Lemma count_cons (env : Env) (c : ExpiringSubscription)
  (l : list ExpiringSubscription) (w : World) (v : bool) :
  length (filter (λ i, renewed env (c :: l) w i = v) (seq 0 (length (c :: l))))
  = (if decide (renewed env (c :: l) w 0 = v) then 1 else 0)
    + length (filter (λ i, renewed env l (after_attempt env c w) i = v)
                (seq 0 (length l))).
Proof.
  assert (Hshift :
    length (filter (λ i, renewed env (c :: l) w i = v) (seq 1 (length l)))
    = length (filter (λ i, renewed env l (after_attempt env c w) i = v)
                (seq 0 (length l)))).
  { rewrite filter_seq_shift. f_equal. apply list_filter_iff.
    intros i. by rewrite renewed_cons. }
  cbn [length seq]. rewrite filter_cons.
  case_decide; cbn [length]; rewrite Hshift; done.
Qed.

Lemma after_attempt_keeps (env : Env) (c : ExpiringSubscription) (w : World) (id : nat) :
  keeps_renewal_off id w (after_attempt env c w).
Proof.
  unfold after_attempt.
  pose proof (respects_renewSubscription (keeps_renewal_off id) env c w) as H1.
  destruct (renewSubscription env c w) as [[[|] | e] w1]; cbn in H1; [done | | done].
  eapply frame_trans; [exact H1 |].
  apply (respects_disableAutoRenewal (keeps_renewal_off id)).
Qed.

Lemma after_attempt_off (env : Env) (c : ExpiringSubscription) (w : World) :
  fst (renewSubscription env c w) = Return false →
  renewal_off (subscription_id c) (after_attempt env c w).
Proof.
  unfold after_attempt.
  destruct (renewSubscription env c w) as [[[|] | e] w1]; cbn; [done | | done].
  intros _. apply disableAutoRenewal_off.
Qed.

Lemma renewed_head (env : Env) (c : ExpiringSubscription)
  (l : list ExpiringSubscription) (w : World) (b : bool) :
  fst (renewSubscription env c w) = Return b → renewed env (c :: l) w 0 = b.
Proof. unfold renewed, world_before. cbn. by intros ->. Qed.

(** The loop visits every candidate, counts each attempt once, and
    leaves auto-renewal off on the subscription of each failed attempt. *)
Lemma renewalLoop_spec (env : Env) (l : list ExpiringSubscription) :
  ∀ w,
    subscriptions_numbered w →
    (∀ c, c ∈ l → subscription_id c < next_id w) →
    ∃ w',
      renewalLoop env l 0 0 w
        = (Return (count_renewed env l w, count_failed env l w), w')
      ∧ (∀ i c, l !! i = Some c → renewed env l w i = false →
                renewal_off (subscription_id c) w').
Proof.
  induction l as [| c l IH]; intros w Hn Hids.
  - exists w. split; [done |]. intros i c Hi. done.
  - destruct (renewalLoop_cons env c l 0 0 w) as (b & Hb & Hloop).
    set (wh := after_attempt env c w) in *.
    assert (Hc : subscription_id c < next_id w) by (apply Hids; left).
    destruct (after_attempt_keeps env c w (subscription_id c) Hn Hc) as (Hnh & Hch & _).
    destruct (IH wh Hnh) as (w' & Hrun & Hoff).
    { intros c' Hc'.
      assert (Hlt : subscription_id c' < next_id w) by (apply Hids; by right).
      by destruct (after_attempt_keeps env c w (subscription_id c') Hn Hlt)
        as (_ & ? & _). }
    exists w'. split.
    + rewrite Hloop, renewalLoop_counters, Hrun. cbn [fst snd add_counts].
      unfold count_renewed, count_failed. rewrite !count_cons.
      rewrite (renewed_head env c l w b Hb). fold wh.
      destruct b; repeat case_decide; try done.
    + intros [| i] c' Hi Hfail.
      * injection Hi as <-. rewrite (renewed_head env c l w b Hb) in Hfail. subst b.
        pose proof (after_attempt_off env c w Hb) as Hoff0. fold wh in Hoff0.
        pose proof (respects_renewalLoop (keeps_renewal_off (subscription_id c))
                      env l 0 0 wh) as Hk.
        rewrite Hrun in Hk. cbn in Hk.
        destruct (Hk Hnh Hch) as (_ & _ & Hkeep). by apply Hkeep.
      * rewrite renewed_cons in Hfail. by apply (Hoff i).
Qed.

Lemma counts_total (env : Env) (l : list ExpiringSubscription) (w : World) :
  count_renewed env l w + count_failed env l w = length l.
Proof.
  unfold count_renewed, count_failed.
  transitivity (length (seq 0 (length l))); [| apply length_seq].
  generalize (seq 0 (length l)). intros idx.
  induction idx as [| i idx IH]; [done |].
  rewrite !filter_cons. destruct (renewed env l w i);
    repeat case_decide; try done; cbn; lia.
Qed.

Lemma renewed_only_if_accepted (env : Env) (c : ExpiringSubscription) (w : World) :
  fst (renewSubscription env c w) = Return true → charge_accepted env c w.
Proof.
  unfold renewSubscription, renewCard, signedWith, send, required_fields,
    verifyResponseSignature, parsePaymentData, createPaymentTransaction,
    createTransaction, updatePaymentTransaction, updateTransaction, tokenForCard,
    createSubscription.
  run_all; try discriminate.
  intros _.
  match goal with
  | H : negb (truthy_id _) || negb (truthy_id _) = false |- _ =>
      apply orb_false_iff in H as [Hp Hc];
      apply negb_false_iff in Hp; apply negb_false_iff in Hc
  end.
  match goal with
  | H : negb (hmac_sha512_hex _ _ _ =? _) = false |- _ =>
      apply negb_false_iff, String.eqb_eq in H; rename H into Hsig
  end.
  match goal with
  | H : _ && (is_str _ _ || is_str _ _) = true |- _ =>
      apply andb_true_iff in H as [-> Hst]; apply orb_true_iff in Hst
  end.
  split; [done |]. unfold tokenForCard, gets. cbn.
  match goal with
  | Ht : newest _ = Some ?tok, Hq : es_price c = Some ?q,
    Hr : sendRequest env _ = HttpOk ?r, Hd : resp_data ?r = Some ?data,
    Hs : resp_sign ?r = Some ?sign, Hk : secretKey _ = Some ?key,
    Hdec : decodePaymentData env _ = Some ?d |- _ =>
      exists tok, q, r, data, sign, key, d; rewrite Ht
  end.
  repeat split; try done.
  destruct Hst as [Hst | Hst]; apply bool_decide_eq_true in Hst; auto.
Qed.

(** C9. A renewal run over a numbered subscription table never throws;
    it attempts every candidate of [getExpiringSubscriptions] in order
    and reports how many attempts renewed and how many failed, the two
    counts adding up to the number of candidates; after the run,
    auto-renewal is off on the subscription of every failed attempt. An
    attempt never throws either, and it counts as renewed only when the
    gateway accepted the charge: a wallet payment method, a card without
    a token, missing price information, a declined or unverifiable
    response and any thrown error are failed attempts. *)
Theorem renewal_run_completes_batch (env : Env) (w : World) :
  subscriptions_numbered w →
  let candidates := expiring_rows (clock env) w in
  ∃ w',
    processRenewals env w
      = (Return (match candidates with
                 | [] => None
                 | _ => Some (count_renewed env candidates w,
                              count_failed env candidates w)
                 end), w')
    ∧ count_renewed env candidates w + count_failed env candidates w
      = length candidates
    ∧ (∀ i c, candidates !! i = Some c → renewed env candidates w i = false →
              renewal_off (subscription_id c) w')
    ∧ (∀ c w0, ∃ b, fst (renewSubscription env c w0) = Return b
                    ∧ (b = true → charge_accepted env c w0)).
Proof.
  intros Hn candidates.
  assert (Hids : ∀ c, c ∈ candidates → subscription_id c < next_id w).
  { intros c Hc. unfold candidates, expiring_rows in Hc.
    apply list_elem_of_bind in Hc as (us & Hc & Hus).
    specialize (Hn us Hus).
    destruct (is_auto_renewal us && (now (clock env) <? expired_at us)%nat
              && (expired_at us <=? plus_24_hours (clock env) (now (clock env)))%nat);
      [| by apply elem_of_nil in Hc].
    apply list_elem_of_bind in Hc as (sp & Hc & _).
    destruct (filter (λ p, price_plan_id p = plan_id sp) (subscription_plans_prices w)).
    - apply list_elem_of_singleton in Hc. by subst c.
    - apply list_elem_of_fmap in Hc as (spp & -> & _). done. }
  destruct (renewalLoop_spec env candidates w Hn Hids) as (w1 & Hrun & Hoff).
  assert (Hlast : ∀ c w0, ∃ b, fst (renewSubscription env c w0) = Return b
                               ∧ (b = true → charge_accepted env c w0)).
  { intros c w0. destruct (renewSubscription_returns env c w0) as [b Hb].
    exists b. split; [done |]. intros ->. by apply renewed_only_if_accepted. }
  unfold processRenewals, try_catch, bind, getExpiringSubscriptions, gets.
  cbn -[renewalLoop count_renewed count_failed expiring_rows].
  fold candidates. destruct candidates as [| c0 rest] eqn:Ec.
  - eexists. split; [reflexivity |]. split; [done |]. split; [| done].
    intros i c Hi. done.
  - rewrite Hrun. cbn -[count_renewed count_failed].
    eexists. split; [reflexivity |].
    split; [apply counts_total |]. split; [| done].
    intros i c Hi Hfail. specialize (Hoff i c Hi Hfail).
    intros s Hs. cbn in Hs. apply list_elem_of_filter in Hs as [_ Hs]. by apply Hoff.
Qed.

End RenewalFacts.

(** ** Responses and callbacks that fail verification *)

Section SignatureFacts.

















End SignatureFacts.

(** ** Scenarios of the gateway paths *)






(** A run over three candidates: the card without a token and the
    wallet subscription fail and lose auto-renewal, the card with a
    token is renewed. *)
Lemma renewal_run_witness :
  let env := Scenario.env0 500 (HttpOk (Scenario.signed "paid")) in
  let w := Scenario.renewalWorld in
  let r := SubscriptionRenewalService.processRenewals env w in
  subscriptions_numbered w
  ∧ fst r = Return (Some (1, 2))
  ∧ renewal_off 1 (snd r) ∧ renewal_off 3 (snd r)
  ∧ map is_auto_renewal (user_subscriptions (snd r)) = [false; true; false; true].
Proof.
  cbv zeta.
  assert (Hn : subscriptions_numbered Scenario.renewalWorld).
  { intros s Hs. cbn in Hs.
    repeat (apply elem_of_cons in Hs as [-> | Hs]; [cbn; lia |]).
    by apply elem_of_nil in Hs. }
  destruct (renewal_run_completes_batch
              (Scenario.env0 500 (HttpOk (Scenario.signed "paid")))
              Scenario.renewalWorld Hn) as (w' & Hrun & Htotal & Hoff & _).
  rewrite Hrun. cbn [fst snd].
  split; [exact Hn |]. split; [by vm_compute |].
  split; [| split].
  - apply (Hoff 0 (SubscriptionRenewalService.mkExpiring 1 2 1 card
                     (Some "4400-xx-1234") (Some 1) (Some 1) (Some 300%Q)));
      by vm_compute.
  - apply (Hoff 2 (SubscriptionRenewalService.mkExpiring 3 1 1 wallet
                     None (Some 1) (Some 1) (Some 300%Q)));
      by vm_compute.
  - apply (f_equal snd) in Hrun. cbn [snd] in Hrun. rewrite <- Hrun. by vm_compute.
Defined.
Section FeeArithmetic.
Local Open Scope Q_scope.





Lemma round2_mono (x y : Q) : x <= y → round2 x <= round2 y.
Proof.
  intros Hxy. unfold round2. apply Qmult_le_compat_r; [| done].
  rewrite <- Zle_Qle. apply Qfloor_resp_le. lra.
Qed.

End FeeArithmetic.

Section FeeProperties.
Local Open Scope Q_scope.




End FeeProperties.



Section FeeTableProperties.

Lemma bound_stored_or_null (o : option Q) : bound_stored (FeeService.or_null o).
Proof.
  unfold FeeService.or_null. destruct o as [x |]; cbn; [| done].
  destruct (Qeq_bool x 0) eqn:E; cbn; [done |].
  intros H. apply Qeq_bool_iff in H. congruence.
Qed.

(** X3. feeService.create and feeService.update never store a fee bound of
    0: on a fee table whose stored bounds are null or non-zero, after either
    call, with any body (a bound of 0 included), every stored min_fee_amount
    and max_fee_amount is still null or non-zero. *)
Theorem fee_service_stores_no_zero_bound (w : World) :
  bounds_stored w →
  (∀ currency_id percentage min_fee max_fee,
     bounds_stored (snd (FeeService.create currency_id percentage min_fee max_fee w)))
  ∧ (∀ feeId body, bounds_stored (snd (FeeService.update feeId body w))).
Proof.
  intros Hw. split.
  - intros c p mn mx f. cbn. rewrite elem_of_app, list_elem_of_fmap.
    intros [(g & -> & Hg) | Hnew].
    + destruct (Hw g Hg). by destruct (_ && _).
    + apply list_elem_of_singleton in Hnew as ->. cbn.
      split; apply bound_stored_or_null.
  - intros feeId body f. cbn. rewrite list_elem_of_fmap.
    intros (g & -> & Hg). destruct (Hw g Hg) as [Hmin Hmax].
    destruct (fee_id g =? feeId)%nat; [| done]. cbn.
    destruct body as [bp [mn |] [mx |] ba]; cbn;
      repeat split; try done; apply bound_stored_or_null.
Qed.

Lemma find_map_same {A} (P : A → bool) (g : A → A) (l : list A) :
  (∀ x, P (g x) = P x) → (∀ x, P x = true → g x = x) →
  find P (map g l) = find P l.
Proof.
  intros HP Hg. induction l as [| x l IH]; [done |]. cbn.
  rewrite HP. destruct (P x) eqn:E; [by rewrite Hg | done].
Qed.

Lemma find_map_none {A} (P : A → bool) (g : A → A) (l : list A) :
  (∀ x, P (g x) = false) → find P (map g l) = None.
Proof.
  intros HP. induction l as [| x l IH]; [done |]. cbn. by rewrite HP.
Qed.

Lemma find_snoc {A} (P : A → bool) (l : list A) (x : A) :
  find P (l ++ [x]) = match find P l with
                      | Some y => Some y
                      | None => if P x then Some x else None
                      end.
Proof.
  induction l as [| y l IH]; cbn; [done |]. by destruct (P y).
Qed.

(** X4. createPlatformFee returns the new rule, active, and from then on
    that rule is the one getActiveFeeForCurrency answers and calculateFee
    applies for its currency; the active rule of every other currency is
    unchanged. *)
Theorem createPlatformFee_becomes_the_active_rule (currency_id : nat) (percentage : Q)
  (min_fee max_fee : option Q) (w : World) :
  let r := createPlatformFee currency_id percentage min_fee max_fee w in
  let newFee := mkPlatformFee (next_id w) currency_id percentage min_fee max_fee true in
  fst r = Return newFee
  ∧ getActiveFeeForCurrency (platform_fees (snd r)) currency_id = Some newFee
  ∧ (∀ amount, calculateFee (platform_fees (snd r)) amount currency_id
               = calculateFeeWith (Some newFee) amount)
  ∧ (∀ other, other ≠ currency_id →
       getActiveFeeForCurrency (platform_fees (snd r)) other
       = getActiveFeeForCurrency (platform_fees w) other).
Proof.
  cbn zeta. split; [reflexivity |].
  assert (Hfind : getActiveFeeForCurrency
                    (platform_fees (snd (createPlatformFee currency_id percentage
                                           min_fee max_fee w))) currency_id
                  = Some (mkPlatformFee (next_id w) currency_id percentage
                            min_fee max_fee true)).
  { cbn. unfold getActiveFeeForCurrency. rewrite find_snoc, find_map_none.
    - cbn. by rewrite Nat.eqb_refl.
    - intros f. destruct ((fee_currency_id f =? currency_id)%nat && is_active f) eqn:E;
        cbn; [by rewrite andb_false_r | exact E]. }
  split; [exact Hfind |]. split.
  - intros amount. unfold calculateFee. by rewrite Hfind.
  - intros other Hother. cbn. unfold getActiveFeeForCurrency.
    assert (Hne : (currency_id =? other)%nat = false) by (apply Nat.eqb_neq; congruence).
    rewrite find_snoc, find_map_same.
    + cbn. rewrite Hne. cbn. by destruct (find _ _).
    + intros f.
      destruct ((fee_currency_id f =? currency_id)%nat && is_active f) eqn:E; [| done].
      apply andb_true_iff in E as [Hc _]. apply Nat.eqb_eq in Hc. cbn.
      by rewrite Hc, Hne.
    + intros f Hf. apply andb_true_iff in Hf as [Hc _]. apply Nat.eqb_eq in Hc.
      destruct (fee_currency_id f =? currency_id)%nat eqn:E; [| done].
      apply Nat.eqb_eq in E. congruence.
Qed.

#[local] Instance by_currency_total : Total by_currency.
Proof. intros a b. unfold by_currency. lia. Qed.

Lemma active_rules_currencies (fees : list PlatformFee) :
  one_active_rule fees →
  NoDup (fee_currency_id <$> filter (λ f, is_active f = true) fees).
Proof.
  induction fees as [| f fees IH]; intros Hone; [constructor |].
  assert (Hrest : one_active_rule fees).
  { intros c. specialize (Hone c). unfold active_rules in *.
    rewrite filter_cons in Hone. case_decide; cbn in Hone; lia. }
  rewrite filter_cons. case_decide as Hact; [| by apply IH].
  cbn. constructor; [| by apply IH].
  rewrite list_elem_of_fmap. intros (g & Hc & Hg).
  apply list_elem_of_filter in Hg as [Hga Hg].
  specialize (Hone (fee_currency_id f)). unfold active_rules in Hone.
  rewrite filter_cons in Hone. rewrite decide_True in Hone by done.
  cbn in Hone.
  assert (Hin : g ∈ filter (λ f0, fee_currency_id f0 = fee_currency_id f
                                  ∧ is_active f0 = true) fees).
  { apply list_elem_of_filter. by repeat split. }
  apply list_elem_of_lookup in Hin as [i Hi]. apply lookup_lt_Some in Hi.
  lia.
Qed.

(** X5. When every currency has at most one active rule, getAllActiveFees
    lists the active rules ordered by currency with no currency twice, and a
    rule is in the list exactly when getActiveFeeForCurrency answers it for
    its currency. *)
Theorem getAllActiveFees_agrees_with_lookup (fees : list PlatformFee) :
  one_active_rule fees →
  Sorted by_currency (getAllActiveFees fees)
  ∧ NoDup (fee_currency_id <$> getAllActiveFees fees)
  ∧ (∀ f, f ∈ getAllActiveFees fees
          ↔ getActiveFeeForCurrency fees (fee_currency_id f) = Some f).
Proof.
  intros Hone. unfold getAllActiveFees.
  split; [apply Sorted_merge_sort, _ |]. split.
  - rewrite merge_sort_Permutation. by apply active_rules_currencies.
  - intros f. rewrite merge_sort_Permutation, list_elem_of_filter.
    unfold getActiveFeeForCurrency. split.
    + intros [Hact Hin].
      destruct (find _ fees) as [g |] eqn:E.
      * apply find_some in E as [Hg Hb]. apply andb_true_iff in Hb as [Hc Ha].
        apply Nat.eqb_eq in Hc. apply list_elem_of_In in Hg.
        pose proof (active_rules_currencies fees Hone) as Hnd.
        f_equal. 
        assert (Hgf : g ∈ filter (λ f0, is_active f0 = true) fees)
          by (by apply list_elem_of_filter).
        assert (Hff : f ∈ filter (λ f0, is_active f0 = true) fees)
          by (by apply list_elem_of_filter).
        apply list_elem_of_lookup in Hgf as [i Hi], Hff as [j Hj].
        assert (i = j).
        { eapply NoDup_lookup; [exact Hnd | |];
            rewrite list_lookup_fmap; [by rewrite Hi | by rewrite Hj; cbn; f_equal]. }
        subst j. congruence.
      * exfalso. pose proof (find_none _ _ E f) as Hnone. cbn in Hnone.
        rewrite Nat.eqb_refl, Hact in Hnone.
        by specialize (Hnone (proj1 (list_elem_of_In _ _) Hin)).
    + intros E. apply find_some in E as [Hin Hb].
      apply andb_true_iff in Hb as [_ Ha]. split; [done | by apply list_elem_of_In].
Qed.

End FeeTableProperties.

Lemma fee_service_stores_no_zero_bound_witness :
  let w := Scenario.world0 Scenario.fees0 [] [] in
  bounds_stored w
  ∧ bounds_stored (snd (FeeService.create 1 3%Q (Some 0%Q) None w))
  ∧ bounds_stored
      (snd (FeeService.update 1
              (FeeService.mkUpdateBody None (Some (Some 0%Q)) (Some None) None) w)).
Proof.
  cbv zeta.
  assert (H : bounds_stored (Scenario.world0 Scenario.fees0 [] [])).
  { intros f Hf. apply list_elem_of_singleton in Hf. subst f. by split; vm_compute. }
  destruct (fee_service_stores_no_zero_bound _ H) as [Hcreate Hupdate].
  split; [exact H |]. split; [apply Hcreate | apply Hupdate].
Defined.

Lemma getAllActiveFees_agrees_with_lookup_witness :
  one_active_rule Scenario.fees0
  ∧ NoDup (fee_currency_id <$> getAllActiveFees Scenario.fees0)
  ∧ getActiveFeeForCurrency Scenario.fees0 1
    = Some (mkPlatformFee 1 1 5%Q (Some 10%Q) (Some 200%Q) true).
Proof.
  assert (H : one_active_rule Scenario.fees0).
  { intros c. unfold active_rules, Scenario.fees0.
    rewrite filter_cons, filter_nil. destruct (decide _); cbn; lia. }
  destruct (getAllActiveFees_agrees_with_lookup _ H) as (_ & Hnodup & Hiff).
  split; [exact H |]. split; [exact Hnodup |].
  apply (Hiff (mkPlatformFee 1 1 5%Q (Some 10%Q) (Some 200%Q) true)).
  vm_compute. apply list_elem_of_singleton. reflexivity.
Defined.

Section WalletListing.
Local Open Scope Q_scope.

(** The loop of [createUserWallet] over the currencies [cs]. *)
Lemma createUserWallet_loop (userId : nat) (cs : list nat) (w : World) :
  let r := for_each cs (λ currencyId,
             existing <- gets (λ w, balances w !! (userId, currencyId)) ;;
             match existing with
             | Some _ => ret tt
             | None =>
                 modify (set_balances (insert (userId, currencyId) 0)) ;;;
                 log (BalanceWritten userId currencyId)
             end) w in
  fst r = Return tt
  ∧ currencies (snd r) = currencies w
  ∧ (∀ c, c ∈ cs →
       balances (snd r) !! (userId, c)
       = Some (default 0 (balances w !! (userId, c))))
  ∧ (∀ k, (k.1 ≠ userId ∨ k.2 ∉ cs) → balances (snd r) !! k = balances w !! k)
  ∧ ((∀ c, c ∈ cs → is_Some (balances w !! (userId, c))) → snd r = w).
Proof.
  revert w. induction cs as [| c cs IH]; intros w; cbn zeta.
  - cbn. repeat split; try done. intros c Hc. by apply elem_of_nil in Hc.
  - cbn [for_each].
    match goal with |- context [for_each cs ?f] => set (body := f) end.
    assert (Hstep : ∃ w1, body c w = (Return tt, w1)
              ∧ currencies w1 = currencies w
              ∧ balances w1 !! (userId, c)
                = Some (default 0 (balances w !! (userId, c)))
              ∧ (∀ k, k ≠ (userId, c) → balances w1 !! k = balances w !! k)
              ∧ (is_Some (balances w !! (userId, c)) → w1 = w)).
    { subst body. cbv beta. rewrite bind_gets.
      destruct (balances w !! (userId, c)) as [b |] eqn:E.
      - exists w. repeat split; try done.
      - eexists. split; [reflexivity |]. cbn. repeat split.
        + by rewrite lookup_insert_eq.
        + intros k Hk. by rewrite lookup_insert_ne.
        + by intros [? [=]]. }
    destruct Hstep as (w1 & Hstep & Hc1 & Hb1 & Ho1 & Hs1).
    rewrite (bind_step _ _ w tt w1 Hstep).
    destruct (IH w1) as (Hr & Hc & Hin & Hout & Hsame). cbn zeta in *.
    fold body in Hr, Hc, Hin, Hout, Hsame.
    repeat split.
    + exact Hr.
    + by rewrite Hc.
    + intros c' Hc'. destruct (decide (c' ∈ cs)) as [Hcs | Hcs].
      * rewrite (Hin c' Hcs). destruct (decide (c' = c)) as [-> | Hne].
        -- rewrite Hb1. by destruct (balances w !! (userId, c)).
        -- rewrite Ho1 by congruence. done.
      * apply elem_of_cons in Hc' as [-> | Hc']; [| done].
        rewrite (Hout (userId, c)) by (right; done). exact Hb1.
    + intros k Hk. rewrite Hout.
      * apply Ho1. destruct Hk as [Hk | Hk]; [intros ->; by apply Hk |].
        intros ->. apply Hk. apply elem_of_cons. by left.
      * destruct Hk as [Hk | Hk]; [by left | right].
        intros H. apply Hk. apply elem_of_cons. by right.
    + intros Hall. rewrite Hsame.
      * apply Hs1, Hall, elem_of_cons. by left.
      * intros c' Hc'. rewrite Hs1 by (apply Hall, elem_of_cons; by left).
        apply Hall, elem_of_cons. by right.
Qed.

(** X6. createUserWallet leaves the user with a balance row for every
    currency (an existing row keeps its amount, a missing one starts at 0),
    changes no row of another user or of an unknown currency, makes
    getUserBalances list exactly the currencies, and a second call changes
    nothing. *)
Theorem createUserWallet_opens_every_currency (userId : nat) (w : World) :
  let r := createUserWallet userId w in
  fst r = Return tt
  ∧ (∀ c, c ∈ currencies w →
       balances (snd r) !! (userId, c) = Some (default 0 (balances w !! (userId, c))))
  ∧ (∀ k, (k.1 ≠ userId ∨ k.2 ∉ currencies w) →
       balances (snd r) !! k = balances w !! k)
  ∧ (∃ rows, fst (getUserBalances userId (snd r)) = Return rows
             ∧ ub_currencyId <$> rows = currencies w)
  ∧ createUserWallet userId (snd r) = (Return tt, snd r).
Proof.
  cbn zeta. unfold createUserWallet. rewrite !bind_gets.
  destruct (createUserWallet_loop userId (currencies w) w)
    as (Hr & Hc & Hin & Hout & Hsame). cbn zeta in *.
  match goal with |- context [for_each (currencies w) ?f w] => set (body := f) in * end.
  set (r := for_each (currencies w) body w) in *.
  repeat split; try done.
  - eexists. split; [reflexivity |]. rewrite Hc.
    assert (Hall : ∀ cs, (∀ c, c ∈ cs → is_Some (balances (snd r) !! (userId, c))) →
              ub_currencyId <$> (cs ≫= λ c,
                match balances (snd r) !! (userId, c) with
                | Some b => [mkUserBalance userId c b]
                | None => []
                end) = cs).
    { induction cs as [| c cs IH]; intros H; [done |]. cbn.
      destruct (H c) as [b Hb]; [apply elem_of_cons; by left |].
      rewrite Hb. cbn. f_equal. apply IH. intros c' Hc'. apply H, elem_of_cons.
      by right. }
    apply Hall. intros c Hc'. rewrite (Hin c Hc'). by eexists.
  - rewrite Hc.
    destruct (createUserWallet_loop userId (currencies w) (snd r))
      as (Hr' & _ & _ & _ & Hsame'). cbn zeta in *.
    assert (Hw : snd (for_each (currencies w) body (snd r)) = snd r).
    { apply Hsame'. intros c Hc'. rewrite (Hin c Hc'). by eexists. }
    rewrite (surjective_pairing (for_each (currencies w) body (snd r))).
    f_equal; [exact Hr' | exact Hw].
Qed.

End WalletListing.

Section WalletComposition.
Local Open Scope Q_scope.

(** X7. checkUserBalance changes nothing; when it answers hasEnoughBalance =
    true with balance c, deductUserWallet of the same amount succeeds,
    returns the id of its new ledger row and leaves c - amount; when it
    answers false (for a known currency), deductUserWallet reports a failure
    and changes nothing. *)
Theorem checked_balance_can_be_debited (userId currencyId : nat) (amount : Q)
  (barId : option string) (w : World) :
  let chk := checkUserBalance userId currencyId amount w in
  snd chk = w
  ∧ (∀ current, fst chk = Return (mkBalanceCheck true current) →
       ∃ w', deductUserWallet userId currencyId amount barId w
             = (Return (Deducted (next_id w)), w')
             ∧ balances w' !! (userId, currencyId) = Some (current - amount))
  ∧ (∀ current, fst chk = Return (mkBalanceCheck false current) →
       currencyId ∈ currencies w →
       ∃ r, deductUserWallet userId currencyId amount barId w = (Return r, w)
            ∧ deduct_success r = false).
Proof.
  cbn zeta. unfold checkUserBalance, getUserBalanceByCurrency. rewrite bind_gets.
  pose proof (deductUserWallet_contract userId currencyId amount barId w) as Hd.
  split; [by repeat case_match |]. split.
  - intros current Hchk. case_bool_decide as Hc; [| by cbn in Hchk].
    destruct (balances w !! (userId, currencyId)) as [b |] eqn:E; [| by cbn in Hchk].
    cbn in Hchk. injection Hchk as Hle <-. apply Qle_bool_iff in Hle.
    destruct Hd as [_ Hd]. destruct (Hd Hle) as (w' & t & Hop & Hbal & _).
    exists w'. split; [exact Hop |]. by rewrite Hbal, lookup_insert_eq.
  - intros current Hchk Hc. rewrite bool_decide_eq_true_2 in Hchk by done.
    destruct (balances w !! (userId, currencyId)) as [b |] eqn:E.
    + cbn in Hchk. injection Hchk as Hle <-.
      destruct Hd as [Hd _]. eexists. split; [apply Hd | done].
      apply Qnot_le_lt. intros H. apply Qle_bool_iff in H. congruence.
    + by eexists.
Qed.

Lemma depositUserWallet_runs (userId currencyId : nat) (amount : Q) (w : World) :
  depositUserWallet userId currencyId amount w
  = (Return tt,
     record_effect (BalanceWritten userId currencyId)
       (set_balances
          (insert (userId, currencyId)
             match balances w !! (userId, currencyId) with
             | Some current => current + amount
             | None => amount
             end) w)).
Proof.
  unfold depositUserWallet, transaction, bind, gets.
  by destruct (balances w !! (userId, currencyId)).
Qed.

(** X8. depositUserWallet adds the amount to the user's balance in the
    currency (a missing row counts as 0 and is created), changes no other
    balance and writes no transaction record; a checkUserBalance that
    follows reports the new balance. *)
Theorem deposit_adds_to_the_account (userId currencyId : nat) (amount : Q) (w : World) :
  let r := depositUserWallet userId currencyId amount w in
  fst r = Return tt
  ∧ (∃ v, balances (snd r) !! (userId, currencyId) = Some v
          ∧ v == default 0 (balances w !! (userId, currencyId)) + amount)
  ∧ (∀ k, k ≠ (userId, currencyId) → balances (snd r) !! k = balances w !! k)
  ∧ transactions (snd r) = transactions w
  ∧ (currencyId ∈ currencies w →
     ∀ required, ∃ current,
       fst (checkUserBalance userId currencyId required (snd r))
       = Return (mkBalanceCheck (Qle_bool required current) current)
       ∧ current == default 0 (balances w !! (userId, currencyId)) + amount).
Proof.
  cbn zeta. rewrite depositUserWallet_runs. cbn [fst snd].
  set (v := match balances w !! (userId, currencyId) with
            | Some current => current + amount
            | None => amount
            end).
  assert (Hv : v == default 0 (balances w !! (userId, currencyId)) + amount).
  { subst v. destruct (balances w !! (userId, currencyId)); cbn; lra. }
  split; [done |]. cbn.
  split; [exists v; split; [apply lookup_insert_eq | exact Hv] |].
  split; [intros k Hk; by rewrite lookup_insert_ne |]. split; [done |].
  intros Hc required. exists v. split; [| exact Hv].
  unfold checkUserBalance, getUserBalanceByCurrency, bind, gets. cbn.
  rewrite bool_decide_eq_true_2 by done. by rewrite lookup_insert_eq.
Qed.

End WalletComposition.

Section TokenProperties.

Lemma find_token_fresh (w : World) (userId id : nat) :
  tokens_numbered w → (next_id w ≤ id)%nat →
  find (λ t, (token_id t =? id)%nat && (token_user_id t =? userId)%nat)
       (payment_tokens w) = None.
Proof.
  intros Hnum Hid. destruct (find _ _) as [t |] eqn:E; [| done].
  apply find_some in E as [Hin Hb]. apply andb_true_iff in Hb as [Hb _].
  apply Nat.eqb_eq in Hb. apply list_elem_of_In, Hnum in Hin. lia.
Qed.

(** X9. A token saved by createToken (ids coming from the table's sequence)
    is found by getPaymentTokenById under its id for its user and for no
    other user, is among the cards getUserPaymentTokens lists for the user,
    and leaves the lookups of other ids and the card lists of other users
    unchanged. *)
Theorem saved_token_belongs_to_its_user (clk : Clock) (userId : nat)
  (tok expired : option string) (amount : option Q) (pan : option string) (w : World) :
  tokens_numbered w →
  let r := createToken clk userId tok expired amount pan w in
  let row := mkToken (next_id w) userId tok expired amount pan (now clk) in
  fst r = Return row
  ∧ tokens_numbered (snd r)
  ∧ fst (getPaymentTokenById (token_id row) userId (snd r)) = Return (Some row)
  ∧ (∀ other, other ≠ userId →
       fst (getPaymentTokenById (token_id row) other (snd r)) = Return None)
  ∧ (∀ id user, id ≠ token_id row →
       fst (getPaymentTokenById id user (snd r)) = fst (getPaymentTokenById id user w))
  ∧ (∃ cards, fst (getUserPaymentTokens userId (snd r)) = Return cards
              ∧ card_of row ∈ cards)
  ∧ (∀ other, other ≠ userId →
       fst (getUserPaymentTokens other (snd r)) = fst (getUserPaymentTokens other w)).
Proof.
  intros Hnum. cbn zeta. cbn. split; [done |]. split.
  { intros t. cbn. rewrite elem_of_app, list_elem_of_singleton.
    intros [Ht | ->]; [apply Hnum in Ht |]; cbn; lia. }
  split.
  { rewrite find_snoc, (find_token_fresh w userId (next_id w) Hnum) by lia.
    cbn. by rewrite !Nat.eqb_refl. }
  split.
  { intros other Hother.
    rewrite find_snoc, (find_token_fresh w other (next_id w) Hnum) by lia.
    cbn. rewrite Nat.eqb_refl. cbn.
    by rewrite (proj2 (Nat.eqb_neq userId other)) by congruence. }
  split.
  { intros id user Hid. rewrite find_snoc. cbn.
    rewrite (proj2 (Nat.eqb_neq (next_id w) id)) by congruence. cbn.
    by destruct (find _ _). }
  split.
  { eexists. split; [reflexivity |]. rewrite merge_sort_Permutation.
    apply list_elem_of_fmap. eexists. split; [reflexivity |].
    apply list_elem_of_filter. split; [done |].
    apply elem_of_app. right. by apply list_elem_of_singleton. }
  intros other Hother. do 2 f_equal.
  rewrite filter_app, filter_cons, decide_False by (cbn; congruence).
  by rewrite filter_nil, app_nil_r.
Qed.

End TokenProperties.

Lemma saved_token_belongs_to_its_user_witness :
  let w := Scenario.world0 [] [] [Scenario.token0] in
  let r := createToken Scenario.clock0 2 (Some "tok-2") None None (Some "4400-xx-9") w in
  tokens_numbered w
  ∧ fst (getPaymentTokenById 10 2 (snd r))
    = Return (Some (mkToken 10 2 (Some "tok-2") None None (Some "4400-xx-9") 100))
  ∧ fst (getPaymentTokenById 10 1 (snd r)) = Return None.
Proof.
  cbv zeta.
  assert (H : tokens_numbered (Scenario.world0 [] [] [Scenario.token0])).
  { intros t Ht. apply list_elem_of_singleton in Ht. subst t. cbn. lia. }
  destruct (saved_token_belongs_to_its_user Scenario.clock0 2 (Some "tok-2") None None
              (Some "4400-xx-9") _ H) as (_ & _ & Hmine & Hother & _).
  split; [exact H |]. split; [exact Hmine |]. by apply Hother.
Defined.

Section MainServiceClient.

Lemma prefix_app (p s : string) : String.prefix p (p +:+ s) = true.
Proof.
  induction p as [| c p IH]; [by destruct s |].
  change (String c p +:+ s) with (String c (p +:+ s)). cbn.
  destruct (Ascii.ascii_dec c c) as [_ | Hne]; [exact IH | done].
Qed.

(** X10. ensureProtocol always returns a URL that starts with http:// or
    https://: a URL that already does is returned unchanged, any other gets
    http:// in front, and applying it twice is the same as applying it once. *)
Theorem ensureProtocol_is_idempotent (url : string) :
  has_protocol (ensureProtocol url) = true
  ∧ ensureProtocol (ensureProtocol url) = ensureProtocol url
  ∧ (has_protocol url = true → ensureProtocol url = url)
  ∧ (has_protocol url = false → ensureProtocol url = "http://" +:+ url).
Proof.
  assert (H : has_protocol (ensureProtocol url) = true).
  { unfold ensureProtocol. destruct (has_protocol url) eqn:E; cbn; [done |].
    unfold has_protocol. by rewrite (prefix_app "http://" url). }
  split; [exact H |]. split.
  - unfold ensureProtocol at 1. by rewrite H.
  - unfold ensureProtocol. split; by intros ->.
Qed.

End MainServiceClient.

Section PurchaseAdmission.

Lemma createPayment_cases (env : Env) (userId : nat)
  (body : PaymentService.CreatePaymentBody) (w : World) :
  (∃ e, PaymentService.createPayment env userId body w = (Throw e, w))
  ∨ (∃ paymentType barId bar price,
       purchase_admitted env userId body w paymentType barId bar price
       ∧ PaymentService.createPayment env userId body w
         = purchase_switch env userId body paymentType barId bar price w).
Proof.
  unfold PaymentService.createPayment, purchase_switch.
  destruct (PaymentService.payment_type body) as [pt |] eqn:Hpt; [| left; by eexists].
  destruct (truthy_str (PaymentService.email body)) eqn:Hemail; [| left; by eexists].
  destruct (PaymentService.bar_id body) as [barId |] eqn:Hbar; [| left; by eexists].
  destruct (String.eqb barId "") eqn:Hne; [left; by eexists |].
  apply String.eqb_neq in Hne.
  destruct (getBarById env barId) as [bar |] eqn:Hget; [| left; by eexists].
  destruct (is_monetized bar) eqn:Hmon; cbn [negb]; [| left; by eexists].
  rewrite bind_step with (a := match getUserIdByProfileId env (bar_profile_id bar) with
                               | Some o => if (o =? 0)%nat then false
                                           else match hasActiveSubscription (clock env) o w with
                                                | (Return b, _) => b | _ => false end
                               | None => false end) (w1 := w).
  2: { destruct (getUserIdByProfileId env (bar_profile_id bar)) as [o |]; cbn; [| done].
       by destruct (o =? 0)%nat. }
  destruct (getUserIdByProfileId env (bar_profile_id bar)) as [o |] eqn:Ho;
    [| left; by eexists].
  destruct (o =? 0)%nat eqn:Ho0; [left; by eexists |].
  apply Nat.eqb_neq in Ho0.
  destruct (hasActiveSubscription (clock env) o w) as [[active |] w1] eqn:Hact;
    [| left; by eexists].
  assert (w1 = w) as -> by (unfold hasActiveSubscription, gets in Hact; congruence).
  destruct active; cbn [negb]; [| left; by eexists].
  destruct (monetized_details bar) as [[[price |] code] |] eqn:Hdet;
    [| left; by eexists | left; by eexists].
  destruct (Qeq_bool price 0) eqn:Hprice; cbn [orb]; [left; by eexists |].
  destruct (truthy_str code) eqn:Hcode; cbn [negb]; [| left; by eexists].
  rewrite (bind_step (hasUserPurchasedBar userId barId) _ w _ w eq_refl).
  match goal with |- context [if ?b then throw (Some 400) "You have already purchased this bar" else _] =>
    destruct b eqn:Hbought end; [left; by eexists |].
  destruct (same_type pt PTToken && negb (truthy_id (PaymentService.body_token_id body)))
    eqn:Htok; [left; by eexists |].
  right. exists pt, barId, bar, price. split; [| reflexivity].
  repeat split; try done.
  - exists o. repeat split; try done. by rewrite Hact.
  - by exists code.
  - cbn. by rewrite Hbought.
  - intros ->. cbn in Htok. by destruct (truthy_id _).
Qed.

End PurchaseAdmission.

Section PurchaseWrites.

(** X11. A createPayment call that changes anything at all (a balance, a
    record, a token, a request to the gateway) was made with payment_type,
    email and bar_id, for an existing monetized bar with a currency and a
    non-zero price whose owner has an active subscription, and which the
    user had not purchased yet; a request failing any of these checks leaves
    the state as it was. *)
Theorem purchase_that_writes_was_admitted (env : Env) (userId : nat)
  (body : PaymentService.CreatePaymentBody) (w : World) :
  snd (PaymentService.createPayment env userId body w) ≠ w →
  ∃ paymentType barId bar price,
    purchase_admitted env userId body w paymentType barId bar price.
Proof.
  intros Hwrites.
  destruct (createPayment_cases env userId body w)
    as [[e He] | (paymentType & barId & bar & price & Hadmitted & _)].
  - rewrite He in Hwrites. by destruct Hwrites.
  - by exists paymentType, barId, bar, price.
Qed.

End PurchaseWrites.

Lemma purchase_that_writes_was_admitted_witness :
  let env := Scenario.env0 500 HttpFailed in
  let w := Scenario.world0 Scenario.fees0 [] [] in
  snd (PaymentService.createPayment env 1 Scenario.walletPurchase w) ≠ w
  ∧ ∃ barId bar price,
      purchase_admitted env 1 Scenario.walletPurchase w PTWallet barId bar price.
Proof.
  cbv zeta.
  assert (Hne : snd (PaymentService.createPayment (Scenario.env0 500 HttpFailed) 1
                       Scenario.walletPurchase (Scenario.world0 Scenario.fees0 [] []))
                ≠ Scenario.world0 Scenario.fees0 [] []).
  { intros H. apply (f_equal next_id) in H. by vm_compute in H. }
  destruct (purchase_that_writes_was_admitted _ _ _ _ Hne)
    as (paymentType & barId & bar & price & Hadmitted).
  split; [exact Hne |]. exists barId, bar, price.
  destruct Hadmitted as [Htype Hrest]. injection Htype as <-. by split.
Defined.

Section WalletPurchase.
Local Open Scope Q_scope.

(** The row [deductUserWallet] appends for a purchase. *)
Lemma deductUserWallet_runs (userId currencyId : nat) (amount : Q)
  (barId : option string) (w : World) (current : Q) :
  balances w !! (userId, currencyId) = Some current →
  amount <= current →
  ∃ w1,
    deductUserWallet userId currencyId amount barId w
    = (Return (Deducted (next_id w)), w1)
    ∧ balances w1 = <[(userId, currencyId) := current - amount]> (balances w)
    ∧ transactions w1
      = transactions w ++
        [{| tx_id := next_id w; tx_user_id := userId; tx_currency_id := currencyId;
            tx_amount := amount; tx_type := withdraw; tx_source := wallet;
            tx_user_subscription_id := None;
            tx_bar_id := if truthy_str barId then barId else None;
            tx_status := Some completed; tx_order_id := None; tx_payment_id := None;
            tx_transaction_data := None; tx_subscription_plan_id := None;
            tx_subscription_price_id := None |}]
    ∧ user_subscriptions w1 = user_subscriptions w
    ∧ subscription_plans w1 = subscription_plans w
    ∧ payment_tokens w1 = payment_tokens w
    ∧ platform_fees w1 = platform_fees w
    ∧ currencies w1 = currencies w
    ∧ next_id w1 = S (next_id w).
Proof.
  intros Hb Hle. unfold deductUserWallet, deductWith, transaction, bind, gets.
  rewrite Hb. apply Qlt_bool_false in Hle. rewrite Hle. cbn.
  eexists. by repeat split.
Qed.

(** The owner-credit block never throws; it writes the owner's balance
    and one completed deposit record when the profile is found. *)
Lemma creditOwnerOf_runs (env : Env) (profileId : string) (amount : Q)
  (currencyId : nat) (source : TxSource) (optional : list TxField) (w : World) :
  ∃ w',
    PaymentService.swallow
      (PaymentService.creditOwnerOf env profileId amount currencyId source optional) w
    = (Return tt, w')
    ∧ user_subscriptions w' = user_subscriptions w
    ∧ subscription_plans w' = subscription_plans w
    ∧ payment_tokens w' = payment_tokens w
    ∧ platform_fees w' = platform_fees w
    ∧ currencies w' = currencies w
    ∧ match getProfileById env profileId with
      | None => w' = w
      | Some owner =>
          let net := finalAmount (calculateFee (platform_fees w) amount currencyId) in
          balances w'
          = <[(profile_user_id owner, currencyId) :=
                match balances w !! (profile_user_id owner, currencyId) with
                | Some current => current + net
                | None => net
                end]> (balances w)
          ∧ ∃ row, transactions w' = transactions w ++ [row]
                   ∧ tx_id row = next_id w
                   ∧ row = apply_fields optional
                       {| tx_id := next_id w; tx_user_id := profile_user_id owner;
                          tx_currency_id := currencyId; tx_amount := net;
                          tx_type := deposit; tx_source := source;
                          tx_user_subscription_id := None; tx_bar_id := None;
                          tx_status := None; tx_order_id := None;
                          tx_payment_id := None; tx_transaction_data := None;
                          tx_subscription_plan_id := None;
                          tx_subscription_price_id := None |}
      end.
Proof.
  unfold PaymentService.swallow, PaymentService.creditOwnerOf, try_catch.
  destruct (getProfileById env profileId) as [owner |]; [| by eexists].
  unfold calculateFeeM. rewrite bind_gets.
  rewrite (bind_step _ _ w tt _ (depositUserWallet_runs _ _ _ w)).
  unfold createPaymentTransaction, createTransaction, clearUserTransactionsCache.
  unfold_m. cbn. eexists. split; [reflexivity |]. cbn.
  repeat split; try done.
  eexists. repeat split. apply apply_fields_id.
Qed.

Lemma checkUserBalance_runs (userId currencyId : nat) (required : Q) (w : World) :
  checkUserBalance userId currencyId required w
  = (Return match (if bool_decide (currencyId ∈ currencies w)
                   then balances w !! (userId, currencyId) else None) with
            | None => mkBalanceCheck false 0
            | Some b => mkBalanceCheck (Qle_bool required b) b
            end, w).
Proof.
  unfold checkUserBalance, getUserBalanceByCurrency. rewrite bind_gets.
  by destruct (if bool_decide _ then _ else _).
Qed.

Lemma walletCase_success (env : Env) (userId : nat) (bar : BarData) (barId : string)
  (price : Q) (currencyId : nat) (w w' : World) (r : PaymentService.PaymentResult) :
  PaymentService.walletCase env userId bar barId price currencyId w = (Return r, w') →
  ∃ current w1,
    currencyId ∈ currencies w
    ∧ balances w !! (userId, currencyId) = Some current
    ∧ price <= current
    ∧ deductUserWallet userId currencyId price (Some barId) w
      = (Return (Deducted (next_id w)), w1)
    ∧ PaymentService.swallow
        (PaymentService.creditOwnerOf env (bar_profile_id bar) price currencyId wallet
           [Status (Some completed); BarId (Some barId)]) w1
      = (Return tt, w')
    ∧ r = PaymentService.PaidByWallet (Some (next_id w)) price (current - price).
Proof.
  unfold PaymentService.walletCase.
  rewrite (bind_step _ _ w _ w (checkUserBalance_runs _ _ _ w)).
  case_bool_decide as Hc; [| done].
  destruct (balances w !! (userId, currencyId)) as [current |] eqn:Hb; [| done].
  cbn [hasEnoughBalance currentBalance].
  destruct (Qle_bool price current) eqn:Hle; cbn [negb]; [| done].
  apply Qle_bool_iff in Hle.
  destruct (deductUserWallet_runs userId currencyId price (Some barId) w current Hb Hle)
    as (w1 & Hrun & _).
  rewrite (bind_step _ _ w _ w1 Hrun).
  destruct (creditOwnerOf_runs env (bar_profile_id bar) price currencyId wallet
              [Status (Some completed); BarId (Some barId)] w1) as (w2 & Hcredit & _).
  rewrite (bind_step _ _ w1 _ w2 Hcredit).
  unfold clearUserTransactionsCache. rewrite bind_ret. unfold ret.
  intros [= <- <-]. by exists current, w1.
Qed.

End WalletPurchase.

Section WalletPurchaseProperties.
Local Open Scope Q_scope.



(** The worlds of a wallet purchase that went through. *)
Lemma wallet_purchase_worlds (env : Env) (userId : nat)
  (body : PaymentService.CreatePaymentBody) (w w' : World)
  (r : PaymentService.PaymentResult) :
  PaymentService.payment_type body = Some PTWallet →
  PaymentService.createPayment env userId body w = (Return r, w') →
  ∃ barId bar price current w1,
    purchase_admitted env userId body w PTWallet barId bar price
    ∧ let currencyId := default 1%nat (PaymentService.currency_id body) in
      balances w !! (userId, currencyId) = Some current
      ∧ price <= current
      ∧ deductUserWallet userId currencyId price (Some barId) w
        = (Return (Deducted (next_id w)), w1)
      ∧ PaymentService.swallow
          (PaymentService.creditOwnerOf env (bar_profile_id bar) price currencyId wallet
             [Status (Some completed); BarId (Some barId)]) w1
        = (Return tt, w')
      ∧ r = PaymentService.PaidByWallet (Some (next_id w)) price (current - price).
Proof.
  intros Hpt Hrun.
  destruct (createPayment_cases env userId body w)
    as [[e He] | (pt & barId & bar & price & Hadm & Hsw)]; [congruence |].
  assert (pt = PTWallet) as -> by (destruct Hadm as [H _]; congruence).
  rewrite Hsw in Hrun. unfold purchase_switch in Hrun. cbn [same_type] in Hrun.
  rewrite bind_ret in Hrun.
  apply walletCase_success in Hrun as (current & w1 & _ & Hb & Hle & Hd & Hc & ->).
  by exists barId, bar, price, current, w1.
Qed.

(** X12. A successful wallet purchase debits the buyer exactly the bar's
    price (the balance was at least the price) and answers the new balance;
    when the bar's profile resolves to another user, that owner is credited
    the price less the platform fee (calculateFee's finalAmount) and no
    other balance changes; when the profile is not found only the buyer's
    balance changes. *)
Theorem wallet_purchase_moves_the_money (env : Env) (userId : nat)
  (body : PaymentService.CreatePaymentBody) (w w' : World)
  (r : PaymentService.PaymentResult) :
  PaymentService.payment_type body = Some PTWallet →
  PaymentService.createPayment env userId body w = (Return r, w') →
  ∃ barId bar price current,
    PaymentService.bar_id body = Some barId
    ∧ getBarById env barId = Some bar
    ∧ (∃ code, monetized_details bar = Some (Some price, code))
    ∧ let currencyId := default 1%nat (PaymentService.currency_id body) in
      let net := finalAmount (calculateFee (platform_fees w) price currencyId) in
      balances w !! (userId, currencyId) = Some current
      ∧ price <= current
      ∧ r = PaymentService.PaidByWallet (Some (next_id w)) price (current - price)
      ∧ (getProfileById env (bar_profile_id bar) = None →
           balances w' = <[(userId, currencyId) := current - price]> (balances w))
      ∧ (∀ owner, getProfileById env (bar_profile_id bar) = Some owner →
           profile_user_id owner ≠ userId →
           balances w' !! (userId, currencyId) = Some (current - price)
           ∧ (∃ credited,
                balances w' !! (profile_user_id owner, currencyId) = Some credited
                ∧ credited
                  == default 0 (balances w !! (profile_user_id owner, currencyId)) + net)
           ∧ (∀ k, k ≠ (userId, currencyId) →
                   k ≠ (profile_user_id owner, currencyId) →
                   balances w' !! k = balances w !! k)).
Proof.
  intros Hpt Hrun.
  destruct (wallet_purchase_worlds env userId body w w' r Hpt Hrun)
    as (barId & bar & price & current & w1 & Hadm & Hb & Hle & Hd & Hc & ->).
  destruct Hadm as (_ & _ & Hbar & _ & Hget & _ & _ & (code & Hdet & _) & _).
  exists barId, bar, price, current.
  split; [exact Hbar |]. split; [exact Hget |]. split; [by exists code |].
  cbn zeta. split; [exact Hb |]. split; [exact Hle |]. split; [done |].
  set (currencyId := default 1%nat (PaymentService.currency_id body)) in *.
  destruct (deductUserWallet_runs userId currencyId price (Some barId) w current Hb Hle)
    as (w1' & Hd' & Hb1 & _ & _ & _ & _ & Hf1 & _).
  assert (w1' = w1) as -> by congruence.
  destruct (creditOwnerOf_runs env (bar_profile_id bar) price currencyId wallet
              [Status (Some completed); BarId (Some barId)] w1)
    as (w2 & Hc' & _ & _ & _ & _ & _ & Hcredit).
  assert (w2 = w') as -> by congruence.
  split.
  - intros Hnone. rewrite Hnone in Hcredit. by rewrite Hcredit.
  - intros owner Ho Hne. rewrite Ho in Hcredit. destruct Hcredit as [Hb2 _].
    rewrite Hb2, Hb1, Hf1.
    assert (Hk : (profile_user_id owner, currencyId) ≠ (userId, currencyId))
      by congruence.
    split; [by rewrite lookup_insert_ne, lookup_insert_eq |]. split.
    + eexists. split; [apply lookup_insert_eq |].
      rewrite lookup_insert_ne by done.
      destruct (balances w !! (profile_user_id owner, currencyId)); cbn; lra.
    + intros k H1 H2. by rewrite !lookup_insert_ne.
Qed.


End WalletPurchaseProperties.

Lemma wallet_purchase_moves_the_money_witness :
  let env := Scenario.env0 500 HttpFailed in
  let w := Scenario.world0 Scenario.fees0 [] [] in
  let r := PaymentService.createPayment env 1 Scenario.walletPurchase w in
  fst r = Return (PaymentService.PaidByWallet (Some 10) 500 (1000 - 500))
  ∧ balances (snd r) !! (1, 1) = Some (1000 - 500)%Q
  ∧ ∃ credited, balances (snd r) !! (2, 1) = Some credited ∧ (credited == 475)%Q.
Proof.
  cbv zeta.
  set (env := Scenario.env0 500 HttpFailed).
  set (w := Scenario.world0 Scenario.fees0 [] []).
  assert (Hrun : PaymentService.createPayment env 1 Scenario.walletPurchase w
                 = (Return (PaymentService.PaidByWallet (Some 10) 500 (1000 - 500)),
                    snd (PaymentService.createPayment env 1 Scenario.walletPurchase w)))
    by (vm_compute; reflexivity).
  destruct (wallet_purchase_moves_the_money env 1 Scenario.walletPurchase w _ _
              eq_refl Hrun)
    as (barId & bar & price & current & Hb & Hbar & (code & Hm) & Hcur & Hle & _ & _
        & Howner).
  injection Hb as <-. injection Hbar as <-. injection Hm as <- <-.
  injection Hcur as <-.
  destruct (Howner (mkProfile 2) eq_refl) as (Hmine & (credited & Hc & Hsum) & _);
    [done |].
  split; [by rewrite Hrun |]. split; [exact Hmine |].
  exists credited. split; [exact Hc |]. rewrite Hsum. by vm_compute.
Defined.


Section CallbackProperties.

Ltac unfold_callback :=
  unfold PaymentService.callback, WalletService.callback, SubscriptionService.callback,
    PaymentService.transactionOfCallback, getTransactionByOrderId,
    verifyResponseSignature, createToken, updatePaymentTransaction, updateTransaction,
    clearUserTransactionsCache, getSubscriptionInfoByTransactionId.

(** X14. On a callback whose operation_status is not success,
    paymentService.callback changes no balance, token or subscription, and
    when it returns a record it has only marked that record failed (with the
    callback's order id, payment id and data); subscriptionService.callback
    changes nothing at all. *)
Theorem failure_callback_moves_no_money (env : Env) (data sign : string) (w : World)
  (d : DecodedCallbackData) :
  decodeCallbackData env data = Some d →
  cb_operation_status d ≠ Some "success" →
  let rp := PaymentService.callback env data sign w in
  let rs := SubscriptionService.callback env data sign w in
  (balances (snd rp) = balances w
   ∧ payment_tokens (snd rp) = payment_tokens w
   ∧ user_subscriptions (snd rp) = user_subscriptions w
   ∧ (∀ t, fst rp = Return t →
        t ∈ transactions w
        ∧ transactions (snd rp)
          = map (λ x, if (tx_id x =? tx_id t)%nat
                      then apply_fields
                             [OrderId (cb_order_id d);
                              PaymentId (Some (cb_payment_id d));
                              Status (Some failed);
                              TransactionData (Some (CallbackData d))] x
                      else x) (transactions w)))
  ∧ snd rs = w.
Proof.
  intros Hd Hst. cbn zeta.
  assert (Hno : is_str (cb_operation_status d) "success" = false).
  { unfold is_str. by apply bool_decide_eq_false_2. }
  unfold_callback. rewrite Hd, Hno. unfold_m. cbn.
  repeat (destruct_scrutinee; cbn); repeat split; try done.
  all: match goal with E : Return _ = Return _ |- _ => injection E as <- end.
  all: try reflexivity.
  all: match goal with H : find _ _ = Some _ |- _ =>
         apply find_some in H as [H _]; by apply list_elem_of_In end.
Qed.

(** X15. walletService.callback changes a balance only when the signature
    verifies, the callback reports success, the matched record is a deposit
    and the order id does not start with recurrent_; it then adds exactly
    the record's amount to the balance of the record's user in the record's
    currency. *)
Theorem wallet_callback_credits_only_card_top_ups (env : Env) (data sign : string)
  (w : World) :
  let r := WalletService.callback env data sign w in
  balances (snd r) ≠ balances w →
  ∃ d key t,
    decodeCallbackData env data = Some d
    ∧ secretKey (paymentConfig env) = Some key
    ∧ hmac_sha512_hex env key data = sign
    ∧ fst r = Return t
    ∧ t ∈ transactions w
    ∧ tx_order_id t = cb_order_id d
    ∧ cb_operation_status d = Some "success"
    ∧ tx_type t = deposit
    ∧ WalletService.isRecurrentPayment d = false
    ∧ balances (snd r)
      = <[(tx_user_id t, tx_currency_id t) :=
            match balances w !! (tx_user_id t, tx_currency_id t) with
            | Some current => (current + tx_amount t)%Q
            | None => tx_amount t
            end]> (balances w).
Proof.
  cbn zeta. unfold_callback. unfold PaymentService.swallow, depositUserWallet.
  unfold_m. cbn.
  repeat (destruct_scrutinee; cbn); try done.
  all: intros _.
  all: repeat match goal with
       | H : _ && _ = true |- _ => apply andb_true_iff in H as [? ?]
       | H : negb _ = true |- _ => apply negb_true_iff in H
       | H : negb _ = false |- _ => apply negb_false_iff in H
       | H : (_ =? _)%string = true |- _ => apply String.eqb_eq in H
       | H : bool_decide _ = true |- _ => apply bool_decide_eq_true_1 in H
       | H : is_str _ _ = true |- _ => apply bool_decide_eq_true_1 in H
       end.
  all: match goal with
       | Hd : decodeCallbackData _ _ = Some ?d, Hk : secretKey _ = Some ?k,
         Hf : find _ _ = Some ?t |- _ =>
           exists d, k, t; apply find_some in Hf as [Hin Ho];
           apply bool_decide_eq_true_1 in Ho; apply list_elem_of_In in Hin
       end.
  all: repeat split; try done; try congruence.
  all: match goal with H : balances _ !! _ = _ |- _ => by rewrite H end.
Qed.

End CallbackProperties.

Lemma failure_callback_moves_no_money_witness :
  let env := Checkout.env1 500 "pay_3" in
  let w := Scenario.world0 Scenario.fees0
             [Scenario.tx0 3 1 500 withdraw (Some "7") (Some "pay_3") None] [] in
  let sign := Scenario.digest "secret" "declined" in
  balances (snd (PaymentService.callback env "declined" sign w)) = balances w
  ∧ map tx_status (transactions (snd (PaymentService.callback env "declined" sign w)))
    = [Some failed]
  ∧ snd (SubscriptionService.callback env "declined" sign w) = w.
Proof.
  cbv zeta.
  destruct (failure_callback_moves_no_money (Checkout.env1 500 "pay_3") "declined"
              (Scenario.digest "secret" "declined")
              (Scenario.world0 Scenario.fees0
                 [Scenario.tx0 3 1 500 withdraw (Some "7") (Some "pay_3") None] [])
              (Scenario.callbackOf "pay_3" "declined") eq_refl)
    as ((Hbal & _ & _ & Htx) & Hsub).
  - by intros [=].
  - split; [exact Hbal |]. split; [| exact Hsub].
    destruct (Htx (Scenario.tx0 3 1 500 withdraw (Some "7") (Some "pay_3") None))
      as [_ Hrows]; [by vm_compute |].
    rewrite Hrows. by vm_compute.
Defined.

Lemma wallet_callback_credits_only_card_top_ups_witness :
  let env := Scenario.env0 500 HttpFailed in
  let w := Scenario.world0 []
             [Scenario.tx0 3 1 100 deposit None (Some "pay_1") None] [] in
  let r := WalletService.callback env "topup-ok" (Scenario.digest "secret" "topup-ok") w in
  balances (snd r) ≠ balances w
  ∧ ∃ t, fst r = Return t ∧ tx_type t = deposit ∧ tx_order_id t = Some "pay_1".
Proof.
  cbv zeta.
  set (env := Scenario.env0 500 HttpFailed).
  set (w := Scenario.world0 [] [Scenario.tx0 3 1 100 deposit None (Some "pay_1") None] []).
  assert (Hne : balances (snd (WalletService.callback env "topup-ok"
                                 (Scenario.digest "secret" "topup-ok") w))
                ≠ balances w).
  { intros H. apply (f_equal (λ m, m !! (1, 1))) in H. vm_compute in H. discriminate H. }
  destruct (wallet_callback_credits_only_card_top_ups env "topup-ok"
              (Scenario.digest "secret" "topup-ok") w Hne)
    as (d & key & t & Hd & _ & _ & Hr & _ & Ho & _ & Ht & _).
  injection Hd as <-.
  split; [exact Hne |]. exists t. by repeat split.
Defined.

Section ChargeRuns.

(** A verified answer passes the four steps that follow every charge
    request. *)
Lemma charge_verified {A} (env : Env) (req : ChargeRequest)
  (data payment_id : string) (success : bool) (d : DecodedPaymentData)
  (k : CheckedResponse → DecodedPaymentData → M A) (w : World) :
  verified_answer env req data payment_id success d →
  (response <- send env req ;;
   checked <- required_fields response ;;
   verifyResponseSignature env (r_data checked) (r_sign checked)
     (secretKey (paymentConfig env)) ;;;
   decoded <- parsePaymentData env (r_data checked) ;;
   k checked decoded) w
  = k (mkChecked data payment_id
         (hmac_sha512_hex env (default "" (secretKey (paymentConfig env))) data) success)
      d (record_effect (GatewayRequest (charge_op req)) w).
Proof.
  intros (key & Hkey & Hsend & Hd & Hp & Hs & Hdec).
  unfold send, required_fields, verifyResponseSignature, parsePaymentData.
  unfold_m. cbn. rewrite Hsend. cbn.
  rewrite (proj2 (String.eqb_neq data "")), (proj2 (String.eqb_neq payment_id "")),
    (proj2 (String.eqb_neq _ "") Hs) by done.
  cbn. rewrite Hkey. cbn. rewrite String.eqb_refl. cbn. by rewrite Hdec.
Qed.

Lemma updateTransaction_new_row (id : nat) (params : list TxField) (w : World)
  (rows : list Transaction) (row : Transaction) :
  transactions w = rows ++ [row] →
  tx_id row = id →
  (∀ t, t ∈ rows → tx_id t ≠ id) →
  transactions (snd (updateTransaction id params w)) = rows ++ [apply_fields params row].
Proof.
  intros Hw Hid Hrows. cbn. rewrite Hw, map_app. cbn. rewrite Hid, Nat.eqb_refl.
  f_equal. rewrite <- (map_id rows) at 2. apply map_ext_in.
  intros t Ht. apply list_elem_of_In, Hrows in Ht.
  by rewrite (proj2 (Nat.eqb_neq (tx_id t) id)).
Qed.

Lemma topUp_card_runs (env : Env) (userId : nat) (body : WalletService.TopUpBody)
  (w : World) (amount : Q) (data payment_id : string) (success : bool)
  (d : DecodedPaymentData) :
  WalletService.paymentType body = Some PTCard →
  WalletService.amount body = Some amount →
  truthy_num (Some amount) = true →
  truthy_str (WalletService.email body) = true →
  WalletService.config_ok (paymentConfig env) = true →
  verified_answer env (mkCharge ChargeCreate amount None (Some (next_id w)))
    data payment_id success d →
  WalletService.topUp env userId body w
  = (Return (WalletService.CardTopUp success payment_id),
     snd (updatePaymentTransaction (next_id w)
            [OrderId (pd_order_id d); PaymentId (Some payment_id);
             Status (Some (StatusMapper.mapPaymentStatus (pd_payment_status d)));
             TransactionData (Some (PaymentData d))]
            (record_effect (GatewayRequest ChargeCreate)
               (snd (createPaymentTransaction userId
                       (default 1 (WalletService.currencyId body)) amount deposit card
                       [Status (Some pending)] w))))).
Proof.
  intros Hty Ha Hnum Hem Hcfg Hans.
  unfold WalletService.topUp. rewrite Hty, Ha, Hnum, Hem, Hcfg. cbn [same_type andb negb].
  cbn [num_or_zero default].
  rewrite (bind_step (createPaymentTransaction userId
                        (default 1 (WalletService.currencyId body)) amount deposit card
                        [Status (Some pending)]) _ w (next_id w) _ eq_refl).
  unfold WalletService.cardBranch. cbv zeta.
  erewrite (charge_verified env _ data payment_id success d
              (λ checked decoded,
                 updatePaymentTransaction (next_id w)
                   [OrderId (pd_order_id decoded); PaymentId (Some (r_payment_id checked));
                    Status (Some (StatusMapper.mapPaymentStatus (pd_payment_status decoded)));
                    TransactionData (Some (PaymentData decoded))] ;;;
                 ret (WalletService.CardTopUp (r_success checked) (r_payment_id checked))));
    [| exact Hans].
  reflexivity.
Qed.

Lemma transactionOfCallback_runs (d : DecodedCallbackData) (w : World)
  (t : Transaction) (orderId : string) :
  cb_order_id d = Some orderId →
  find (λ t, bool_decide (tx_order_id t = Some orderId)) (transactions w) = Some t →
  PaymentService.transactionOfCallback d w = (Return t, w).
Proof.
  intros Ho Hfind. unfold PaymentService.transactionOfCallback, getTransactionByOrderId.
  rewrite Ho, bind_gets. by rewrite Hfind.
Qed.

Lemma verifyResponseSignature_runs (env : Env) (data key : string) (w : World) :
  verifyResponseSignature env data (hmac_sha512_hex env key data) (Some key) w
  = (Return tt, w).
Proof. unfold verifyResponseSignature. by rewrite String.eqb_refl. Qed.

Lemma wallet_callback_success_runs (env : Env) (data sign : string)
  (d : DecodedCallbackData) (w : World) (t : Transaction) (orderId : string) :
  verified_callback env data sign d →
  cb_order_id d = Some orderId →
  find (λ t, bool_decide (tx_order_id t = Some orderId)) (transactions w) = Some t →
  cb_operation_status d = Some "success" →
  tx_type t = deposit →
  String.prefix "recurrent_" orderId = false →
  ∃ w',
    WalletService.callback env data sign w = (Return t, w')
    ∧ balances w'
      = <[(tx_user_id t, tx_currency_id t) :=
            match balances w !! (tx_user_id t, tx_currency_id t) with
            | Some current => (current + tx_amount t)%Q
            | None => tx_amount t
            end]> (balances w)
    ∧ transactions w'
      = map (λ x, if (tx_id x =? tx_id t)%nat
                  then apply_fields
                         [OrderId (cb_order_id d); PaymentId (tx_payment_id t);
                          Status (Some completed);
                          TransactionData (Some (CallbackData d))] x
                  else x) (transactions w)
    ∧ user_subscriptions w' = user_subscriptions w
    ∧ (truthy_str (cb_recurrent_token d) = false → payment_tokens w' = payment_tokens w)
    ∧ (truthy_str (cb_recurrent_token d) = true →
       ∃ saved, payment_tokens w' = payment_tokens w ++ [saved]
                ∧ token_user_id saved = tx_user_id t
                ∧ token saved = cb_recurrent_token d).
Proof.
  intros (Hdec & key & Hkey & Hsig) Ho Hfind Hst Hty Hrec.
  unfold WalletService.callback, WalletService.isRecurrentPayment.
  rewrite Hdec, Hkey, <- Hsig.
  rewrite (bind_step _ _ w tt w (verifyResponseSignature_runs env data key w)).
  rewrite (bind_step _ _ w t w (transactionOfCallback_runs d w t orderId Ho Hfind)).
  rewrite Ho, Hst, Hty, Hrec.
  unfold is_str. rewrite !bool_decide_eq_true_2 by done. cbn [andb negb].
  unfold PaymentService.swallow, createToken, depositUserWallet,
    clearUserTransactionsCache, updatePaymentTransaction, updateTransaction.
  unfold_m.
  destruct (truthy_str (cb_recurrent_token d)) eqn:Htok;
    destruct (balances w !! (tx_user_id t, tx_currency_id t)) eqn:Hbal;
    cbn; rewrite ?Hbal; cbn; eexists; (split; [reflexivity |]); cbn;
    repeat split; try done; try (by rewrite Hbal); intros _; eexists; by repeat split.
Qed.

Lemma find_order_new_row (rows : list Transaction) (row : Transaction)
  (orderId : string) :
  (∀ t, t ∈ rows → tx_order_id t ≠ Some orderId) →
  tx_order_id row = Some orderId →
  find (λ t, bool_decide (tx_order_id t = Some orderId)) (rows ++ [row]) = Some row.
Proof.
  intros Hrows Hrow. rewrite find_snoc.
  destruct (find _ rows) as [t |] eqn:E.
  - apply find_some in E as [Hin Ho]. apply bool_decide_eq_true_1 in Ho.
    apply list_elem_of_In in Hin. by destruct (Hrows t Hin).
  - by rewrite bool_decide_eq_true_2.
Qed.

Lemma map_update_new_row (rows : list Transaction) (row : Transaction)
  (f : Transaction → Transaction) :
  (∀ t, t ∈ rows → (tx_id t < tx_id row)%nat) →
  map (λ x, if (tx_id x =? tx_id row)%nat then f x else x) (rows ++ [row])
  = rows ++ [f row].
Proof.
  intros Hrows. rewrite map_app. cbn. rewrite Nat.eqb_refl. f_equal.
  rewrite <- (map_id rows) at 2. apply map_ext_in.
  intros t Ht. apply list_elem_of_In, Hrows in Ht.
  rewrite (proj2 (Nat.eqb_neq (tx_id t) (tx_id row))); [done | lia].
Qed.

(** X16. A top-up by card whose gateway answer verifies changes no balance
    and leaves one new record with the mapped gateway status; the verified
    success callback for its order then credits the user exactly the top-up
    amount, changes no other balance and completes that record. *)
Theorem card_top_up_is_credited_by_its_callback (env : Env) (userId : nat)
  (body : WalletService.TopUpBody) (w : World) (amount : Q)
  (data payment_id : string) (success : bool) (d : DecodedPaymentData)
  (orderId cdata csign : string) (cd : DecodedCallbackData) :
  top_up_by_card env body amount →
  transactions_numbered w →
  verified_answer env (mkCharge ChargeCreate amount None (Some (next_id w)))
    data payment_id success d →
  pd_order_id d = Some orderId →
  order_unused w orderId →
  String.prefix "recurrent_" orderId = false →
  verified_callback env cdata csign cd →
  cb_order_id cd = Some orderId →
  cb_operation_status cd = Some "success" →
  let currencyId := default 1 (WalletService.currencyId body) in
  let r1 := WalletService.topUp env userId body w in
  let r2 := WalletService.callback env cdata csign (snd r1) in
  fst r1 = Return (WalletService.CardTopUp success payment_id)
  ∧ balances (snd r1) = balances w
  ∧ (∃ row, transactions (snd r1) = transactions w ++ [row]
            ∧ tx_id row = next_id w
            ∧ tx_status row
              = Some (StatusMapper.mapPaymentStatus (pd_payment_status d)))
  ∧ (∃ t, fst r2 = Return t ∧ tx_id t = next_id w)
  ∧ (∃ credited,
       balances (snd r2) !! (userId, currencyId) = Some credited
       ∧ (credited == default 0 (balances w !! (userId, currencyId)) + amount)%Q)
  ∧ (∀ k, k ≠ (userId, currencyId) → balances (snd r2) !! k = balances w !! k)
  ∧ (∃ row, transactions (snd r2) = transactions w ++ [row]
            ∧ tx_id row = next_id w ∧ tx_user_id row = userId
            ∧ tx_amount row = amount ∧ tx_type row = deposit
            ∧ tx_status row = Some completed).
Proof.
  intros (Hty & Ha & Hnum & Hem & Hcfg) Hnumbered Hans Ho Hunused Hrec Hcb Hco Hcs.
  cbn zeta.
  rewrite (topUp_card_runs env userId body w amount data payment_id success d
             Hty Ha Hnum Hem Hcfg Hans).
  cbn [fst snd].
  set (currencyId := default 1 (WalletService.currencyId body)).
  set (created := {| tx_id := next_id w; tx_user_id := userId;
                     tx_currency_id := currencyId; tx_amount := amount;
                     tx_type := deposit; tx_source := card;
                     tx_user_subscription_id := None; tx_bar_id := None;
                     tx_status := Some pending; tx_order_id := None;
                     tx_payment_id := None; tx_transaction_data := None;
                     tx_subscription_plan_id := None;
                     tx_subscription_price_id := None |}).
  set (row := apply_fields
                [OrderId (pd_order_id d); PaymentId (Some payment_id);
                 Status (Some (StatusMapper.mapPaymentStatus (pd_payment_status d)));
                 TransactionData (Some (PaymentData d))] created).
  set (w1 := snd (updatePaymentTransaction (next_id w) _ _)).
  assert (Ht1 : transactions w1 = transactions w ++ [row]).
  { subst w1. unfold updatePaymentTransaction.
    apply (updateTransaction_new_row _ _ _ (transactions w) created); [done | done |].
    intros t Ht. apply Hnumbered in Ht. lia. }
  assert (Hb1 : balances w1 = balances w) by done.
  assert (Hfind : find (λ t, bool_decide (tx_order_id t = Some orderId)) (transactions w1)
                  = Some row).
  { rewrite Ht1. apply find_order_new_row; [exact Hunused |]. subst row. cbn.
    by rewrite Ho. }
  destruct (wallet_callback_success_runs env cdata csign cd w1 row orderId
              Hcb Hco Hfind Hcs eq_refl Hrec)
    as (w2 & Hrun & Hb2 & Ht2 & _).
  rewrite Hrun. cbn [fst snd].
  split; [done |]. split; [done |].
  split; [exists row; by repeat split |].
  split; [by exists row |].
  rewrite Hb2, Hb1. split.
  { eexists. split; [apply lookup_insert_eq |].
    change (tx_user_id row) with userId. change (tx_currency_id row) with currencyId.
    change (tx_amount row) with amount.
    destruct (balances w !! (userId, currencyId)); cbn; lra. }
  split.
  { intros k Hk. by rewrite lookup_insert_ne. }
  rewrite Ht2, Ht1.
  rewrite (map_update_new_row (transactions w) row).
  - eexists. split; [reflexivity |]. by repeat split.
  - intros t Ht. apply Hnumbered in Ht. exact Ht.
Qed.

End ChargeRuns.

Lemma card_top_up_is_credited_by_its_callback_witness :
  let env := Checkout.env1 500 "pay_1" in
  let w := Scenario.world0 [] [] [] in
  let r1 := WalletService.topUp env 1 Checkout.cardTopUp w in
  let r2 := WalletService.callback env "topup-ok"
              (Scenario.digest "secret" "topup-ok") (snd r1) in
  fst r1 = Return (WalletService.CardTopUp true "pid-1")
  ∧ balances (snd r1) = balances w
  ∧ ∃ credited, balances (snd r2) !! (1, 1) = Some credited ∧ (credited == 1100)%Q.
Proof.
  cbv zeta.
  destruct (card_top_up_is_credited_by_its_callback (Checkout.env1 500 "pay_1") 1
              Checkout.cardTopUp (Scenario.world0 [] [] []) 100 "created" "pid-1" true
              (Checkout.created "pay_1") "pay_1" "topup-ok"
              (Scenario.digest "secret" "topup-ok")
              (Scenario.callbackOf "pay_1" "success"))
    as (Hr1 & Hb1 & _ & _ & (credited & Hc & Hsum) & _).
  - by repeat split.
  - intros t Ht. by apply elem_of_nil in Ht.
  - exists "secret". by repeat split.
  - reflexivity.
  - intros t Ht. by apply elem_of_nil in Ht.
  - reflexivity.
  - split; [reflexivity |]. by exists "secret".
  - reflexivity.
  - reflexivity.
  - split; [exact Hr1 |]. split; [exact Hb1 |].
    exists credited. split; [exact Hc |]. rewrite Hsum. by vm_compute.
Defined.

Section TokenTopUp.

Lemma wallet_callback_skips_recurrent (env : Env) (data sign : string) (w : World)
  (d : DecodedCallbackData) :
  decodeCallbackData env data = Some d →
  WalletService.isRecurrentPayment d = true →
  balances (snd (WalletService.callback env data sign w)) = balances w
  ∧ payment_tokens (snd (WalletService.callback env data sign w)) = payment_tokens w.
Proof.
  intros Hd Hrec.
  unfold WalletService.callback, PaymentService.transactionOfCallback,
    getTransactionByOrderId, verifyResponseSignature, updatePaymentTransaction,
    updateTransaction.
  rewrite Hd, Hrec. unfold_m. cbn.
  repeat (destruct_scrutinee; cbn); try done.
  all: match goal with H : _ && false = true |- _ => by rewrite andb_false_r in H end.
Qed.

Lemma swallow_deposit_runs (userId currencyId : nat) (amount : Q) (w : World) :
  PaymentService.swallow
    (depositUserWallet userId currencyId amount ;;;
     clearUserTransactionsCache userId) w
  = (Return tt, snd (depositUserWallet userId currencyId amount w)).
Proof.
  unfold PaymentService.swallow, try_catch.
  by rewrite (bind_step _ _ _ tt _ (depositUserWallet_runs _ _ _ _)),
    depositUserWallet_runs.
Qed.

(** X17. A top-up charged to a saved card that the gateway reports as
    successful credits the user the amount at once, changes no other balance
    and leaves one completed deposit record with the gateway's order id; a
    later callback for an order id starting with recurrent_ changes no
    balance. *)
Theorem token_top_up_is_credited_once (env : Env) (userId : nat)
  (body : WalletService.TopUpBody) (w : World) (amount : Q) (tokenId : nat)
  (saved : PaymentToken) (data payment_id : string) (success : bool)
  (d : DecodedPaymentData) :
  top_up_by_token env body amount tokenId →
  transactions_numbered w →
  fst (getPaymentTokenById tokenId userId w) = Return (Some saved) →
  verified_answer env (mkCharge ChargeRecurrent amount (token saved) None)
    data payment_id success d →
  PaymentService.token_payment_successful success d = true →
  let currencyId := default 1 (WalletService.currencyId body) in
  let r := WalletService.topUp env userId body w in
  fst r = Return (WalletService.TokenTopUp true payment_id)
  ∧ (∃ credited,
       balances (snd r) !! (userId, currencyId) = Some credited
       ∧ (credited == default 0 (balances w !! (userId, currencyId)) + amount)%Q)
  ∧ (∀ k, k ≠ (userId, currencyId) → balances (snd r) !! k = balances w !! k)
  ∧ (∃ row, transactions (snd r) = transactions w ++ [row]
            ∧ tx_id row = next_id w ∧ tx_user_id row = userId
            ∧ tx_amount row = amount ∧ tx_type row = deposit
            ∧ tx_order_id row = pd_order_id d
            ∧ tx_status row = Some completed)
  ∧ (∀ cdata csign cd,
       decodeCallbackData env cdata = Some cd →
       WalletService.isRecurrentPayment cd = true →
       balances (snd (WalletService.callback env cdata csign (snd r)))
       = balances (snd r)).
Proof.
  intros (Hty & Ha & Hnum & Hem & Htid & Htid0 & Hcfg) Hnumbered Htok Hans Hok.
  cbn zeta.
  set (currencyId := default 1 (WalletService.currencyId body)).
  assert (Hrun : ∃ w', WalletService.topUp env userId body w
                       = (Return (WalletService.TokenTopUp true payment_id), w')
            ∧ balances w'
              = <[(userId, currencyId) :=
                    match balances w !! (userId, currencyId) with
                    | Some current => (current + amount)%Q
                    | None => amount
                    end]> (balances w)
            ∧ transactions w'
              = map (λ t, if (tx_id t =? next_id w)%nat
                          then apply_fields
                                 [OrderId (pd_order_id d); PaymentId (Some payment_id);
                                  Status (Some completed);
                                  TransactionData (Some (PaymentData d))] t
                          else t)
                  (transactions w ++
                   [{| tx_id := next_id w; tx_user_id := userId;
                       tx_currency_id := currencyId; tx_amount := amount;
                       tx_type := deposit; tx_source := card;
                       tx_user_subscription_id := None; tx_bar_id := None;
                       tx_status := Some pending; tx_order_id := None;
                       tx_payment_id := None; tx_transaction_data := None;
                       tx_subscription_plan_id := None;
                       tx_subscription_price_id := None |}])).
  { unfold WalletService.topUp. rewrite Hty, Ha, Hnum, Hem, Htid, Hcfg.
    cbn [same_type andb negb truthy_id num_or_zero default].
    rewrite (proj2 (Nat.eqb_neq tokenId 0)) by done. cbn [negb].
    rewrite (bind_step (createPaymentTransaction userId currencyId amount deposit card
                          [Status (Some pending)]) _ w (next_id w) _ eq_refl).
    unfold WalletService.tokenBranch. cbn [default].
    rewrite bind_step with (a := Some saved)
      (w1 := snd (createPaymentTransaction userId currencyId amount deposit card
                    [Status (Some pending)] w)).
    2: { unfold getPaymentTokenById, gets in *. cbn in *. congruence. }
    cbv zeta.
    erewrite (charge_verified env _ data payment_id success d
                (λ checked decodedDataToken,
                   (if PaymentService.token_payment_successful (r_success checked)
                         decodedDataToken
                    then PaymentService.swallow
                           (depositUserWallet userId currencyId amount ;;;
                            clearUserTransactionsCache userId)
                    else ret tt) ;;;
                   updatePaymentTransaction (next_id w)
                     [OrderId (pd_order_id decodedDataToken);
                      PaymentId (Some (r_payment_id checked));
                      Status (Some (if PaymentService.token_payment_successful
                                         (r_success checked) decodedDataToken
                                    then completed
                                    else StatusMapper.mapPaymentStatus
                                           (pd_payment_status decodedDataToken)));
                      TransactionData (Some (PaymentData decodedDataToken))] ;;;
                   ret (WalletService.TokenTopUp
                          (PaymentService.token_payment_successful (r_success checked)
                             decodedDataToken)
                          (r_payment_id checked))));
      [| exact Hans].
    cbn [r_success r_payment_id]. rewrite Hok. cbv iota.
    rewrite (bind_step _ _ _ tt _ (swallow_deposit_runs _ _ _ _)).
    rewrite depositUserWallet_runs.
    unfold updatePaymentTransaction, updateTransaction. unfold_m. cbn.
    eexists. by repeat split. }
  destruct Hrun as (w' & Hrun & Hb & Ht). rewrite Hrun. cbn [fst snd].
  split; [done |]. rewrite Hb. split.
  { eexists. split; [apply lookup_insert_eq |].
    destruct (balances w !! (userId, currencyId)); cbn; lra. }
  split; [intros k Hk; by rewrite lookup_insert_ne |]. split.
  { rewrite Ht.
    match goal with |- context [transactions w ++ [?row]] =>
      rewrite (map_update_new_row (transactions w) row) end.
    - eexists. split; [reflexivity |]. repeat split; try done.
      cbn. by destruct (pd_order_id d).
    - intros t Hin. apply Hnumbered in Hin. exact Hin. }
  intros cdata csign cd Hcd Hrec.
  rewrite <- Hb. by destruct (wallet_callback_skips_recurrent env cdata csign w' cd Hcd Hrec).
Qed.

End TokenTopUp.

Lemma token_top_up_is_credited_once_witness :
  let env := Scenario.env0 500 (HttpOk (Scenario.signed "paid")) in
  let w := Scenario.world0 [] [] [Scenario.token0] in
  let r := WalletService.topUp env 1 (Checkout.tokenTopUp 5) w in
  fst r = Return (WalletService.TokenTopUp true "pid-1")
  ∧ ∃ credited, balances (snd r) !! (1, 1) = Some credited ∧ (credited == 1100)%Q.
Proof.
  cbv zeta.
  destruct (token_top_up_is_credited_once
              (Scenario.env0 500 (HttpOk (Scenario.signed "paid"))) 1
              (Checkout.tokenTopUp 5) (Scenario.world0 [] [] [Scenario.token0]) 100 5
              Scenario.token0 "paid" "pid-1" true (Scenario.paymentOf "success"))
    as (Hr & (credited & Hc & Hsum) & _).
  - by repeat split.
  - intros t Ht. by apply elem_of_nil in Ht.
  - reflexivity.
  - exists "secret". by repeat split.
  - reflexivity.
  - split; [exact Hr |].
    exists credited. split; [exact Hc |]. rewrite Hsum. by vm_compute.
Defined.

Section CardPurchase.

Lemma createPayment_admitted (env : Env) (userId : nat)
  (body : PaymentService.CreatePaymentBody) (w : World)
  (paymentType : PaymentType) (barId : string) (bar : BarData) (price : Q) :
  purchase_admitted env userId body w paymentType barId bar price →
  PaymentService.createPayment env userId body w
  = purchase_switch env userId body paymentType barId bar price w.
Proof.
  intros (Hpt & Hem & Hbar & Hne & Hget & Hmon & (o & Ho & Ho0 & Hact)
          & (code & Hdet & Hcode) & Hprice & Hnot & Htok).
  unfold PaymentService.createPayment, purchase_switch.
  rewrite Hpt, Hem, Hbar, (proj2 (String.eqb_neq barId "")) by done.
  rewrite Hget, Hmon, Ho. cbn [negb truthy_id].
  rewrite (proj2 (Nat.eqb_neq o 0)) by done. cbn [negb default].
  rewrite (bind_step (hasActiveSubscription (clock env) o) _ w true w).
  2: { unfold hasActiveSubscription, gets in *. cbn in *. congruence. }
  cbn [negb]. rewrite Hdet, Hprice, Hcode. cbn [orb negb].
  rewrite (bind_step (hasUserPurchasedBar userId barId) _ w false w).
  2: { unfold hasUserPurchasedBar, gets in *. cbn in *. congruence. }
  destruct paymentType; cbn [same_type andb]; try reflexivity.
  by rewrite (Htok eq_refl).
Qed.

Lemma payment_callback_success_runs (env : Env) (data sign : string)
  (d : DecodedCallbackData) (w : World) (t : Transaction) (orderId barId : string)
  (payer : PayerInfo) (bar : BarData) :
  verified_callback env data sign d →
  cb_order_id d = Some orderId →
  find (λ t, bool_decide (tx_order_id t = Some orderId)) (transactions w) = Some t →
  cb_operation_status d = Some "success" →
  cb_payer_info d = Some payer →
  tx_bar_id t = Some barId → barId ≠ "" →
  tx_status t ≠ Some completed →
  getBarById env barId = Some bar →
  PaymentService.callback env data sign w
  = (Return t,
     snd (PaymentService.swallow
            (PaymentService.creditOwnerOf env (bar_profile_id bar) (tx_amount t)
               (tx_currency_id t) card
               [Status (Some completed); BarId (Some barId);
                OrderId (cb_order_id d); PaymentId (Some (cb_payment_id d))])
            (snd (updatePaymentTransaction (tx_id t)
                    [OrderId (cb_order_id d); PaymentId (Some (cb_payment_id d));
                     Status (Some completed);
                     TransactionData (Some (CallbackData d))]
                    (snd (createToken (clock env) (tx_user_id t)
                            (cb_recurrent_token d) (cb_payment_date d) (cb_amount d)
                            (pan_masked payer) w)))))).
Proof.
  intros (Hdec & key & Hkey & Hsig) Ho Hfind Hst Hpayer Hbar Hne Hnc Hget.
  unfold PaymentService.callback.
  rewrite Hdec, Hkey, <- Hsig.
  rewrite (bind_step _ _ w tt w (verifyResponseSignature_runs env data key w)).
  rewrite (bind_step _ _ w t w (transactionOfCallback_runs d w t orderId Ho Hfind)).
  rewrite Hst, Hpayer, Hbar.
  unfold is_str. rewrite bool_decide_eq_true_2 by done.
  rewrite (proj2 (String.eqb_neq barId "")) by done.
  rewrite bool_decide_eq_false_2 by done. cbn [negb andb]. rewrite Hget.
  destruct (creditOwnerOf_runs env (bar_profile_id bar) (tx_amount t) (tx_currency_id t)
              card [Status (Some completed); BarId (Some barId);
                    OrderId (cb_order_id d); PaymentId (Some (cb_payment_id d))]
              (snd (updatePaymentTransaction (tx_id t)
                      [OrderId (cb_order_id d); PaymentId (Some (cb_payment_id d));
                       Status (Some completed);
                       TransactionData (Some (CallbackData d))]
                      (snd (createToken (clock env) (tx_user_id t)
                              (cb_recurrent_token d) (cb_payment_date d) (cb_amount d)
                              (pan_masked payer) w)))))
    as (w3 & Hcredit & _).
  rewrite Hcredit. cbn [snd].
  unfold createToken, updatePaymentTransaction, updateTransaction,
    clearUserTransactionsCache in *.
  unfold_m. cbn in *. by rewrite Hcredit.
Qed.

(** X18. A purchase by card whose gateway answer verifies and is not yet
    completed changes no balance and does not count as purchased; the
    verified success callback for its order makes the bar purchased, credits
    the bar's owner the price less the platform fee, changes no other
    balance and saves the payer's card token for the buyer. *)
Theorem card_purchase_is_settled_by_its_callback (env : Env) (userId : nat)
  (body : PaymentService.CreatePaymentBody) (w : World)
  (barId : string) (bar : BarData) (price : Q)
  (data payment_id : string) (success : bool) (d : DecodedPaymentData)
  (orderId cdata csign : string) (cd : DecodedCallbackData) (payer : PayerInfo)
  (owner : ProfileData) :
  purchase_admitted env userId body w PTCard barId bar price →
  PaymentService.config_ok_card (paymentConfig env) = true →
  transactions_numbered w →
  verified_answer env (mkCharge ChargeCreate price None (Some (next_id w)))
    data payment_id success d →
  pd_order_id d = Some orderId →
  order_unused w orderId →
  StatusMapper.mapPaymentStatus (pd_payment_status d) ≠ completed →
  verified_callback env cdata csign cd →
  cb_order_id cd = Some orderId →
  cb_operation_status cd = Some "success" →
  cb_payer_info cd = Some payer →
  getProfileById env (bar_profile_id bar) = Some owner →
  let currencyId := default 1 (PaymentService.currency_id body) in
  let net := finalAmount (calculateFee (platform_fees w) price currencyId) in
  let r1 := PaymentService.createPayment env userId body w in
  let r2 := PaymentService.callback env cdata csign (snd r1) in
  fst r1 = Return (PaymentService.PaidByCard success payment_id)
  ∧ balances (snd r1) = balances w
  ∧ fst (hasUserPurchasedBar userId barId (snd r1)) = Return false
  ∧ (∃ t, fst r2 = Return t ∧ tx_id t = next_id w ∧ tx_user_id t = userId)
  ∧ fst (hasUserPurchasedBar userId barId (snd r2)) = Return true
  ∧ (∃ credited,
       balances (snd r2) !! (profile_user_id owner, currencyId) = Some credited
       ∧ (credited
          == default 0 (balances w !! (profile_user_id owner, currencyId)) + net)%Q)
  ∧ (∀ k, k ≠ (profile_user_id owner, currencyId) →
          balances (snd r2) !! k = balances w !! k)
  ∧ (∃ saved, payment_tokens (snd r2) = payment_tokens w ++ [saved]
              ∧ token_user_id saved = userId
              ∧ token saved = cb_recurrent_token cd
              ∧ token_pan_masked saved = pan_masked payer).
Proof.
  intros Hadm Hcfg Hnumbered Hans Ho Hunused Hnc Hcb Hco Hcs Hpayer Howner.
  cbn zeta.
  rewrite (createPayment_admitted env userId body w PTCard barId bar price Hadm).
  destruct Hadm as (_ & _ & _ & Hne & Hget & _ & _ & _ & _ & Hnot & _).
  set (currencyId := default 1 (PaymentService.currency_id body)).
  set (created := {| tx_id := next_id w; tx_user_id := userId;
                     tx_currency_id := currencyId; tx_amount := price;
                     tx_type := withdraw; tx_source := card;
                     tx_user_subscription_id := None; tx_bar_id := Some barId;
                     tx_status := Some pending; tx_order_id := None;
                     tx_payment_id := None; tx_transaction_data := None;
                     tx_subscription_plan_id := None;
                     tx_subscription_price_id := None |}).
  set (row := apply_fields
                [OrderId (pd_order_id d); PaymentId (Some payment_id);
                 Status (Some (StatusMapper.mapPaymentStatus (pd_payment_status d)));
                 TransactionData (Some (PaymentData d))] created).
  assert (Hrun : ∃ w1,
            purchase_switch env userId body PTCard barId bar price w
            = (Return (PaymentService.PaidByCard success payment_id), w1)
            ∧ transactions w1 = transactions w ++ [row]
            ∧ balances w1 = balances w
            ∧ payment_tokens w1 = payment_tokens w
            ∧ platform_fees w1 = platform_fees w
            ∧ next_id w1 = S (next_id w)).
  { unfold purchase_switch. cbn [same_type]. cbv zeta.
    rewrite bind_step with (a := Some (next_id w))
      (w1 := snd (createPaymentTransaction userId currencyId price withdraw card
                    [Status (Some pending); BarId (Some barId)] w)) by reflexivity.
    unfold PaymentService.cardCase. rewrite Hcfg. cbn [negb]. cbv zeta.
    erewrite (charge_verified env _ data payment_id success d
                (λ checked decodedData,
                   updatePaymentTransaction (next_id w)
                     [OrderId (pd_order_id decodedData);
                      PaymentId (Some (r_payment_id checked));
                      Status (Some (StatusMapper.mapPaymentStatus
                                      (pd_payment_status decodedData)));
                      TransactionData (Some (PaymentData decodedData))] ;;;
                   ret (PaymentService.PaidByCard (r_success checked)
                          (r_payment_id checked))));
      [| exact Hans].
    eexists. split; [reflexivity |]. split; [| done].
    unfold updatePaymentTransaction.
    apply (updateTransaction_new_row _ _ _ (transactions w) created); [done | done |].
    intros t Ht. apply Hnumbered in Ht. lia. }
  destruct Hrun as (w1 & -> & Ht1 & Hb1 & Htok1 & Hf1 & Hn1). cbn [fst snd].
  assert (Hrowst : tx_status row ≠ Some completed) by (subst row; cbn; congruence).
  assert (Hfind : find (λ t, bool_decide (tx_order_id t = Some orderId)) (transactions w1)
                  = Some row).
  { rewrite Ht1. apply find_order_new_row; [exact Hunused |]. subst row. cbn.
    by rewrite Ho. }
  rewrite (payment_callback_success_runs env cdata csign cd w1 row orderId barId payer bar
             Hcb Hco Hfind Hcs Hpayer eq_refl Hne Hrowst Hget).
  cbn [fst snd].
  set (w2 := snd (updatePaymentTransaction (tx_id row) _ _)).
  assert (Ht2 : transactions w2
                = transactions w ++
                  [apply_fields
                     [OrderId (cb_order_id cd); PaymentId (Some (cb_payment_id cd));
                      Status (Some completed);
                      TransactionData (Some (CallbackData cd))] row]).
  { subst w2. cbn [snd]. unfold updatePaymentTransaction, updateTransaction, createToken.
    unfold_m. unfold modify.
    cbn [snd transactions set_transactions record_effect set_payment_tokens bump_id].
    rewrite Ht1. apply map_update_new_row. intros t Ht. apply Hnumbered in Ht.
    exact Ht. }
  destruct (creditOwnerOf_runs env (bar_profile_id bar) (tx_amount row)
              (tx_currency_id row) card
              [Status (Some completed); BarId (Some barId);
               OrderId (cb_order_id cd); PaymentId (Some (cb_payment_id cd))] w2)
    as (w3 & Hcredit & _ & _ & Htok3 & _ & _ & Hrows).
  rewrite Hcredit. cbn [snd]. rewrite Howner in Hrows.
  destruct Hrows as (Hb3 & orow & Ht3 & _).
  split; [done |]. split; [done |]. split.
  { unfold hasUserPurchasedBar, gets in *. cbn [fst] in *. f_equal.
    rewrite Ht1, existsb_app. injection Hnot as ->. cbn.
    rewrite (bool_decide_eq_false_2 (_ = Some completed)) by (subst row; cbn; congruence).
    by rewrite !andb_false_r. }
  split; [exists row; by repeat split |]. split.
  { unfold hasUserPurchasedBar, gets. cbn [fst]. f_equal.
    rewrite Ht3, Ht2, !existsb_app. cbn.
    rewrite Nat.eqb_refl, !bool_decide_eq_true_2 by done. cbn.
    by rewrite orb_true_r. }
  assert (Hb2 : balances w2 = balances w) by (subst w2; cbn; exact Hb1).
  assert (Hf2 : platform_fees w2 = platform_fees w) by (subst w2; cbn; exact Hf1).
  rewrite Hb3, Hb2, Hf2.
  change (tx_amount row) with price. change (tx_currency_id row) with currencyId.
  split.
  { eexists. split; [apply lookup_insert_eq |].
    destruct (balances w !! (profile_user_id owner, currencyId)); cbn; lra. }
  split; [intros k Hk; by rewrite lookup_insert_ne |].
  rewrite Htok3. subst w2. cbn. rewrite Htok1. eexists. by repeat split.
Qed.

End CardPurchase.

Lemma card_purchase_is_settled_by_its_callback_witness :
  let env := Checkout.env1 500 "pay_3" in
  let w := Scenario.world0 Scenario.fees0 [] [] in
  let r1 := PaymentService.createPayment env 1 Scenario.cardPurchase w in
  let r2 := PaymentService.callback env "bar-ok"
              (Scenario.digest "secret" "bar-ok") (snd r1) in
  fst r1 = Return (PaymentService.PaidByCard true "pid-1")
  ∧ fst (hasUserPurchasedBar 1 "7" (snd r1)) = Return false
  ∧ fst (hasUserPurchasedBar 1 "7" (snd r2)) = Return true
  ∧ ∃ credited, balances (snd r2) !! (2, 1) = Some credited ∧ (credited == 475)%Q.
Proof.
  cbv zeta.
  destruct (card_purchase_is_settled_by_its_callback (Checkout.env1 500 "pay_3") 1
              Scenario.cardPurchase (Scenario.world0 Scenario.fees0 [] [])
              "7" (mkBar "p7" true (Some (Some 500%Q, Some "KZT"))) 500
              "created" "pid-1" true (Checkout.created "pay_3") "pay_3" "bar-ok"
              (Scenario.digest "secret" "bar-ok")
              (Scenario.callbackOf "pay_3" "success")
              (mkPayerInfo (Some "4400-xx-1234")) (mkProfile 2))
    as (Hr1 & _ & Hnot & _ & Hbought & (credited & Hc & Hsum) & _).
  - repeat split; try done.
    + exists 2. by repeat split.
    + by exists (Some "KZT").
  - reflexivity.
  - intros t Ht. by apply elem_of_nil in Ht.
  - exists "secret". by repeat split.
  - reflexivity.
  - intros t Ht. by apply elem_of_nil in Ht.
  - by vm_compute.
  - split; [reflexivity |]. by exists "secret".
  - reflexivity.
  - reflexivity.
  - reflexivity.
  - reflexivity.
  - split; [exact Hr1 |]. split; [exact Hnot |]. split; [exact Hbought |].
    exists credited. split; [exact Hc |]. rewrite Hsum. by vm_compute.
Defined.

Section PlanPurchaseFrames.
Context (R : World → World → Prop) `{!Frame R}.

Ltac respect_more :=
  repeat first
    [ apply (respects_depositUserWallet R _) | apply (respects_deductWith R _)
    | apply (respects_checkUserBalance R _) | apply (respects_createTransaction R _)
    | apply (respects_updateTransaction R _) | apply (respects_createToken R _)
    | apply (respects_createSubscription R _) | apply (respects_send R _)
    | apply (respects_required_fields R _) | apply (respects_verify R _)
    | apply (respects_parse R _)
    | apply (respects_ret R _) | apply (respects_throw R _) | apply (respects_gets R _)
    | apply (respects_log R _) | apply (respects_fresh_id R _)
    | apply (respects_set_balances R _) | apply (respects_set_transactions R _)
    | apply (respects_set_payment_tokens R _)
    | apply (respects_transaction R _) | apply (respects_try_catch R _)
    | apply (respects_bind R _)
    | match goal with
      | |- respects _ (match ?x with _ => _ end) => destruct x
      | |- ∀ _, _ => intros ?
      end
    | progress cbv zeta ].

Lemma respects_deleteSubscription id : respects R (deleteSubscription id).
Proof.
  unfold deleteSubscription.
  apply (respects_bind R _); [apply (respects_gets R _) | intros n].
  apply (respects_bind R _); [| intros; apply (respects_ret R _)].
  intros w. apply (frame_cleanup (λ s, sub_id s ≠ id)).
Qed.

Lemma respects_plan_walletCase env u planId planPrice txId :
  respects R (subscriptionService.walletCase env u planId planPrice txId).
Proof.
  unfold subscriptionService.walletCase, deductUserWalletForSubscription,
    updatePaymentTransaction.
  repeat first [apply respects_deleteSubscription | respect_more].
Qed.

Lemma respects_plan_tokenCase env u planId planPrice tokenId txId :
  respects R (subscriptionService.tokenCase env u planId planPrice tokenId txId).
Proof.
  unfold subscriptionService.tokenCase, getPaymentTokenById, updatePaymentTransaction.
  respect_more.
Qed.

Lemma respects_plan_cardCase env planPrice txId :
  respects R (subscriptionService.cardCase env planPrice txId).
Proof.
  unfold subscriptionService.cardCase, updatePaymentTransaction. respect_more.
Qed.

End PlanPurchaseFrames.

Section PlanPurchase.

#[local] Existing Instance journal_extends_frame.

(** X19. subscriptionService.create either throws with nothing changed, or
    its first effect is the creation of a pending transaction record and the
    requested plan price exists; unlike a bar purchase this holds for
    payment from the wallet too. *)
Theorem plan_purchase_starts_pending (env : Env) (userId : nat)
  (body : subscriptionService.CreateSubscriptionBody) (w : World) :
  let r := subscriptionService.create env userId body w in
  ((∃ e, fst r = Throw e) ∧ snd r = w)
  ∨ (pending_first w (snd r)
     ∧ ∃ planPrice,
         fst (getSubscriptionPlanPrice (default 0 (subscriptionService.plan_id body))
                (default 0 (subscriptionService.price_id body)) w)
         = Return (Some planPrice)).
Proof.
  cbn zeta. unfold subscriptionService.create.
  destruct (subscriptionService.payment_type body) as [pt |]; [| left; by split; [eexists |]].
  destruct (truthy_id (subscriptionService.plan_id body)); [| left; by split; [eexists |]].
  destruct (truthy_id (subscriptionService.price_id body)); [| left; by split; [eexists |]].
  cbv zeta.
  destruct (same_type pt PTToken && negb (truthy_id (subscriptionService.token_id body)));
    [left; by split; [eexists |] |].
  assert (Hq : ∃ o, getSubscriptionPlanPrice
                      (default 0 (subscriptionService.plan_id body))
                      (default 0 (subscriptionService.price_id body)) w = (Return o, w))
    by (by eexists).
  destruct Hq as [[planPrice |] Hq]; rewrite (bind_step _ _ w _ w Hq), Hq;
    [| left; by split; [eexists |]].
  right.
  set (src := if same_type pt PTWallet then wallet else card).
  set (fields := [Status (Some pending); SubscriptionPlanId _; SubscriptionPriceId _]).
  set (w1 := snd (createPaymentTransaction userId (price_currency_id planPrice)
                    (price planPrice) subscription src fields w)).
  rewrite (bind_step (createPaymentTransaction userId (price_currency_id planPrice)
                        (price planPrice) subscription src fields) _ w (next_id w) w1
             eq_refl).
  assert (Hj1 : journal w1 = journal w ++ [TxCreated (next_id w) (Some pending)]) by done.
  assert (Hrest : ∃ rest, journal (snd (match pt with
             | PTWallet => subscriptionService.walletCase env userId
                             (default 0 (subscriptionService.plan_id body)) planPrice
                             (next_id w)
             | PTToken => subscriptionService.tokenCase env userId
                            (default 0 (subscriptionService.plan_id body)) planPrice
                            (subscriptionService.token_id body) (next_id w)
             | PTCard => subscriptionService.cardCase env planPrice (next_id w)
             | PTOther => throw (Some 400)
                 "Invalid payment_type. Must be 'wallet', 'token', or 'card'"
             end w1)) = journal w1 ++ rest).
  { destruct pt.
    - apply (respects_plan_walletCase journal_extends _).
    - apply (respects_plan_tokenCase journal_extends _).
    - apply (respects_plan_cardCase journal_extends _).
    - exists []. by rewrite app_nil_r. }
  destruct Hrest as [rest Hrest].
  assert (Hnew : new_effects w (snd (match pt with
             | PTWallet => subscriptionService.walletCase env userId
                             (default 0 (subscriptionService.plan_id body)) planPrice
                             (next_id w)
             | PTToken => subscriptionService.tokenCase env userId
                            (default 0 (subscriptionService.plan_id body)) planPrice
                            (subscriptionService.token_id body) (next_id w)
             | PTCard => subscriptionService.cardCase env planPrice (next_id w)
             | PTOther => throw (Some 400)
                 "Invalid payment_type. Must be 'wallet', 'token', or 'card'"
             end w1)) = TxCreated (next_id w) (Some pending) :: rest).
  { unfold new_effects. rewrite Hrest, Hj1, <- app_assoc. by rewrite drop_app_length. }
  split; [by exists rest | by exists planPrice].
Qed.

Lemma createSubscription_runs (clk : Clock) (userId planId : nat) (auto : bool)
  (method : TxSource) (pan : option string) (w : World) (plan : SubscriptionPlan)
  (period : Period) :
  find_plan w planId = Some plan →
  plan_period plan = Some period →
  userId ∈ users w →
  createSubscription clk userId planId auto method pan w
  = (Return (mkSubscription (next_id w) userId planId auto method pan
               (plus_period clk (now clk) period)),
     record_effect (SubscriptionCreated (next_id w))
       (set_user_subscriptions
          (λ l, l ++ [mkSubscription (next_id w) userId planId auto method pan
                        (plus_period clk (now clk) period)])
          (bump_id w))).
Proof.
  intros Hplan Hperiod Huser. unfold createSubscription, transaction.
  rewrite bind_gets, Hplan, bind_gets, bool_decide_eq_true_2 by done.
  cbn [negb]. by rewrite Hperiod.
Qed.

Lemma getSubscriptionPlanPrice_Some (planId priceId : nat) (w : World)
  (planPrice : PlanPrice) :
  fst (getSubscriptionPlanPrice planId priceId w) = Return (Some planPrice) →
  price_id planPrice = priceId
  ∧ price_plan_id planPrice = planId
  ∧ price_currency_id planPrice ∈ currencies w
  ∧ planPrice ∈ subscription_plans_prices w
  ∧ ∃ plan, find_plan w planId = Some plan ∧ plan_id plan = planId.
Proof.
  unfold getSubscriptionPlanPrice, gets. cbn [fst]. intros [= H].
  destruct (find_plan w planId) as [plan |] eqn:Hplan; [| done]. cbn in H.
  destruct (find _ (subscription_plans_prices w)) as [pr |] eqn:Hpr; [| done].
  cbn in H. case_bool_decide as Hc; [| done]. injection H as <-.
  apply find_some in Hpr as [Hin Hb]. apply andb_true_iff in Hb as [H1 H2].
  apply Nat.eqb_eq in H1, H2.
  assert (Hid : plan_id plan = planId).
  { unfold find_plan in Hplan. apply find_some in Hplan as [_ Hb].
    by apply Nat.eqb_eq in Hb. }
  repeat split; try done; [congruence | by apply list_elem_of_In | by exists plan].
Qed.

Lemma deductWith_runs (userId currencyId : nat) (amount : Q)
  (row : nat → Transaction) (w : World) (current : Q) :
  balances w !! (userId, currencyId) = Some current →
  (amount <= current)%Q →
  deductWith userId currencyId amount row w
  = (Return (Deducted (next_id w)),
     record_effect (TxCreated (next_id w) (Some completed))
       (set_transactions (λ l, l ++ [row (next_id w)])
          (bump_id
             (record_effect (BalanceWritten userId currencyId)
                (set_balances (insert (userId, currencyId) (current - amount)%Q) w))))).
Proof.
  intros Hb Hle. unfold deductWith, transaction, bind, gets.
  rewrite Hb. apply Qlt_bool_false in Hle. by rewrite Hle.
Qed.

(** X20. A plan purchase from the wallet by a known user whose balance
    covers the price debits exactly the plan price, once, creates an auto-
    renewing wallet subscription that expires one plan period from now, and
    leaves two completed subscription records for it: the record of the
    attempt and the ledger row of the debit. *)
Theorem wallet_plan_purchase_subscribes_and_debits (env : Env) (userId : nat)
  (body : subscriptionService.CreateSubscriptionBody) (w : World)
  (planId priceId : nat) (planPrice : PlanPrice) (plan : SubscriptionPlan)
  (period : Period) (current : Q) :
  plan_from_wallet body planId priceId →
  transactions_numbered w →
  fst (getSubscriptionPlanPrice planId priceId w) = Return (Some planPrice) →
  find_plan w planId = Some plan →
  plan_period plan = Some period →
  userId ∈ users w →
  balances w !! (userId, price_currency_id planPrice) = Some current →
  (price planPrice <= current)%Q →
  let r := subscriptionService.create env userId body w in
  let created :=
    mkSubscription (S (next_id w)) userId planId true wallet None
      (plus_period (clock env) (now (clock env)) period) in
  fst r = Return (subscriptionService.PaidByWallet (S (next_id w))
                    (Some (S (S (next_id w)))) (price planPrice)
                    (current - price planPrice)%Q)
  ∧ balances (snd r)
    = <[(userId, price_currency_id planPrice) := (current - price planPrice)%Q]>
        (balances w)
  ∧ user_subscriptions (snd r) = user_subscriptions w ++ [created]
  ∧ length (filter (λ e, is_balance_write e = true) (new_effects w (snd r))) = 1
  ∧ ∃ attempt ledger,
      transactions (snd r) = transactions w ++ [attempt; ledger]
      ∧ tx_id attempt = next_id w ∧ tx_id ledger = S (S (next_id w))
      ∧ Forall (λ t, tx_user_id t = userId
                     ∧ tx_amount t = price planPrice
                     ∧ tx_type t = subscription
                     ∧ tx_source t = wallet
                     ∧ tx_status t = Some completed
                     ∧ tx_user_subscription_id t = Some (S (next_id w)))
          [attempt; ledger].
Proof.
  intros (Hpt & Hplan & Hplan0 & Hprice & Hprice0) Hnumbered Hpp Hfind Hperiod Huser
    Hbal Hle.
  destruct (getSubscriptionPlanPrice_Some planId priceId w planPrice Hpp)
    as (_ & _ & Hcur & _ & _).
  cbn zeta. unfold subscriptionService.create.
  rewrite Hpt, Hplan, Hprice. cbn [truthy_id default same_type andb].
  rewrite (proj2 (Nat.eqb_neq planId 0)), (proj2 (Nat.eqb_neq priceId 0)) by done.
  cbn [negb].
  rewrite (bind_step (getSubscriptionPlanPrice planId priceId) _ w (Some planPrice) w).
  2: { unfold getSubscriptionPlanPrice, gets in *. cbn in *. congruence. }
  set (fields := [Status (Some pending); SubscriptionPlanId (Some planId);
                  SubscriptionPriceId (Some priceId)]).
  set (w1 := snd (createPaymentTransaction userId (price_currency_id planPrice)
                    (price planPrice) subscription wallet fields w)).
  rewrite (bind_step (createPaymentTransaction userId (price_currency_id planPrice)
                        (price planPrice) subscription wallet fields)
             _ w (next_id w) w1 eq_refl).
  unfold subscriptionService.walletCase. cbv zeta.
  rewrite (bind_step _ _ w1 _ w1 (checkUserBalance_runs _ _ _ w1)).
  change (currencies w1) with (currencies w). change (balances w1) with (balances w).
  rewrite bool_decide_eq_true_2, Hbal by done.
  cbn [hasEnoughBalance currentBalance].
  rewrite (proj2 (Qle_bool_iff _ _) Hle). cbn [negb].
  rewrite (bind_step _ _ w1 _ _
             (createSubscription_runs (clock env) userId planId true wallet None w1
                plan period Hfind Hperiod Huser)).
  cbn [sub_id].
  erewrite bind_step by (apply (deductWith_runs _ _ _ _ _ current); [exact Hbal | exact Hle]).
  unfold updatePaymentTransaction, updateTransaction. unfold_m. unfold modify.
  cbn -[Nat.eqb].
  rewrite !map_app. cbn -[Nat.eqb]. rewrite Nat.eqb_refl.
  rewrite (proj2 (Nat.eqb_neq (S (S (next_id w))) (next_id w))) by lia.
  replace (map _ (transactions w)) with (transactions w).
  2: { rewrite <- (map_id (transactions w)) at 1. apply map_ext_in.
       intros t Ht. apply list_elem_of_In, Hnumbered in Ht.
       rewrite (proj2 (Nat.eqb_neq (tx_id t) (next_id w))); [done | lia]. }
  split; [done |]. split; [done |]. split; [done |]. split.
  { unfold new_effects. cbn. rewrite <- !app_assoc. by rewrite drop_app_length. }
  eexists _, _. rewrite <- app_assoc. split; [reflexivity |].
  split; [done |]. split; [done |]. by repeat constructor.
Qed.

End PlanPurchase.

Lemma wallet_plan_purchase_subscribes_and_debits_witness :
  let env := Scenario.env0 500 HttpFailed in
  let w := Scenario.world0 [] [] [] in
  let r := subscriptionService.create env 1 Checkout.walletPlan w in
  fst r = Return (subscriptionService.PaidByWallet 11 (Some 12) 300 (1000 - 300))
  ∧ balances (snd r) !! (1, 1) = Some (1000 - 300)%Q
  ∧ user_subscriptions (snd r)
    = user_subscriptions w ++ [mkSubscription 11 1 1 true wallet None 130].
Proof.
  cbv zeta.
  destruct (wallet_plan_purchase_subscribes_and_debits (Scenario.env0 500 HttpFailed) 1
              Checkout.walletPlan (Scenario.world0 [] [] []) 1 1
              (mkPlanPrice 1 1 1 300%Q) (mkPlan 1 (Some monthly)) monthly 1000)
    as (Hr & Hb & Hs & _).
  - by repeat split.
  - intros t Ht. by apply elem_of_nil in Ht.
  - reflexivity.
  - reflexivity.
  - reflexivity.
  - by constructor.
  - reflexivity.
  - by vm_compute.
  - split; [exact Hr |]. split; [| exact Hs].
    rewrite Hb. apply lookup_insert_eq.
Defined.

Section CancelProperties.
Import SubscriptionRenewalService.

Lemma existsb_map_same {A} (P : A → bool) (g : A → A) (l : list A) :
  (∀ x, P (g x) = P x) → existsb P (map g l) = existsb P l.
Proof.
  intros H. induction l as [| x l IH]; [done |]. cbn. by rewrite H, IH.
Qed.


(** A candidate of the renewal run comes from a subscription row whose
    auto-renewal is on. *)
Lemma expiring_rows_auto (clk : Clock) (w : World) (c : ExpiringSubscription) :
  c ∈ expiring_rows clk w →
  ∃ us, us ∈ user_subscriptions w ∧ is_auto_renewal us = true
        ∧ subscription_id c = sub_id us.
Proof.
  unfold expiring_rows. intros Hc.
  apply list_elem_of_bind in Hc as (us & Hc & Hus).
  exists us. split; [done |].
  destruct (is_auto_renewal us) eqn:Hauto; cbn [andb] in Hc;
    [| by apply elem_of_nil in Hc].
  split; [done |].
  destruct ((now clk <? expired_at us)%nat
            && (expired_at us <=? plus_24_hours clk (now clk))%nat);
    [| by apply elem_of_nil in Hc].
  apply list_elem_of_bind in Hc as (sp & Hc & _).
  destruct (filter (λ p, price_plan_id p = plan_id sp) (subscription_plans_prices w)).
  - apply list_elem_of_singleton in Hc. by subst c.
  - apply list_elem_of_fmap in Hc as (spp & -> & _). done.
Qed.

Lemma renewal_off_not_expiring (clk : Clock) (w : World) (id : nat) :
  renewal_off id w →
  ∀ c, c ∈ expiring_rows clk w → subscription_id c ≠ id.
Proof.
  intros Hoff c Hc Hid.
  destruct (expiring_rows_auto clk w c Hc) as (us & Hus & Hauto & Heq).
  rewrite (Hoff us Hus) in Hauto; [done | congruence].
Qed.

Lemma disable_map_off (id : nat) (l : list UserSubscription) (w : World) :
  user_subscriptions w
  = map (λ x, if (sub_id x =? id)%nat then disable x else x) l →
  renewal_off id w.
Proof.
  intros Hw s Hs Hid. rewrite Hw in Hs.
  apply list_elem_of_fmap in Hs as (x & -> & _).
  destruct (sub_id x =? id)%nat eqn:E; [done |].
  apply Nat.eqb_neq in E. by destruct E.
Qed.

Lemma existsb_find {A} (P : A → bool) (l : list A) :
  existsb P l = bool_decide (is_Some (find P l)).
Proof.
  induction l as [| x l IH]; [done |]. cbn. destruct (P x); [| exact IH].
  symmetry. apply bool_decide_eq_true_2. by eexists.
Qed.

Lemma cancelSubscription_runs (clk : Clock) (userId : nat) (w : World) :
  cancelSubscription clk userId w
  = match activeSubscriptionOf clk userId w with
    | None =>
        (Throw (mkExn None ("No active subscription found for user " +:+ pretty userId)),
         w)
    | Some s =>
        (Return true,
         record_effect (AutoRenewalDisabled (sub_id s))
           (set_user_subscriptions
              (map (λ x, if (sub_id x =? sub_id s)%nat then disable x else x)) w))
    end.
Proof.
  unfold cancelSubscription, transaction. rewrite bind_gets.
  destruct (activeSubscriptionOf clk userId w) as [s |] eqn:Hs; [| done].
  rewrite bind_gets.
  assert (Hrows : (0 <? length (filter (λ x, sub_id x = sub_id s)
                                       (user_subscriptions w)))%nat = true).
  { apply Nat.ltb_lt. unfold activeSubscriptionOf in Hs.
    apply find_some in Hs as [Hin _]. apply list_elem_of_In in Hin.
    assert (Hf : s ∈ filter (λ x, sub_id x = sub_id s) (user_subscriptions w))
      by (by apply list_elem_of_filter).
    apply list_elem_of_lookup in Hf as [i Hi]. apply lookup_lt_Some in Hi. lia. }
  rewrite Hrows. reflexivity.
Qed.

(** X21. subscriptionService.cancel throws 404 with nothing changed when the
    user has no active subscription; when it succeeds it has only switched
    off the auto-renewal of the user's active subscription: no expiry,
    balance or record changes, the user still has an active subscription,
    and that subscription is no longer a candidate of the renewal run. *)
Theorem cancelled_subscription_keeps_access_but_is_not_renewed (env : Env)
  (userId : nat) (w : World) :
  let r := subscriptionService.cancel env userId w in
  (fst (hasActiveSubscription (clock env) userId w) = Return false →
     r = (Throw (mkExn (Some 404) "No active subscription found"), w))
  ∧ (∀ answer, fst r = Return answer →
       ∃ s, activeSubscriptionOf (clock env) userId w = Some s
            ∧ user_subscriptions (snd r)
              = map (λ x, if (sub_id x =? sub_id s)%nat then disable x else x)
                  (user_subscriptions w)
            ∧ map expired_at (user_subscriptions (snd r))
              = map expired_at (user_subscriptions w)
            ∧ fst (hasActiveSubscription (clock env) userId (snd r)) = Return true
            ∧ (∀ c, c ∈ expiring_rows (clock env) (snd r) →
                    subscription_id c ≠ sub_id s)
            ∧ balances (snd r) = balances w
            ∧ transactions (snd r) = transactions w).
Proof.
  cbn zeta. unfold subscriptionService.cancel.
  rewrite (bind_step (getActiveSubscriptionInfo (clock env) userId) _ w _ w eq_refl).
  assert (Hact : hasActiveSubscription (clock env) userId w
                 = (Return (bool_decide (is_Some
                      (find (λ s, (sub_user_id s =? userId)%nat
                                  && (now (clock env) <? expired_at s)%nat
                                  && bool_decide (is_Some (find_plan w (sub_plan_id s))))
                            (user_subscriptions w)))), w)).
  { unfold hasActiveSubscription, gets. by rewrite existsb_find. }
  rewrite Hact. cbn [fst].
  destruct (find _ (user_subscriptions w)) as [s0 |] eqn:Hs0.
  2: { split; [done | intros answer; cbn; discriminate]. }
  split.
  { rewrite bool_decide_eq_true_2 by (by eexists). discriminate. }
  intros answer. cbn [info_hasActiveSubscription info_expiresAt info_planId].
  pose proof (cancelSubscription_runs (clock env) userId w) as Hrun.
  destruct (activeSubscriptionOf (clock env) userId w) as [s |] eqn:Hs.
  2: { rewrite (bind_fail _ _ w _ w Hrun). cbn. discriminate. }
  rewrite (bind_step _ _ w _ _ Hrun). cbn [negb].
  erewrite (bind_step (getActiveSubscriptionInfo (clock env) userId)) by reflexivity.
  unfold ret. intros _. cbn [snd]. exists s. split; [done |].
  cbn [user_subscriptions set_user_subscriptions record_effect balances transactions].
  split; [done |]. split.
  { rewrite map_map. apply map_ext. intros x. by destruct (sub_id x =? sub_id s)%nat. }
  split.
  { unfold hasActiveSubscription, gets. cbn [fst]. f_equal.
    unfold find_plan. cbn.
    rewrite existsb_map_same by (intros x; by destruct (sub_id x =? sub_id s)%nat).
    apply existsb_exists. exists s0. apply find_some in Hs0 as [Hin Hb]. done. }
  split; [| done].
  apply renewal_off_not_expiring.
  by apply (disable_map_off _ (user_subscriptions w)).
Qed.


End CancelProperties.

Section RenewalKeepsAccess.
Import SubscriptionRenewalService.

Lemma keeps_unexpired_refl (clk : Clock) (w : World) : keeps_unexpired clk w w.
Proof. split; [done |]. intros s Hs _. by exists s. Qed.

Lemma keeps_unexpired_trans (clk : Clock) (a b c : World) :
  keeps_unexpired clk a b → keeps_unexpired clk b c → keeps_unexpired clk a c.
Proof.
  intros [Hp1 H1] [Hp2 H2]. split; [congruence |].
  intros s Hs Hact. destruct (H1 s Hs Hact) as (s1 & Hs1 & Hi1 & Hu1 & Hl1 & He1).
  destruct (H2 s1 Hs1) as (s2 & Hs2 & Hi2 & Hu2 & Hl2 & He2); [lia |].
  exists s2. repeat split; try done; congruence.
Qed.

Lemma keeps_unexpired_appended (clk : Clock) (w w' : World) (extra : list UserSubscription) :
  subscription_plans w' = subscription_plans w →
  user_subscriptions w' = user_subscriptions w ++ extra →
  keeps_unexpired clk w w'.
Proof.
  intros Hp Hs. split; [done |]. intros s Hin _. exists s.
  rewrite Hs, elem_of_app. by repeat split; [left |..].
Qed.

Lemma renewSubscription_appends (env : Env) (c : ExpiringSubscription) (w : World) :
  ∃ extra,
    user_subscriptions (snd (renewSubscription env c w)) = user_subscriptions w ++ extra
    ∧ subscription_plans (snd (renewSubscription env c w)) = subscription_plans w.
Proof.
  unfold renewSubscription, renewCard, signedWith, send, required_fields,
    verifyResponseSignature, parsePaymentData, createPaymentTransaction,
    createTransaction, updatePaymentTransaction, updateTransaction, tokenForCard,
    createSubscription.
  run_all.
  all: first [ by exists []; rewrite app_nil_r | by eexists [_] ].
Qed.

Lemma disableAutoRenewal_keeps (clk : Clock) (id : nat) (w : World) :
  keeps_unexpired clk w (snd (disableAutoRenewal id w)).
Proof.
  split; [done |]. intros s Hs _. cbn.
  exists (if (sub_id s =? id)%nat then disable s else s). split.
  - apply list_elem_of_fmap. by exists s.
  - by destruct (sub_id s =? id)%nat.
Qed.

Lemma renewalLoop_keeps (env : Env) (l : list ExpiringSubscription) (s f : nat)
  (w : World) :
  keeps_unexpired (clock env) w (snd (renewalLoop env l s f w)).
Proof.
  revert s f w. induction l as [| c l IH]; intros s f w.
  - apply keeps_unexpired_refl.
  - cbn [renewalLoop]. unfold bind at 1.
    destruct (renewSubscription_appends env c w) as (extra & Hs & Hp).
    pose proof (keeps_unexpired_appended (clock env) w _ extra Hp Hs) as H1.
    destruct (renewSubscription env c w) as [[[|] | e] w1]; cbn [snd] in *.
    + eapply keeps_unexpired_trans; [exact H1 | apply IH].
    + unfold bind.
      pose proof (disableAutoRenewal_keeps (clock env) (subscription_id c) w1) as H2.
      destruct (disableAutoRenewal (subscription_id c) w1) as [[[] | e] w2] eqn:E;
        cbn [snd] in *.
      * eapply keeps_unexpired_trans; [exact H1 |].
        eapply keeps_unexpired_trans; [exact H2 | apply IH].
      * by eapply keeps_unexpired_trans.
    + exact H1.
Qed.

Lemma cleanup_keeps (env : Env) (months : nat) (w : World) :
  (minus_months (clock env) (now (clock env)) months ≤ now (clock env))%nat →
  keeps_unexpired (clock env) w (snd (cleanupExpiredSubscriptions env months w)).
Proof.
  intros Hclock. split; [done |]. intros s Hs Hact. exists s. split; [| done].
  cbn. apply list_elem_of_filter. split; [lia | done].
Qed.

(** X23. With a clock for which twelve months ago is not later than now,
    processRenewals removes no subscription that has not expired and changes
    neither its user, its plan nor its expiry, whatever the gateway answers;
    so every user who has an active subscription before the run has one
    after it. *)
Theorem renewal_run_keeps_unexpired_subscriptions (env : Env) (w : World) :
  (minus_months (clock env) (now (clock env)) 12 ≤ now (clock env))%nat →
  keeps_unexpired (clock env) w (snd (processRenewals env w))
  ∧ ∀ userId,
      fst (hasActiveSubscription (clock env) userId w) = Return true →
      fst (hasActiveSubscription (clock env) userId (snd (processRenewals env w)))
      = Return true.
Proof.
  intros Hclock.
  assert (Hk : keeps_unexpired (clock env) w (snd (processRenewals env w))).
  { unfold processRenewals, try_catch, getExpiringSubscriptions.
    rewrite bind_gets.
    set (candidates := expiring_rows (clock env) w).
    pose proof (renewalLoop_keeps env candidates 0 0 w) as Hloop.
    unfold bind.
    destruct candidates as [| c0 rest] eqn:Ec.
    - unfold ret at 1. apply (cleanup_keeps env 12 w Hclock).
    - destruct (renewalLoop env (c0 :: rest) 0 0 w) as [[counts | e] w1];
        cbn [snd] in *; [| exact Hloop].
      eapply keeps_unexpired_trans; [exact Hloop |].
      apply (cleanup_keeps env 12 w1).
      destruct Hloop as [_ _]. exact Hclock. }
  split; [exact Hk |].
  intros userId. unfold hasActiveSubscription, gets. cbn [fst].
  intros [= Hact]. f_equal. apply existsb_exists in Hact as (s & Hs & Hb).
  apply andb_true_iff in Hb as [Hb Hplan]. apply andb_true_iff in Hb as [Hu He].
  apply Nat.ltb_lt in He. apply list_elem_of_In in Hs.
  destruct Hk as [Hp Hk]. destruct (Hk s Hs He) as (s' & Hs' & _ & Hu' & Hl' & He').
  apply existsb_exists. exists s'. split; [by apply list_elem_of_In |].
  unfold find_plan in *. rewrite Hu', He', Hl', Hp, Hu, Hplan.
  by rewrite (proj2 (Nat.ltb_lt _ _) He).
Qed.

End RenewalKeepsAccess.

Lemma renewal_run_keeps_unexpired_subscriptions_witness :
  let env := Scenario.env0 500 HttpFailed in
  fst (hasActiveSubscription Scenario.clock0 1
         (snd (SubscriptionRenewalService.processRenewals env Scenario.renewalWorld)))
  = Return true.
Proof.
  cbv zeta.
  destruct (renewal_run_keeps_unexpired_subscriptions (Scenario.env0 500 HttpFailed)
              Scenario.renewalWorld) as [_ H].
  - cbn. lia.
  - apply H. by vm_compute.
Defined.
